(** * Movie-Review-Backend: rating aggregation and reaction protocol

    A shallow embedding of the review model (models/Review.js), the review
    routes (routes/reviews.js) and the user-statistics route
    (routes/users.js), with the properties the specification states about
    them.

    The document store is explicit state: three collections keyed by
    ObjectId.  Mongoose middleware is modelled in the order Mongoose runs
    it: built-in validation, then the schema's own [pre] hooks, then the
    write itself. *)

From Stdlib Require Import ZArith QArith Qround.
From stdpp Require Import gmap strings list.

Open Scope Z_scope.

(** ** JavaScript numbers

    A JavaScript Number is modelled as an exact rational, [NaN] or a signed
    infinity.  The aggregation code only divides a sum of ratings by a
    count, multiplies by ten, rounds and divides by ten.  For ratings
    within 1..5, and counts far beyond what a collection holds, the
    double-precision product lies on the same side of
    every half-integer as the exact one (the forty quotients that hit a
    half exactly are computed exactly), so the rounded tenths agree.
    Every finite result is kept in lowest terms ([Qred]), so that equal
    numbers are equal terms. *)
Module JS.

Inductive number : Type :=
  | NaN
  | Infinity (negative : bool)
  | Fin (q : Q).

Definition of_Z (z : Z) : number := Fin (inject_Z z).

Definition Qneg (q : Q) : bool := Z.ltb (Qnum q) 0.
Definition Qzero (q : Q) : bool := Z.eqb (Qnum q) 0.

(** [x / y] *)
Definition div (x y : number) : number :=
  match x, y with
  | NaN, _ | _, NaN => NaN
  | Infinity _, Infinity _ => NaN
  | Infinity s, Fin b => Infinity (xorb s (Qneg b))
  | Fin _, Infinity _ => Fin 0
  | Fin a, Fin b =>
      if Qzero b then (if Qzero a then NaN else Infinity (Qneg a))
      else Fin (Qred (a / b))
  end.

(** [x * y] *)
Definition mul (x y : number) : number :=
  match x, y with
  | NaN, _ | _, NaN => NaN
  | Infinity s, Infinity t => Infinity (xorb s t)
  | Infinity s, Fin b | Fin b, Infinity s =>
      if Qzero b then NaN else Infinity (xorb s (Qneg b))
  | Fin a, Fin b => Fin (Qred (a * b))
  end.

(** [Math.round]: the nearest integer, ties towards plus infinity. *)
Definition Math_round (x : number) : number :=
  match x with
  | Fin q => of_Z (Qfloor (q + (1 # 2)))
  | _ => x
  end.

(** Truthiness of a number, as used by [x || 0]. *)
Definition truthy (x : number) : bool :=
  match x with
  | NaN => false
  | Infinity _ => true
  | Fin q => negb (Qzero q)
  end.

(** [x <= y], false as soon as one side is [NaN]. *)
Definition leb (x y : number) : bool :=
  match x, y with
  | NaN, _ | _, NaN => false
  | Infinity true, _ => true
  | _, Infinity false => true
  | Infinity false, _ => false
  | _, Infinity true => false
  | Fin a, Fin b => Qle_bool a b
  end.

End JS.

Abbreviation number := JS.number.
Abbreviation ObjectId := nat (only parsing).

(** ** Documents *)

Module Movie.
(** movieSchema, restricted to the title and the three cached aggregates.
    The descriptive paths (genre, releaseYear, director, cast, synopsis,
    the URLs and so on) are left out: no route modelled here reads or
    writes them.  Their validators do run whenever a movie is saved, so a
    stored movie with an invalid descriptive path is refused by
    [movie.save()] where [Movie_save] below accepts it; what is proved of
    a successful save is therefore stated for the answer the route
    gives. *)
Record t : Type := mk {
  title : string;
  averageRating : number;
  totalRatings : Z;
  totalReviews : Z
}.
End Movie.

Module User.
(** Modelled from the spec: models/User.js is not among the sources.  The
    spec's data model gives a User the cached aggregates [totalReviews] and
    [averageRating]; [username] and [joinDate] are the other fields the
    routes read.  Saving a user is taken to succeed. *)
Record t : Type := mk {
  username : string;
  joinDate : Z;
  totalReviews : Z;
  averageRating : number
}.
End User.

Module Review.
(** reviewSchema.  [likes] and [dislikes] are arrays of user references. *)
Record t : Type := mk {
  user : ObjectId;
  movie : ObjectId;
  rating : Z;
  reviewText : string;
  helpful : Z;
  spoiler : bool;
  likes : list ObjectId;
  dislikes : list ObjectId
}.
End Review.

(** The three collections. *)
Record Store : Type := mkStore {
  movies : gmap ObjectId Movie.t;
  users : gmap ObjectId User.t;
  reviews : gmap ObjectId Review.t
}.

(** ** Values of request and response bodies *)

#[local] Unset Elimination Schemes.
Inductive jsval : Type :=
  | JNull
  | JBool (b : bool)
  | JNum (x : number)
  | JStr (s : string)
  | JArr (l : list jsval)
  | JObj (props : list (string * jsval)).
#[local] Set Elimination Schemes.

(** An object literal [{ k1: v1, ..., kn: vn }]: the properties are
    assigned from left to right, so a repeated key keeps its last value. *)
Definition object_literal (props : list (string * jsval)) : gmap string jsval :=
  foldl (λ o kv, <[kv.1 := kv.2]> o) ∅ props.

(** Mongoose's SchemaType casts, applied when a raw value is assigned to a
    schema path or used as an [_id] in a query.  They belong to the
    library, not to this repository, and are taken as an interface;
    [None] stands for a value the path does not accept. *)
Class SchemaCast : Type := {
  castObjectId : jsval → option ObjectId;
  castNumber : jsval → option Z;
  castString : jsval → option string;
  castBoolean : jsval → option bool
}.

(** ** The store monad *)

Inductive MongooseError : Type :=
  | ValidationError
  | CastError_ObjectId
  | DuplicateKeyError.

Inductive result (A : Type) : Type :=
  | Ok (a : A)
  | Err (e : MongooseError).
Arguments Ok {A} a.
Arguments Err {A} e.

Definition M (A : Type) : Type := Store → result A * Store.

#[export] Instance M_ret : MRet M := λ A a s, (Ok a, s).
#[export] Instance M_bind : MBind M := λ A B k m s,
  match m s with
  | (Ok a, s') => k a s'
  | (Err e, s') => (Err e, s')
  end.

Definition throw {A : Type} (e : MongooseError) : M A := λ s, (Err e, s).
Definition get_store : M Store := λ s, (Ok s, s).
Definition put_store (s' : Store) : M unit := λ _, (Ok tt, s').

(** ** Queries *)

Definition Movie_findById (id : ObjectId) : M (option Movie.t) :=
  s ← get_store; mret (movies s !! id).

Definition User_findById (id : ObjectId) : M (option User.t) :=
  s ← get_store; mret (users s !! id).

Definition Review_findById (id : ObjectId) : M (option Review.t) :=
  s ← get_store; mret (reviews s !! id).

Definition all_reviews (s : Store) : list (ObjectId * Review.t) :=
  map_to_list (reviews s).

(** The reviews of one movie, and of one user, as stored. *)
Definition reviews_of_movie (s : Store) (m : ObjectId) : list Review.t :=
  filter (λ r, Review.movie r = m) (all_reviews s).*2.

Definition reviews_by_user (s : Store) (u : ObjectId) : list Review.t :=
  filter (λ r, Review.user r = u) (all_reviews s).*2.

(** [Review.find({ movie })] *)
Definition Review_find_movie (m : ObjectId) : M (list Review.t) :=
  s ← get_store; mret (reviews_of_movie s m).

(** [Review.find({ user })] *)
Definition Review_find_user (u : ObjectId) : M (list Review.t) :=
  s ← get_store; mret (reviews_by_user s u).

(** [Review.findOne({ user, movie })] *)
Definition Review_findOne (u m : ObjectId) : M (option Review.t) :=
  s ← get_store;
  mret (head (filter (λ r, Review.user r = u ∧ Review.movie r = m)
                     (all_reviews s).*2)).

(** ** Saving movies and users *)

(** The validators movieSchema declares on the paths of the record:
    [averageRating] within 0..5, [totalRatings] and [totalReviews] not
    negative, [title] required (not empty) and of at most 200 characters.
    [NaN] is not a Number for Mongoose's cast and fails as well.  A save
    validates every path of the loaded document, changed or not. *)
Definition Movie_validate (m : Movie.t) : bool :=
  JS.leb (JS.of_Z 0) (Movie.averageRating m)
  && JS.leb (Movie.averageRating m) (JS.of_Z 5)
  && (0 <=? Movie.totalRatings m)
  && (0 <=? Movie.totalReviews m)
  && (0 <? String.length (Movie.title m))%nat
  && (String.length (Movie.title m) <=? 200)%nat.

(** [movie.save()] for a document read with [findById]. *)
Definition Movie_save (id : ObjectId) (m : Movie.t) : M unit :=
  if Movie_validate m then
    s ← get_store;
    put_store (mkStore (<[id := m]> (movies s)) (users s) (reviews s))
  else throw ValidationError.

(** [user.save()] for a document read with [findById]. *)
Definition User_save (id : ObjectId) (u : User.t) : M unit :=
  s ← get_store;
  put_store (mkStore (movies s) (<[id := u]> (users s)) (reviews s)).

(** ** reviewSchema middleware *)

(** [reviews.reduce((sum, review) => sum + review.rating, 0)] *)
Definition totalRating (l : list Review.t) : Z :=
  foldl (λ sum review, sum + Review.rating review) 0 l.

(** [Math.round((totalRating / reviews.length) * 10) / 10] *)
Definition rounded_average (l : list Review.t) : number :=
  JS.div
    (JS.Math_round
       (JS.mul (JS.div (JS.of_Z (totalRating l)) (JS.of_Z (Z.of_nat (length l))))
               (JS.of_Z 10)))
    (JS.of_Z 10).

(** [reviewSchema.pre('save')].  [this] is the document being saved; the
    hook runs before the document is written, so both queries see the
    collection as it is stored at that moment.  An error thrown inside is
    handed to [next] and aborts the save. *)
Definition pre_save (this : Review.t) : M unit :=
  movie ← Movie_findById (Review.movie this);
  match movie with
  | Some movie =>
      allReviews ← Review_find_movie (Review.movie this);
      Movie_save (Review.movie this)
        (Movie.mk (Movie.title movie)
                  (rounded_average allReviews)
                  (Z.of_nat (length allReviews))
                  (Z.of_nat (length allReviews)))
  | None => mret tt
  end;;
  user ← User_findById (Review.user this);
  match user with
  | Some user =>
      userReviews ← Review_find_user (Review.user this);
      User_save (Review.user this)
        (User.mk (User.username user) (User.joinDate user)
                 (Z.of_nat (length userReviews))
                 (if 0 <? Z.of_nat (length userReviews) then rounded_average userReviews
                  else JS.of_Z 0))
  | None => mret tt
  end.

(** [reviewSchema.pre('remove')], run before the document is deleted. *)
Definition pre_remove (this : Review.t) : M unit :=
  movie ← Movie_findById (Review.movie this);
  match movie with
  | Some movie =>
      remainingReviews ← Review_find_movie (Review.movie this);
      Movie_save (Review.movie this)
        (if 0 <? Z.of_nat (length remainingReviews) then
           Movie.mk (Movie.title movie)
                    (rounded_average remainingReviews)
                    (Z.of_nat (length remainingReviews))
                    (Z.of_nat (length remainingReviews))
         else Movie.mk (Movie.title movie) (JS.of_Z 0) 0 0)
  | None => mret tt
  end;;
  user ← User_findById (Review.user this);
  match user with
  | Some user =>
      userReviews ← Review_find_user (Review.user this);
      User_save (Review.user this)
        (User.mk (User.username user) (User.joinDate user)
                 (Z.of_nat (length userReviews))
                 (if 0 <? Z.of_nat (length userReviews) then rounded_average userReviews
                  else JS.of_Z 0))
  | None => mret tt
  end.

(** The documents the two hooks write. *)
Definition movie_recomputed (movie : Movie.t) (l : list Review.t) : Movie.t :=
  Movie.mk (Movie.title movie) (rounded_average l)
           (Z.of_nat (length l)) (Z.of_nat (length l)).

Definition user_recomputed (user : User.t) (l : list Review.t) : User.t :=
  User.mk (User.username user) (User.joinDate user) (Z.of_nat (length l))
          (if 0 <? Z.of_nat (length l) then rounded_average l else JS.of_Z 0).

(** The validators reviewSchema declares: [rating] within 1..5 and
    [reviewText] of 10 to 2000 characters, checked on the whole
    document. *)
Definition Review_validate (r : Review.t) : bool :=
  (1 <=? Review.rating r) && (Review.rating r <=? 5)
  && (10 <=? String.length (Review.reviewText r))%nat
  && (String.length (Review.reviewText r) <=? 2000)%nat.

(** The unique compound index [{ user: 1, movie: 1 }]: a write of the
    document [id] is refused when another stored review has the same
    user and movie. *)
Definition violates_unique_index (id : ObjectId) (r : Review.t) (s : Store) : bool :=
  bool_decide (Exists (λ kv, kv.1 ≠ id
                             ∧ Review.user kv.2 = Review.user r
                             ∧ Review.movie kv.2 = Review.movie r)
                      (all_reviews s)).

Definition Review_write (id : ObjectId) (r : Review.t) : M unit :=
  s ← get_store;
  if violates_unique_index id r s then throw DuplicateKeyError
  else put_store (mkStore (movies s) (users s) (<[id := r]> (reviews s))).

(** [review.save()]: validation, then the [pre('save')] hook, then the
    insert or update of the document itself. *)
Definition Review_save (id : ObjectId) (this : Review.t) : M unit :=
  (if Review_validate this then mret tt else throw ValidationError);;
  pre_save this;;
  Review_write id this.

(** [review.remove()]: the [pre('remove')] hook, then the deletion. *)
Definition Review_remove (id : ObjectId) (this : Review.t) : M unit :=
  pre_remove this;;
  s ← get_store;
  put_store (mkStore (movies s) (users s) (delete id (reviews s))).

(** ** reviewSchema.methods.toggleReaction *)

(** [Array.prototype.indexOf]: the first index holding [x], or -1. *)
Fixpoint indexOf_from (l : list ObjectId) (x : ObjectId) (i : Z) : Z :=
  match l with
  | [] => -1
  | y :: l' => if decide (y = x) then i else indexOf_from l' x (i + 1)
  end.

Definition indexOf (l : list ObjectId) (x : ObjectId) : Z := indexOf_from l x 0.

(** [l.splice(start, 1)]: the array without the element at [start]; a
    negative [start] counts from the end. *)
Definition splice1 (l : list ObjectId) (start : Z) : list ObjectId :=
  let len := Z.of_nat (length l) in
  let from := if start <? 0 then Z.max (len + start) 0 else Z.min start len in
  delete (Z.to_nat from) l.

(** [l.push(x)] *)
Definition push (l : list ObjectId) (x : ObjectId) : list ObjectId := l ++ [x].

Definition set_likes (l : list ObjectId) (r : Review.t) : Review.t :=
  Review.mk (Review.user r) (Review.movie r) (Review.rating r)
            (Review.reviewText r) (Review.helpful r) (Review.spoiler r)
            l (Review.dislikes r).

Definition set_dislikes (l : list ObjectId) (r : Review.t) : Review.t :=
  Review.mk (Review.user r) (Review.movie r) (Review.rating r)
            (Review.reviewText r) (Review.helpful r) (Review.spoiler r)
            (Review.likes r) l.

(** [v === s] for a string literal [s]. *)
Definition strict_equals (v : jsval) (s : string) : bool :=
  match v with
  | JStr s' => bool_decide (s' = s)
  | _ => false
  end.

(** The body of [toggleReaction] up to its final [this.save()]: the
    document with its two arrays updated. *)
Definition toggle (this : Review.t) (userId : ObjectId) (reactionType : jsval)
  : Review.t :=
  let likeIndex := indexOf (Review.likes this) userId in
  let dislikeIndex := indexOf (Review.dislikes this) userId in
  if strict_equals reactionType "like" then
    if -1 <? likeIndex then
      set_likes (splice1 (Review.likes this) likeIndex) this
    else
      let this := set_likes (push (Review.likes this) userId) this in
      if -1 <? dislikeIndex then
        set_dislikes (splice1 (Review.dislikes this) dislikeIndex) this
      else this
  else if strict_equals reactionType "dislike" then
    if -1 <? dislikeIndex then
      set_dislikes (splice1 (Review.dislikes this) dislikeIndex) this
    else
      let this := set_dislikes (push (Review.dislikes this) userId) this in
      if -1 <? likeIndex then
        set_likes (splice1 (Review.likes this) likeIndex) this
      else this
  else this.

Definition toggleReaction (id : ObjectId) (this : Review.t)
    (userId : ObjectId) (reactionType : jsval) : M Review.t :=
  let this := toggle this userId reactionType in
  Review_save id this;;
  mret this.

(** ** Requests and responses *)

(** A request as a handler sees it: the acting user resolved by the [auth]
    middleware, the route parameters, the parsed body, and the errors the
    express-validator chain collected. *)
Record Request : Type := mkRequest {
  req_user : ObjectId;
  params_reviewId : jsval;
  params_userId : jsval;
  body : gmap string jsval;
  validation_errors : list string
}.

Inductive ResBody : Type :=
  | Message (message : string)
  | Errors (errors : list string)
  | MessageReview (message : string) (review : Review.t)
  | Stats (stats : gmap string jsval).

Record Response : Type := mkResponse {
  status : Z;
  json : ResBody
}.

(** The typed outcomes of the specification, as the routes render them. *)
Definition DuplicateReview : Response :=
  mkResponse 400 (Message "You have already reviewed this movie").
Definition SelfReaction : Response :=
  mkResponse 400 (Message "Cannot react to your own review").
Definition NotFound (what : string) : Response :=
  mkResponse 404 (Message (what ++ " not found")).
Definition NotAuthorized (action : string) : Response :=
  mkResponse 403 (Message ("Not authorized to " ++ action ++ " this review")).
Definition ValidationFailed (errors : list string) : Response :=
  mkResponse 400 (Errors errors).
Definition ServerError : Response :=
  mkResponse 500 (Message "Server error").
Definition InvalidId (what : string) : Response :=
  mkResponse 400 (Message ("Invalid " ++ what ++ " ID")).

(** [try { ... } catch (error) { ... }] around a handler body.  Writes made
    before the error stay in the store. *)
Definition try_catch (body : M Response) (catch : MongooseError → Response)
  : Store → Response * Store :=
  λ s, match body s with
       | (Ok r, s') => (r, s')
       | (Err e, s') => (catch e, s')
       end.

(** The [catch] clause of the routes that report a malformed id. *)
Definition catch_id (what : string) (error : MongooseError) : Response :=
  match error with
  | CastError_ObjectId => InvalidId what
  | _ => ServerError
  end.

(** ** Routes *)

Section Routes.
Context `{SchemaCast}.

(** The [_id] a query receives: [undefined] matches no document, a value
    the ObjectId cast refuses raises a CastError of kind ObjectId. *)
Definition query_id (v : option jsval) : M (option ObjectId) :=
  match v with
  | None => mret None
  | Some v =>
      match castObjectId v with
      | Some id => mret (Some id)
      | None => throw CastError_ObjectId
      end
  end.

(** [new Review({ user, movie, rating, reviewText, spoiler })] with the raw
    body values.  [None] is a document that [save] rejects with a
    ValidationError: a required path is missing or a cast has failed. *)
Definition Review_new (user movie : ObjectId)
    (rating reviewText : option jsval) (spoiler : jsval) : option Review.t :=
  rating ← rating ≫= castNumber;
  reviewText ← reviewText ≫= castString;
  spoiler ← castBoolean spoiler;
  Some (Review.mk user movie rating reviewText 0 spoiler [] []).

(** The [_id] generated for a new document: one no stored review has. *)
Definition new_ObjectId (s : Store) : ObjectId := fresh (dom (reviews s)).

(** [router.post('/')]: submit a new review. *)
Definition post_review (req : Request) : Store → Response * Store :=
  try_catch
    (if negb (bool_decide (validation_errors req = [])) then
       mret (ValidationFailed (validation_errors req))
     else
       movieId ← query_id (body req !! "movieId");
       movie ← from_option Movie_findById (mret None) movieId;
       match movieId, movie with
       | Some movieId, Some _ =>
           existingReview ← Review_findOne (req_user req) movieId;
           if bool_decide (is_Some existingReview) then mret DuplicateReview
           else
             match Review_new (req_user req) movieId
                     (body req !! "rating") (body req !! "reviewText")
                     (default (JBool false) (body req !! "spoiler")) with
             | Some review =>
                 s ← get_store;
                 Review_save (new_ObjectId s) review;;
                 mret (mkResponse 201
                         (MessageReview "Review submitted successfully" review))
             | None => throw ValidationError
             end
       | _, _ => mret (NotFound "Movie")
       end)
    (λ _, ServerError).

(** Assignment to one schema path of a review document, with the path's
    cast.  The schema is strict: a key that is not a path is ignored. *)
Definition Review_set (key : string) (v : jsval) (r : Review.t) : option Review.t :=
  if decide (key = "rating") then
    x ← castNumber v;
    Some (Review.mk (Review.user r) (Review.movie r) x (Review.reviewText r)
            (Review.helpful r) (Review.spoiler r) (Review.likes r) (Review.dislikes r))
  else if decide (key = "reviewText") then
    x ← castString v;
    Some (Review.mk (Review.user r) (Review.movie r) (Review.rating r) x
            (Review.helpful r) (Review.spoiler r) (Review.likes r) (Review.dislikes r))
  else if decide (key = "spoiler") then
    x ← castBoolean v;
    Some (Review.mk (Review.user r) (Review.movie r) (Review.rating r)
            (Review.reviewText r) (Review.helpful r) x (Review.likes r) (Review.dislikes r))
  else if decide (key = "helpful") then
    x ← castNumber v;
    Some (Review.mk (Review.user r) (Review.movie r) (Review.rating r)
            (Review.reviewText r) x (Review.spoiler r) (Review.likes r) (Review.dislikes r))
  else if decide (key = "user") then
    x ← castObjectId v;
    Some (Review.mk x (Review.movie r) (Review.rating r) (Review.reviewText r)
            (Review.helpful r) (Review.spoiler r) (Review.likes r) (Review.dislikes r))
  else if decide (key = "movie") then
    x ← castObjectId v;
    Some (Review.mk (Review.user r) x (Review.rating r) (Review.reviewText r)
            (Review.helpful r) (Review.spoiler r) (Review.likes r) (Review.dislikes r))
  else if decide (key = "likes") then
    match v with
    | JArr l => x ← mapM castObjectId l; Some (set_likes x r)
    | _ => None
    end
  else if decide (key = "dislikes") then
    match v with
    | JArr l => x ← mapM castObjectId l; Some (set_dislikes x r)
    | _ => None
    end
  else Some r.

(** [Object.assign(review, source)]: every own property of [source] is
    assigned in insertion order.  [None] again is a document whose [save]
    is rejected. *)
Definition Object_assign (review : Review.t) (source : list (string * jsval))
  : option Review.t :=
  foldl (λ target kv, target ≫= Review_set kv.1 kv.2) (Some review) source.

(** [if (req.body.key !== undefined) updateFields.key = req.body.key] *)
Definition copy_field (req : Request) (key : string)
    (updateFields : list (string * jsval)) : list (string * jsval) :=
  match body req !! key with
  | Some v => updateFields ++ [(key, v)]
  | None => updateFields
  end.

(** [router.put('/:reviewId')]: update a review. *)
Definition put_review (req : Request) : Store → Response * Store :=
  try_catch
    (if negb (bool_decide (validation_errors req = [])) then
       mret (ValidationFailed (validation_errors req))
     else
       let updateFields := [] in
       let updateFields := copy_field req "rating" updateFields in
       let updateFields := copy_field req "reviewText" updateFields in
       let updateFields := copy_field req "spoiler" updateFields in
       reviewId ← query_id (Some (params_reviewId req));
       review ← from_option Review_findById (mret None) reviewId;
       match reviewId, review with
       | Some reviewId, Some review =>
           if negb (bool_decide (Review.user review = req_user req)) then
             mret (NotAuthorized "update")
           else
             match Object_assign review updateFields with
             | Some review =>
                 Review_save reviewId review;;
                 mret (mkResponse 200
                         (MessageReview "Review updated successfully" review))
             | None => throw ValidationError
             end
       | _, _ => mret (NotFound "Review")
       end)
    (catch_id "review").

(** [router.delete('/:reviewId')]: delete a review. *)
Definition delete_review (req : Request) : Store → Response * Store :=
  try_catch
    (reviewId ← query_id (Some (params_reviewId req));
     review ← from_option Review_findById (mret None) reviewId;
     match reviewId, review with
     | Some reviewId, Some review =>
         if negb (bool_decide (Review.user review = req_user req)) then
           mret (NotAuthorized "delete")
         else
           Review_remove reviewId review;;
           mret (mkResponse 200 (Message "Review deleted successfully"))
     | _, _ => mret (NotFound "Review")
     end)
    (catch_id "review").

(** [router.post('/:reviewId/reaction')]: like or dislike a review.  An
    absent [reactionType] is [undefined], which like [null] is strictly
    equal to no string. *)
Definition post_reaction (req : Request) : Store → Response * Store :=
  try_catch
    (if negb (bool_decide (validation_errors req = [])) then
       mret (ValidationFailed (validation_errors req))
     else
       let reactionType := default JNull (body req !! "reactionType") in
       reviewId ← query_id (Some (params_reviewId req));
       review ← from_option Review_findById (mret None) reviewId;
       match reviewId, review with
       | Some reviewId, Some review =>
           if bool_decide (Review.user review = req_user req) then
             mret SelfReaction
           else
             review ← toggleReaction reviewId review (req_user req) reactionType;
             mret (mkResponse 200
                     (MessageReview "Reaction updated successfully" review))
       | _, _ => mret (NotFound "Review")
       end)
    (catch_id "review").

End Routes.

(** ** What an update may touch *)

(** The fields of a review an update has no business with. *)
Definition same_frame (r r' : Review.t) : Prop :=
  Review.user r' = Review.user r
  ∧ Review.movie r' = Review.movie r
  ∧ Review.likes r' = Review.likes r
  ∧ Review.dislikes r' = Review.dislikes r
  ∧ Review.helpful r' = Review.helpful r.

(** The paths the update route copies from the request body. *)
Definition editable (key : string) : Prop :=
  key = "rating" ∨ key = "reviewText" ∨ key = "spoiler".

(** The source object handed to [Object.assign] by the update route. *)
Definition updateFields_of (req : Request) : list (string * jsval) :=
  copy_field req "spoiler"
    (copy_field req "reviewText" (copy_field req "rating" [])).

(** ** The user-statistics route (routes/users.js) *)

(** One document of the [$group] stage of the review statistics. *)
Record GroupStats : Type := mkGroupStats {
  g_totalReviews : number;
  g_averageRating : number;
  g_totalLikes : number;
  g_totalDislikes : number
}.

(** [{ $sum: e }] over the matched documents. *)
Definition sum_of (e : Review.t → Z) (l : list Review.t) : number :=
  JS.of_Z (foldr (λ r acc, e r + acc) 0 l).

(** The [$group] stage with [_id: null]: a single group when some
    document reaches it, no document otherwise. *)
Definition group_stage (matched : list Review.t) : list GroupStats :=
  match matched with
  | [] => []
  | _ =>
      [ mkGroupStats
          (sum_of (λ _, 1) matched)
          (JS.div (sum_of Review.rating matched)
                  (JS.of_Z (Z.of_nat (length matched))))
          (sum_of (λ r, Z.of_nat (length (Review.likes r))) matched)
          (sum_of (λ r, Z.of_nat (length (Review.likes r))) matched) ]
  end.

(** [Review.aggregate([{ $match: { user } }, { $group: { ... } }])] *)
Definition Review_aggregate_stats (u : ObjectId) : M (list GroupStats) :=
  s ← get_store;
  mret (group_stage (reviews_by_user s u)).

(** [reviewStats[0]?.field || 0] *)
Definition or_zero (x : option number) : number :=
  match x with
  | Some x => if JS.truthy x then x else JS.of_Z 0
  | None => JS.of_Z 0
  end.

(** The [stats] object literal of the route, key by key in source order. *)
Definition stats_object (reviewStats : list GroupStats) (genreStats : jsval)
    (user : User.t) : gmap string jsval :=
  object_literal
    [ ("totalReviews", JNum (or_zero (g_totalReviews <$> head reviewStats)));
      ("averageRating",
         JNum (JS.div
                 (JS.Math_round
                    (JS.mul (or_zero (g_averageRating <$> head reviewStats))
                            (JS.of_Z 10)))
                 (JS.of_Z 10)));
      ("totalLikes", JNum (or_zero (g_totalLikes <$> head reviewStats)));
      ("totalDislikes", JNum (or_zero (g_totalDislikes <$> head reviewStats)));
      ("topGenres", genreStats);
      ("joinDate", JNum (JS.of_Z (User.joinDate user)));
      ("totalReviews", JNum (JS.of_Z (User.totalReviews user)));
      ("averageRating", JNum (User.averageRating user)) ].

Section Stats.
Context `{SchemaCast}.

(** [router.get('/:userId/stats')].  [genreStats] is the result of the
    second aggregation (the genre preferences), which the handler only
    passes through. *)
Definition get_user_stats (genreStats : jsval) (req : Request)
  : Store → Response * Store :=
  try_catch
    (userId ← query_id (Some (params_userId req));
     user ← from_option User_findById (mret None) userId;
     match userId, user with
     | Some userId, Some user =>
         reviewStats ← Review_aggregate_stats userId;
         mret (mkResponse 200 (Stats (stats_object reviewStats genreStats user)))
     | _, _ => mret (NotFound "User")
     end)
    (catch_id "user").

End Stats.

(** ** A concrete cast for examples

    Numbers that are natural numbers stand for ObjectIds, integers for
    Number paths, strings and booleans for themselves. *)
Definition number_to_Z (x : number) : option Z :=
  match x with
  | JS.Fin q => if (Qden q =? 1)%positive then Some (Qnum q) else None
  | _ => None
  end.

Definition plain_cast : SchemaCast := {|
  castObjectId v :=
    match v with
    | JNum x => z ← number_to_Z x; if 0 <=? z then Some (Z.to_nat z) else None
    | _ => None
    end;
  castNumber v := match v with JNum x => number_to_Z x | _ => None end;
  castString v := match v with JStr s => Some s | _ => None end;
  castBoolean v := match v with JBool b => Some b | _ => None end
|}.

Definition jnum (z : Z) : jsval := JNum (JS.of_Z z).

Module Scenario.

Definition M1 : ObjectId := 1%nat.
Definition alice : ObjectId := 11%nat.
Definition bob : ObjectId := 12%nat.
Definition carol : ObjectId := 13%nat.

Definition text : string := "A fine film indeed.".

Definition review (u : ObjectId) (r : Z) : Review.t :=
  Review.mk u M1 r text 0 false [] [].

(** Movie [M1] with two reviews rated 4 and 5, by alice and bob. *)
Definition s0 : Store :=
  mkStore
    {[ M1 := Movie.mk "M" (JS.Fin (9 # 2)) 2 2 ]}
    {[ alice := User.mk "alice" 0 1 (JS.of_Z 4);
       bob := User.mk "bob" 0 1 (JS.of_Z 5);
       carol := User.mk "carol" 0 0 (JS.of_Z 0) ]}
    {[ 1%nat := review alice 4; 2%nat := review bob 5 ]}.

Definition create_req (u : ObjectId) (r : Z) : Request :=
  mkRequest u JNull JNull
    {[ "movieId" := jnum 1; "rating" := jnum r; "reviewText" := JStr text ]}
    [].

Definition update_req (u : ObjectId) (reviewId r : Z) : Request :=
  mkRequest u (jnum reviewId) JNull {[ "rating" := jnum r ]} [].

Definition delete_req (u : ObjectId) (reviewId : Z) : Request :=
  mkRequest u (jnum reviewId) JNull ∅ [].

Definition react_req (u : ObjectId) (reviewId : Z) (reaction : string) : Request :=
  mkRequest u (jnum reviewId) JNull {[ "reactionType" := JStr reaction ]} [].

Definition stats_req (u : Z) : Request :=
  mkRequest 0%nat JNull (jnum u) ∅ [].

(** carol submits a third review of [M1], rated 3; it is stored under the
    id 3. *)
Definition s1 : Store := (post_review (H := plain_cast) (create_req carol 3) s0).2.

(** bob then deletes his review, the one rated 5. *)
Definition s2 : Store := (delete_review (H := plain_cast) (delete_req bob 2) s1).2.

(** Instead, carol edits her review in [s1] to a rating of 5. *)
Definition s1' : Store := (put_review (H := plain_cast) (update_req carol 3 5) s1).2.

(** A movie whose only review is alice's only review. *)
Definition t0 : Store :=
  mkStore
    {[ M1 := Movie.mk "M" (JS.of_Z 4) 1 1 ]}
    {[ alice := User.mk "alice" 0 1 (JS.of_Z 4) ]}
    {[ 1%nat := review alice 4 ]}.

Definition t1 : Store := (delete_review (H := plain_cast) (delete_req alice 1) t0).2.

(** A movie nobody has reviewed yet. *)
Definition e0 : Store :=
  mkStore
    {[ M1 := Movie.mk "M" (JS.of_Z 0) 0 0 ]}
    {[ carol := User.mk "carol" 0 0 (JS.of_Z 0) ]}
    ∅.

(** An edit of carol's review whose body also names paths the route does
    not copy. *)
Definition crowded_req : Request :=
  mkRequest carol (jnum 3) JNull
    {[ "rating" := jnum 1; "helpful" := jnum 99; "user" := jnum 11;
       "likes" := JArr [jnum 11] ]}
    [].

(** A review liked by alice and disliked by bob, written by carol. *)
Definition reacted : Review.t :=
  Review.mk carol M1 3 text 0 false [alice] [bob].

(** A review liked by alice and bob and disliked by nobody, written by
    carol. *)
Definition applauded : Review.t :=
  Review.mk carol M1 3 text 0 false [alice; bob] [].

(** Stores whose only review is carol's, with reactions. *)
Definition with_review (r : Review.t) : Store :=
  mkStore
    {[ M1 := Movie.mk "M" (JS.of_Z 3) 1 1 ]}
    {[ carol := User.mk "carol" 0 1 (JS.of_Z 3) ]}
    {[ 3%nat := r ]}.

End Scenario.

(** ** Further models

    Definitions used by the further properties at the end of the file. *)

(** The tenths [Math.round(total / n * 10)] yields, in integer arithmetic. *)
Definition tenths (total n : Z) : Z := (20 * total + n) / (2 * n).

(** At most one stored review per user and movie. *)
Definition unique_reviews (s : Store) : Prop :=
  ∀ (i j : ObjectId) (ri rj : Review.t),
    reviews s !! i = Some ri → reviews s !! j = Some rj →
    Review.user ri = Review.user rj → Review.movie ri = Review.movie rj →
    i = j.

(** Two stores agree outside one review, one movie and one user, and hold
    the same movies and users. *)
Definition agree_outside (id m u : ObjectId) (s s' : Store) : Prop :=
  (∀ id', id' ≠ id → reviews s' !! id' = reviews s !! id')
  ∧ (∀ m', m' ≠ m → movies s' !! m' = movies s !! m')
  ∧ (∀ u', u' ≠ u → users s' !! u' = users s !! u')
  ∧ dom (movies s') = dom (movies s)
  ∧ dom (users s') = dom (users s).

(** The two arrays of a review read as two disjoint sets. *)
Definition reactions_well_formed (r : Review.t) : Prop :=
  NoDup (Review.likes r) ∧ NoDup (Review.dislikes r)
  ∧ Review.likes r ## Review.dislikes r.

Definition store_reactions_well_formed (s : Store) : Prop :=
  ∀ (id : ObjectId) (r : Review.t),
    reviews s !! id = Some r → reactions_well_formed r.

(** ** Paginated listings (routes/reviews.js, routes/users.js) *)

(** [Math.ceil] *)
Definition Math_ceil (x : number) : number :=
  match x with
  | JS.Fin q => JS.of_Z (Qceiling q)
  | _ => x
  end.

(** [x < y] on numbers, false as soon as one side is [NaN]. *)
Definition JS_ltb (x y : number) : bool :=
  match x, y with
  | JS.NaN, _ | _, JS.NaN => false
  | JS.Infinity true, JS.Infinity true => false
  | JS.Infinity true, _ => true
  | JS.Infinity false, _ => false
  | JS.Fin _, JS.Infinity neg => negb neg
  | JS.Fin a, JS.Fin b => negb (Qle_bool b a)
  end.

(** The [pagination] object every listing answers with. *)
Record Pagination : Type := mkPagination {
  currentPage : Z;
  totalPages : number;
  totalItems : Z;
  hasNextPage : bool;
  hasPrevPage : bool
}.

(** [{ currentPage: page, totalPages: Math.ceil(total / limit), total,
       hasNextPage: page < totalPages, hasPrevPage: page > 1 }] *)
Definition pagination (page limit total : Z) : Pagination :=
  let totalPages := Math_ceil (JS.div (JS.of_Z total) (JS.of_Z limit)) in
  mkPagination page totalPages total
    (JS_ltb (JS.of_Z page) totalPages) (1 <? page).

(** [.skip(skip).limit(limit)] on the sorted result, for a skip that is
    not negative and a positive limit, as the validators of the listings
    ensure. *)
Definition skip_limit {A : Type} (skip limit : Z) (l : list A) : list A :=
  take (Z.to_nat limit) (drop (Z.to_nat skip) l).

(** The query string of a listing whose [page] and [limit], when given,
    are decimal integers, held after [parseInt]; absent parameters take
    the defaults of the destructuring.  A [page] or [limit] that is no
    integer is refused by [isInt] with a 400 and is not represented. *)
Record ListQuery : Type := mkListQuery {
  q_page : option Z;
  q_limit : option Z;
  q_sort : option string;
  q_order : option string
}.

(** [query(...).optional().isInt({ min, max })] on a value that is a
    decimal integer, where only the bounds are left to check, and
    [.isIn([...])], with the messages of routes/reviews.js;
    [errors.array()] lists them in the order of the chain. *)
Definition check_isInt (v : option Z) (min : Z) (max : option Z) (msg : string)
  : list string :=
  match v with
  | Some z =>
      if (min <=? z) && from_option (λ m, z <=? m) true max then [] else [msg]
  | None => []
  end.

Definition check_isIn (v : option string) (allowed : list string) (msg : string)
  : list string :=
  match v with
  | Some x => if bool_decide (x ∈ allowed) then [] else [msg]
  | None => []
  end.

Definition validate_movie_reviews_query (q : ListQuery) : list string :=
  check_isInt (q_page q) 1 None "Page must be a positive integer"
  ++ check_isInt (q_limit q) 1 (Some 20) "Limit must be between 1 and 20"
  ++ check_isIn (q_sort q) ["rating"; "createdAt"; "helpful"] "Invalid sort field"
  ++ check_isIn (q_order q) ["asc"; "desc"] "Order must be asc or desc".

Definition validate_user_reviews_query (q : ListQuery) : list string :=
  check_isInt (q_page q) 1 None "Page must be a positive integer"
  ++ check_isInt (q_limit q) 1 (Some 20) "Limit must be between 1 and 20".

(** The database's [sort]: some rearrangement of the matched documents,
    chosen by the sort key and direction.  The order among equal keys is
    the database's, and [createdAt] is not part of the review record, so
    the rearrangement is an interface. *)
Class DbSort : Type := {
  db_sort : string → bool → list (ObjectId * Review.t) → list (ObjectId * Review.t);
  db_sort_perm : ∀ key asc l, db_sort key asc l ≡ₚ l
}.

(** What [populate('user', 'username ... totalReviews averageRating')]
    and [populate('movie', 'title ... averageRating')] attach, within the
    fields of the document records. *)
Record UserSummary : Type := mkUserSummary {
  us_username : string;
  us_totalReviews : Z;
  us_averageRating : number
}.

Record MovieSummary : Type := mkMovieSummary {
  ms_title : string;
  ms_averageRating : number
}.

Definition populate_user (s : Store) (r : Review.t) : option UserSummary :=
  (λ u, mkUserSummary (User.username u) (User.totalReviews u)
          (User.averageRating u)) <$> users s !! Review.user r.

Definition populate_movie (s : Store) (r : Review.t) : option MovieSummary :=
  (λ m, mkMovieSummary (Movie.title m) (Movie.averageRating m))
    <$> movies s !! Review.movie r.

Inductive ListBody : Type :=
  | LMessage (message : string)
  | LErrors (errors : list string)
  | LMovieReviews (reviews : list (ObjectId * Review.t * option UserSummary))
                  (p : Pagination)
  | LUserReviews (reviews : list (ObjectId * Review.t * option MovieSummary))
                 (p : Pagination).

Record ListResponse : Type := mkListResponse {
  l_status : Z;
  l_json : ListBody
}.

Section Listings.
Context `{SchemaCast} `{DbSort}.

(** [router.get('/movie/:movieId')] of routes/reviews.js.  The handler only
    reads, so it is a function of the store. *)
Definition get_movie_reviews (movieId : jsval) (q : ListQuery) (s : Store)
  : ListResponse :=
  if negb (bool_decide (validate_movie_reviews_query q = [])) then
    mkListResponse 400 (LErrors (validate_movie_reviews_query q))
  else
    let page := default 1 (q_page q) in
    let limit := default 10 (q_limit q) in
    let sort := default "createdAt" (q_sort q) in
    let order := default "desc" (q_order q) in
    match castObjectId movieId with
    | None => mkListResponse 400 (LMessage "Invalid movie ID")
    | Some m =>
        match movies s !! m with
        | None => mkListResponse 404 (LMessage "Movie not found")
        | Some _ =>
            let asc := bool_decide (order = "asc") in
            let skip := (page - 1) * limit in
            let found :=
              filter (λ kv, Review.movie kv.2 = m) (all_reviews s) in
            let reviews := skip_limit skip limit (db_sort sort asc found) in
            let total := Z.of_nat (length found) in
            mkListResponse 200
              (LMovieReviews
                 ((λ kv, (kv.1, kv.2, populate_user s kv.2)) <$> reviews)
                 (pagination page limit total))
        end
    end.

(** [router.get('/user/:userId')] of routes/reviews.js: newest first, and
    no check that the user exists. *)
Definition get_user_reviews (userId : jsval) (q : ListQuery) (s : Store)
  : ListResponse :=
  if negb (bool_decide (validate_user_reviews_query q = [])) then
    mkListResponse 400 (LErrors (validate_user_reviews_query q))
  else
    let page := default 1 (q_page q) in
    let limit := default 10 (q_limit q) in
    match castObjectId userId with
    | None => mkListResponse 400 (LMessage "Invalid user ID")
    | Some u =>
        let skip := (page - 1) * limit in
        let found := filter (λ kv, Review.user kv.2 = u) (all_reviews s) in
        let reviews := skip_limit skip limit (db_sort "createdAt" false found) in
        let total := Z.of_nat (length found) in
        mkListResponse 200
          (LUserReviews
             ((λ kv, (kv.1, kv.2, populate_movie s kv.2)) <$> reviews)
             (pagination page limit total))
    end.

(** [router.get('/:userId/reviews')] of routes/users.js: the same listing
    behind a check that the user exists. *)
Definition get_reviews_of_user (userId : jsval) (q : ListQuery) (s : Store)
  : ListResponse :=
  if negb (bool_decide (validate_user_reviews_query q = [])) then
    mkListResponse 400 (LErrors (validate_user_reviews_query q))
  else
    match castObjectId userId with
    | None => mkListResponse 400 (LMessage "Invalid user ID")
    | Some u =>
        match users s !! u with
        | None => mkListResponse 404 (LMessage "User not found")
        | Some _ => get_user_reviews userId q s
        end
    end.

End Listings.

(** ** movieSchema (models/Movie.js) *)

From Stdlib Require DecimalString.

(** Strings are sequences of code units below 256.  Among those, the
    white space and line terminators [String.prototype.trim] strips are
    tab, line feed, vertical tab, form feed, carriage return, space and
    no-break space. *)
Definition is_space (a : Ascii.ascii) : bool :=
  bool_decide (Ascii.nat_of_ascii a ∈ [9; 10; 11; 12; 13; 32; 160]%nat).

Fixpoint trimStart (s : string) : string :=
  match s with
  | EmptyString => EmptyString
  | String a s' => if is_space a then trimStart s' else s
  end.

Fixpoint trimEnd (s : string) : string :=
  match s with
  | EmptyString => EmptyString
  | String a s' =>
      match trimEnd s' with
      | EmptyString => if is_space a then EmptyString else String a EmptyString
      | t => String a t
      end
  end.

(** [s.trim()] *)
Definition trim (s : string) : string := trimEnd (trimStart s).

(** [g && g.trim()] as a condition: both strings are non-empty. *)
Definition non_blank (g : string) : Prop := g ≠ "" ∧ trim g ≠ "".

#[export] Instance non_blank_dec (g : string) : Decision (non_blank g).
Proof. unfold non_blank. apply _. Defined.

Definition validGenres : list string :=
  [ "Action"; "Adventure"; "Animation"; "Biography"; "Comedy"; "Crime";
    "Documentary"; "Drama"; "Family"; "Fantasy"; "Film-Noir"; "History";
    "Horror"; "Music"; "Musical"; "Mystery"; "Romance"; "Sci-Fi";
    "Sport"; "Thriller"; "War"; "Western" ].

(** The validator of the [genre] path: a non-empty array of valid
    genres. *)
Definition genre_validator (genres : list string) : bool :=
  if bool_decide (length genres = 0%nat) then false
  else forallb (λ genre, bool_decide (genre ∈ validGenres)) genres.

(** The validator of the [cast] path: every member trims to a non-empty
    string. *)
Definition cast_validator (cast : list string) : bool :=
  forallb (λ member, (0 <? String.length (trim member))%nat) cast.

(** [[...new Set(l)]]: the values of [l] in the order of their first
    occurrence. *)
Definition Set_spread (l : list string) : list string :=
  foldl (λ set x, if bool_decide (x ∈ set) then set else set ++ [x]) [] l.

(** The clean-up of [genre] and [cast] in [movieSchema.pre('save')]. *)
Definition clean_genre (genre : list string) : list string :=
  Set_spread (filter non_blank genre).

Definition clean_cast (cast : list string) : list string :=
  filter non_blank cast.

(** [String(z)] for an integer. *)
Definition String_of_Z (z : Z) : string :=
  DecimalString.NilZero.string_of_int (Z.to_int z).

(** The virtual [formattedRuntime]; [None] is [null].  [runtime] is absent
    or an integer, as the routes' [isInt] accepts, and the quotient and
    the remainder are exact.  The code computes them on doubles, which
    agrees with this for the runtimes the schema allows (1..600), the
    range the property below is stated for, but not for integers beyond
    the doubles' exact range. *)
Definition formattedRuntime (runtime : option Z) : option string :=
  match runtime with
  | None => None
  | Some runtime =>
      if runtime =? 0 then None
      else
        let hours := runtime / 60 in
        let minutes := Z.rem runtime 60 in
        Some (String_of_Z hours +:+ "h " +:+ String_of_Z minutes +:+ "m")
  end.

(** The values of a list in the order of their first occurrence, skipping
    those already [seen]. *)
Fixpoint first_occurrences (seen l : list string) : list string :=
  match l with
  | [] => []
  | x :: l' =>
      if bool_decide (x ∈ seen) then first_occurrences seen l'
      else x :: first_occurrences (seen ++ [x]) l'
  end.

(** ** Deleting a movie (routes/movies.js) *)

Section MovieRoutes.
Context `{SchemaCast}.

(** [router.delete('/:id')], behind the [adminAuth] middleware:
    [Movie.findByIdAndDelete(req.params.id)]. *)
Definition delete_movie (id : jsval) : Store → Response * Store :=
  try_catch
    (movieId ← query_id (Some id);
     movie ← from_option Movie_findById (mret None) movieId;
     match movieId, movie with
     | Some movieId, Some _ =>
         s ← get_store;
         put_store (mkStore (delete movieId (movies s)) (users s) (reviews s));;
         mret (mkResponse 200 (Message "Movie deleted successfully"))
     | _, _ => mret (NotFound "Movie")
     end)
    (catch_id "movie").

End MovieRoutes.

(** ** The watchlist (models/Watchlist.js, routes/watchlist.js) *)

Module Watchlist.
(** watchlistSchema.  [notes] is optional: [None] is an unset or null
    path. *)
Record t : Type := mk {
  user : ObjectId;
  movie : ObjectId;
  dateAdded : Z;
  priority : string;
  notes : option string
}.
End Watchlist.

(** The validators watchlistSchema declares: [priority] one of low, medium
    and high, [notes] of at most 500 characters. *)
Definition priority_validator (p : string) : bool :=
  bool_decide (p ∈ ["low"; "medium"; "high"]).

Definition notes_validator (n : option string) : bool :=
  from_option (λ n, (String.length n <=? 500)%nat) true n.

Definition Watchlist_validate (w : Watchlist.t) : bool :=
  priority_validator (Watchlist.priority w)
  && notes_validator (Watchlist.notes w).

(** [Watchlist.findOne({ user, movie })], with the id of the document. *)
Definition Watchlist_findOne (u m : ObjectId) (items : gmap nat Watchlist.t)
  : option (ObjectId * Watchlist.t) :=
  head (filter (λ kv, Watchlist.user kv.2 = u ∧ Watchlist.movie kv.2 = m)
               (map_to_list items)).

(** The unique compound index [{ user: 1, movie: 1 }] of the watchlist. *)
Definition watchlist_violates_index (w : Watchlist.t)
    (items : gmap nat Watchlist.t) : bool :=
  bool_decide (is_Some (Watchlist_findOne (Watchlist.user w)
                          (Watchlist.movie w) items)).

(** [item.save()] of a new document: validation, then the insert, which
    the unique index may refuse; the schema has no hooks. *)
Definition Watchlist_insert (id : ObjectId) (w : Watchlist.t)
    (items : gmap nat Watchlist.t) : result unit * gmap nat Watchlist.t :=
  if negb (Watchlist_validate w) then (Err ValidationError, items)
  else if watchlist_violates_index w items then (Err DuplicateKeyError, items)
  else (Ok tt, <[id := w]> items).

(** [item.save()] of a stored document whose [priority] and [notes] may
    have been assigned: every path of the loaded document is validated,
    changed or not, before the write. *)
Definition Watchlist_update (id : ObjectId) (w : Watchlist.t)
    (items : gmap nat Watchlist.t) : result unit * gmap nat Watchlist.t :=
  if negb (Watchlist_validate w) then (Err ValidationError, items)
  else (Ok tt, <[id := w]> items).

(** A request to the watchlist routes: the acting user, the route
    parameters, the parsed body, the validation errors and the value of
    [Date.now()]. *)
Record WRequest : Type := mkWRequest {
  w_user : ObjectId;
  params_itemId : jsval;
  params_movieId : jsval;
  w_body : gmap string jsval;
  w_errors : list string;
  w_now : Z
}.

Inductive WResBody : Type :=
  | WMessage (message : string)
  | WErrors (errors : list string)
  | WMessageItem (message : string) (item : Watchlist.t)
                 (movie : option MovieSummary)
  | WCheck (inWatchlist : bool) (item : option Watchlist.t).

Record WResponse : Type := mkWResponse {
  w_status : Z;
  w_json : WResBody
}.

(** At most one watchlist entry per user and movie. *)
Definition unique_items (items : gmap nat Watchlist.t) : Prop :=
  ∀ (i j : ObjectId) (wi wj : Watchlist.t),
    items !! i = Some wi → items !! j = Some wj →
    Watchlist.user wi = Watchlist.user wj →
    Watchlist.movie wi = Watchlist.movie wj → i = j.

Definition watchlist_populate (s : Store) (w : Watchlist.t)
  : option MovieSummary :=
  (λ m, mkMovieSummary (Movie.title m) (Movie.averageRating m))
    <$> movies s !! Watchlist.movie w.

Section WatchlistRoutes.
Context `{SchemaCast}.

(** The value assigned to [notes]: [undefined] and [null] leave the path
    without a string, anything else goes through the String cast. *)
Definition cast_notes (v : option jsval) : option (option string) :=
  match v with
  | None | Some JNull => Some None
  | Some v => Some <$> castString v
  end.

(** [router.post('/')]: add a movie to the acting user's watchlist.  The
    store of movies is only read. *)
Definition post_watchlist (req : WRequest) (s : Store)
    (items : gmap nat Watchlist.t) : WResponse * gmap nat Watchlist.t :=
  if negb (bool_decide (w_errors req = [])) then
    (mkWResponse 400 (WErrors (w_errors req)), items)
  else
    let priority := default (JStr "medium") (w_body req !! "priority") in
    let notes := w_body req !! "notes" in
    match w_body req !! "movieId" with
    | None => (mkWResponse 404 (WMessage "Movie not found"), items)
    | Some movieId =>
        match castObjectId movieId with
        | None => (mkWResponse 500 (WMessage "Server error"), items)
        | Some m =>
            match movies s !! m with
            | None => (mkWResponse 404 (WMessage "Movie not found"), items)
            | Some _ =>
                if bool_decide (is_Some (Watchlist_findOne (w_user req) m items))
                then (mkWResponse 400
                        (WMessage "Movie is already in your watchlist"), items)
                else
                  match castString priority, cast_notes notes with
                  | Some priority, Some notes =>
                      let watchlistItem :=
                        Watchlist.mk (w_user req) m (w_now req) priority notes in
                      match Watchlist_insert (fresh (dom items))
                              watchlistItem items with
                      | (Ok _, items') =>
                          (mkWResponse 201
                             (WMessageItem
                                "Movie added to watchlist successfully"
                                watchlistItem
                                (watchlist_populate s watchlistItem)),
                           items')
                      | (Err _, items') =>
                          (mkWResponse 500 (WMessage "Server error"), items')
                      end
                  | _, _ => (mkWResponse 500 (WMessage "Server error"), items)
                  end
            end
        end
    end.

(** [router.put('/:itemId')]: change the priority and the notes of an
    entry of one's own. *)
Definition put_watchlist_item (req : WRequest) (s : Store)
    (items : gmap nat Watchlist.t) : WResponse * gmap nat Watchlist.t :=
  if negb (bool_decide (w_errors req = [])) then
    (mkWResponse 400 (WErrors (w_errors req)), items)
  else
    match castObjectId (params_itemId req) with
    | None => (mkWResponse 400 (WMessage "Invalid watchlist item ID"), items)
    | Some itemId =>
        match items !! itemId with
        | None =>
            (mkWResponse 404 (WMessage "Watchlist item not found"), items)
        | Some old =>
            if negb (bool_decide (Watchlist.user old = w_user req))
            then (mkWResponse 403
                    (WMessage "Not authorized to update this watchlist item"),
                  items)
            else
              let priority :=
                match w_body req !! "priority" with
                | Some v => castString v
                | None => Some (Watchlist.priority old)
                end in
              let notes :=
                match w_body req !! "notes" with
                | Some v => cast_notes (Some v)
                | None => Some (Watchlist.notes old)
                end in
              match priority, notes with
              | Some priority, Some notes =>
                  let watchlistItem :=
                    Watchlist.mk (Watchlist.user old) (Watchlist.movie old)
                      (Watchlist.dateAdded old) priority notes in
                  match Watchlist_update itemId watchlistItem items with
                  | (Ok _, items') =>
                      (mkWResponse 200
                         (WMessageItem "Watchlist item updated successfully"
                            watchlistItem
                            (watchlist_populate s watchlistItem)),
                       items')
                  | (Err _, items') =>
                      (mkWResponse 500 (WMessage "Server error"), items')
                  end
              | _, _ => (mkWResponse 500 (WMessage "Server error"), items)
              end
        end
    end.

(** [router.delete('/:itemId')]: remove an entry of one's own. *)
Definition delete_watchlist_item (req : WRequest)
    (items : gmap nat Watchlist.t) : WResponse * gmap nat Watchlist.t :=
  match castObjectId (params_itemId req) with
  | None => (mkWResponse 400 (WMessage "Invalid watchlist item ID"), items)
  | Some itemId =>
      match items !! itemId with
      | None => (mkWResponse 404 (WMessage "Watchlist item not found"), items)
      | Some watchlistItem =>
          if negb (bool_decide (Watchlist.user watchlistItem = w_user req))
          then (mkWResponse 403
                  (WMessage "Not authorized to delete this watchlist item"),
                items)
          else
            (mkWResponse 200
               (WMessage "Movie removed from watchlist successfully"),
             delete itemId items)
      end
  end.

(** [router.delete('/movie/:movieId')]: remove a movie from the acting
    user's watchlist. *)
Definition delete_watchlist_movie (req : WRequest)
    (items : gmap nat Watchlist.t) : WResponse * gmap nat Watchlist.t :=
  match castObjectId (params_movieId req) with
  | None => (mkWResponse 400 (WMessage "Invalid movie ID"), items)
  | Some m =>
      match Watchlist_findOne (w_user req) m items with
      | None =>
          (mkWResponse 404 (WMessage "Movie not found in watchlist"), items)
      | Some (id, _) =>
          (mkWResponse 200
             (WMessage "Movie removed from watchlist successfully"),
           delete id items)
      end
  end.

(** [router.get('/check/:movieId')] *)
Definition check_watchlist (req : WRequest) (items : gmap nat Watchlist.t)
  : WResponse :=
  match castObjectId (params_movieId req) with
  | None => mkWResponse 400 (WMessage "Invalid movie ID")
  | Some m =>
      let watchlistItem := snd <$> Watchlist_findOne (w_user req) m items in
      mkWResponse 200
        (WCheck (bool_decide (is_Some watchlistItem)) watchlistItem)
  end.

End WatchlistRoutes.

(** ** Sample data *)

Module Samples.
Import Scenario.

(** A database that returns the matched documents in the order it finds
    them, whatever the sort key. *)
Definition found_order : DbSort :=
  {| db_sort := λ _ _ l, l; db_sort_perm := λ _ _ l, Permutation_refl l |}.

(** The first page of a movie's reviews, one review per page. *)
Definition first_page : ListQuery := mkListQuery (Some 1) (Some 1) None None.

(** A genre list with a repetition. *)
Definition genres : list string := ["Drama"; "Crime"; "Drama"].

(** A watchlist that holds alice's entry for [M1]. *)
Definition watch (u m : ObjectId) : Watchlist.t :=
  Watchlist.mk u m 0 "medium" None.

Definition w0 : gmap nat Watchlist.t := {[ 1%nat := watch alice M1 ]}.

(** [u] adds [M1] with a note; [u] names [M1] in the route; [u] raises the
    priority of an entry. *)
Definition add_req (u : ObjectId) : WRequest :=
  mkWRequest u JNull JNull {[ "movieId" := jnum 1; "notes" := JStr "soon" ]}
    [] 100.

Definition movie_req (u : ObjectId) : WRequest :=
  mkWRequest u JNull (jnum 1) ∅ [] 200.

Definition edit_req (u : ObjectId) (itemId : Z) : WRequest :=
  mkWRequest u (jnum itemId) (jnum 1)
    {[ "movieId" := jnum 1; "priority" := JStr "high" ]} [] 300.

End Samples.


(** * Properties *)

(** ** Running the store monad *)

Lemma run_bind {A B : Type} (m : M A) (k : A → M B) (s : Store) :
  (m ≫= k) s = match m s with
               | (Ok a, s') => k a s'
               | (Err e, s') => (Err e, s')
               end.
Proof. reflexivity. Qed.

Lemma run_ret {A : Type} (a : A) (s : Store) : (mret a : M A) s = (Ok a, s).
Proof. reflexivity. Qed.

Ltac run :=
  repeat first
    [ rewrite run_bind
    | rewrite run_ret
    | progress unfold get_store, put_store, throw
    | progress simpl ].

(** ** Arrays of user references *)

Lemma indexOf_from_cases (l : list ObjectId) (x : ObjectId) (i : Z) :
  (¬ x ∈ l ∧ indexOf_from l x i = (-1))
  ∨ (∃ k : nat, l !! k = Some x ∧ indexOf_from l x i = i + Z.of_nat k).
Proof.
  revert i. induction l as [|y l IH]; intros i; simpl.
  - left. split; [apply not_elem_of_nil | done].
  - destruct (decide (y = x)) as [->|Hne].
    + right. exists 0%nat. split; [done | lia].
    + destruct (IH (i + 1)) as [[Hnot Hidx] | (k & Hk & Hidx)].
      * left. split; [|done]. rewrite elem_of_cons. intros [Heq | Hin]; auto.
      * right. exists (S k). split; [done | lia].
Qed.

Lemma indexOf_found (l : list ObjectId) (x : ObjectId) :
  (-1 <? indexOf l x) = true →
  ∃ k : nat, l !! k = Some x ∧ indexOf l x = Z.of_nat k.
Proof.
  unfold indexOf. intros Hlt.
  destruct (indexOf_from_cases l x 0) as [[_ Hidx] | (k & Hk & Hidx)].
  - rewrite Hidx in Hlt. done.
  - exists k. split; [done | lia].
Qed.

Lemma indexOf_absent (l : list ObjectId) (x : ObjectId) :
  (-1 <? indexOf l x) = false → x ∉ l.
Proof.
  unfold indexOf. intros Hlt.
  destruct (indexOf_from_cases l x 0) as [[Hnot _] | (k & Hk & Hidx)]; [done|].
  rewrite Hidx in Hlt. apply Z.ltb_ge in Hlt. lia.
Qed.

Lemma splice1_delete (l : list ObjectId) (k : nat) :
  (k < length l)%nat → splice1 l (Z.of_nat k) = delete k l.
Proof.
  intros Hk. unfold splice1.
  replace (Z.of_nat k <? 0) with false by (symmetry; apply Z.ltb_ge; lia).
  rewrite Z.min_l by lia. by rewrite Nat2Z.id.
Qed.

Lemma elem_of_middle_NoDup (t d : list ObjectId) (x y : ObjectId) :
  NoDup (t ++ x :: d) → y ∈ t ++ d ↔ y ∈ t ++ x :: d ∧ y ≠ x.
Proof.
  intros Hnd. apply NoDup_app in Hnd as (_ & Hleft & Hright).
  apply NoDup_cons in Hright as [Hx _].
  rewrite !elem_of_app, elem_of_cons. split.
  - intros [Hin | Hin]; (split; [tauto|]); intros ->; [|done].
    apply (Hleft x Hin). by left.
  - intros [[Hin | [-> | Hin]] Hne]; tauto.
Qed.

(** In an array without repetition, removing the slot that holds [x]
    removes [x] and nothing else. *)
Lemma elem_of_delete_NoDup (l : list ObjectId) (k : nat) (x y : ObjectId) :
  NoDup l → l !! k = Some x → y ∈ delete k l ↔ y ∈ l ∧ y ≠ x.
Proof.
  intros Hnd Hk. rewrite delete_take_drop.
  pose proof (take_drop_middle l k x Hk) as Hl.
  rewrite <- Hl in Hnd.
  rewrite (elem_of_middle_NoDup _ _ x y Hnd). by rewrite Hl.
Qed.

Lemma NoDup_delete_index (l : list ObjectId) (k : nat) :
  NoDup l → NoDup (delete k l).
Proof.
  intros Hnd. rewrite delete_take_drop.
  rewrite <- (take_drop k l) in Hnd.
  apply NoDup_app in Hnd as (Ht & Hd & Hdr).
  apply NoDup_app. split; [done|]. split.
  - intros z Hz Hz'. apply (Hd z Hz). rewrite <- (take_drop 1 (drop k l)).
    rewrite drop_drop. apply elem_of_app. right. by rewrite Nat.add_comm.
  - rewrite <- (take_drop 1 (drop k l)) in Hdr.
    apply NoDup_app in Hdr as (_ & _ & Hdr). rewrite drop_drop in Hdr.
    by rewrite Nat.add_comm in Hdr.
Qed.

(** What [toggleReaction] does to one array when the user is found in
    it. *)
Lemma elem_of_splice1_indexOf (l : list ObjectId) (x y : ObjectId) :
  NoDup l → (-1 <? indexOf l x) = true →
  y ∈ splice1 l (indexOf l x) ↔ y ∈ l ∧ y ≠ x.
Proof.
  intros Hnd Hlt. destruct (indexOf_found l x Hlt) as (k & Hk & ->).
  rewrite splice1_delete by (by eapply lookup_lt_Some).
  by apply elem_of_delete_NoDup.
Qed.

Lemma NoDup_splice1_indexOf (l : list ObjectId) (x : ObjectId) :
  NoDup l → (-1 <? indexOf l x) = true → NoDup (splice1 l (indexOf l x)).
Proof.
  intros Hnd Hlt. destruct (indexOf_found l x Hlt) as (k & Hk & ->).
  rewrite splice1_delete by (by eapply lookup_lt_Some).
  by apply NoDup_delete_index.
Qed.

Lemma indexOf_elem_of (l : list ObjectId) (x : ObjectId) :
  x ∈ l → (-1 <? indexOf l x) = true.
Proof.
  intros Hin. destruct (-1 <? indexOf l x) eqn:E; [done|].
  by apply indexOf_absent in E.
Qed.

Lemma elem_of_push (l : list ObjectId) (x y : ObjectId) :
  y ∈ push l x ↔ y ∈ l ∨ y = x.
Proof. unfold push. rewrite elem_of_app, list_elem_of_singleton. done. Qed.

(** ** toggleReaction *)

Section Toggle.
Variable this : Review.t.
Variable userId : ObjectId.
Hypothesis likes_NoDup : NoDup (Review.likes this).
Hypothesis dislikes_NoDup : NoDup (Review.dislikes this).

(** Membership in the two arrays after a "like". *)
Lemma toggle_like_likes (y : ObjectId) :
  y ∈ Review.likes (toggle this userId (JStr "like")) ↔
  if bool_decide (userId ∈ Review.likes this)
  then y ∈ Review.likes this ∧ y ≠ userId
  else y ∈ Review.likes this ∨ y = userId.
Proof.
  unfold toggle. simpl.
  destruct (-1 <? indexOf (Review.likes this) userId) eqn:E.
  - pose proof (indexOf_found _ _ E) as (k & Hk & _).
    rewrite bool_decide_eq_true_2 by (by eapply list_elem_of_lookup_2).
    simpl. by apply elem_of_splice1_indexOf.
  - rewrite bool_decide_eq_false_2 by (by apply indexOf_absent).
    destruct (-1 <? indexOf (Review.dislikes this) userId); simpl;
      apply elem_of_push.
Qed.

Lemma toggle_like_dislikes (y : ObjectId) :
  y ∈ Review.dislikes (toggle this userId (JStr "like")) ↔
  if bool_decide (userId ∈ Review.likes this)
  then y ∈ Review.dislikes this
  else y ∈ Review.dislikes this ∧ y ≠ userId.
Proof.
  unfold toggle. simpl.
  destruct (-1 <? indexOf (Review.likes this) userId) eqn:E.
  - pose proof (indexOf_found _ _ E) as (k & Hk & _).
    rewrite bool_decide_eq_true_2 by (by eapply list_elem_of_lookup_2).
    done.
  - rewrite bool_decide_eq_false_2 by (by apply indexOf_absent).
    destruct (-1 <? indexOf (Review.dislikes this) userId) eqn:E'; simpl.
    + by apply elem_of_splice1_indexOf.
    + apply indexOf_absent in E'. split; [|tauto].
      intros Hy. split; [done|]. by intros ->.
Qed.

(** Membership in the two arrays after a "dislike". *)
Lemma toggle_dislike_dislikes (y : ObjectId) :
  y ∈ Review.dislikes (toggle this userId (JStr "dislike")) ↔
  if bool_decide (userId ∈ Review.dislikes this)
  then y ∈ Review.dislikes this ∧ y ≠ userId
  else y ∈ Review.dislikes this ∨ y = userId.
Proof.
  unfold toggle. simpl.
  destruct (-1 <? indexOf (Review.dislikes this) userId) eqn:E.
  - pose proof (indexOf_found _ _ E) as (k & Hk & _).
    rewrite bool_decide_eq_true_2 by (by eapply list_elem_of_lookup_2).
    simpl. by apply elem_of_splice1_indexOf.
  - rewrite bool_decide_eq_false_2 by (by apply indexOf_absent).
    destruct (-1 <? indexOf (Review.likes this) userId); simpl;
      apply elem_of_push.
Qed.

Lemma toggle_dislike_likes (y : ObjectId) :
  y ∈ Review.likes (toggle this userId (JStr "dislike")) ↔
  if bool_decide (userId ∈ Review.dislikes this)
  then y ∈ Review.likes this
  else y ∈ Review.likes this ∧ y ≠ userId.
Proof.
  unfold toggle. simpl.
  destruct (-1 <? indexOf (Review.dislikes this) userId) eqn:E.
  - pose proof (indexOf_found _ _ E) as (k & Hk & _).
    rewrite bool_decide_eq_true_2 by (by eapply list_elem_of_lookup_2).
    done.
  - rewrite bool_decide_eq_false_2 by (by apply indexOf_absent).
    destruct (-1 <? indexOf (Review.likes this) userId) eqn:E'; simpl.
    + by apply elem_of_splice1_indexOf.
    + apply indexOf_absent in E'. split; [|tauto].
      intros Hy. split; [done|]. by intros ->.
Qed.

(** A reaction type that is neither string leaves the document alone. *)
Lemma toggle_other (reactionType : jsval) :
  strict_equals reactionType "like" = false →
  strict_equals reactionType "dislike" = false →
  toggle this userId reactionType = this.
Proof. intros H1 H2. unfold toggle. by rewrite H1, H2. Qed.

Lemma strict_equals_true (v : jsval) (s : string) :
  strict_equals v s = true → v = JStr s.
Proof.
  destruct v; simpl; try done. intros Hb. by apply bool_decide_eq_true in Hb as ->.
Qed.

End Toggle.

(** What the array code of [toggleReaction] does on a review whose likes
    and dislikes hold no user twice and share no user. *)
Lemma toggle_exclusive (this : Review.t) (userId : ObjectId) :
  NoDup (Review.likes this) →
  NoDup (Review.dislikes this) →
  Review.likes this ## Review.dislikes this →
  (userId ∈ Review.dislikes this →
     userId ∈ Review.likes (toggle this userId (JStr "like"))
     ∧ userId ∉ Review.dislikes (toggle this userId (JStr "like")))
  ∧ (userId ∈ Review.likes this →
     userId ∈ Review.dislikes (toggle this userId (JStr "dislike"))
     ∧ userId ∉ Review.likes (toggle this userId (JStr "dislike")))
  ∧ (userId ∈ Review.likes this →
     userId ∉ Review.likes (toggle this userId (JStr "like")))
  ∧ (userId ∈ Review.dislikes this →
     userId ∉ Review.dislikes (toggle this userId (JStr "dislike")))
  ∧ (∀ reactionType : jsval,
     Review.likes (toggle this userId reactionType)
       ## Review.dislikes (toggle this userId reactionType)).
Proof.
  intros Hl Hd Hdisj.
  pose proof (toggle_like_likes this userId Hl) as LL.
  pose proof (toggle_like_dislikes this userId Hd) as LD.
  pose proof (toggle_dislike_dislikes this userId Hd) as DD.
  pose proof (toggle_dislike_likes this userId Hl) as DL.
  split; [|split; [|split; [|split]]].
  - intros Hin. rewrite LL, LD.
    destruct (bool_decide_reflect (userId ∈ Review.likes this)) as [Hin'|_].
    + exfalso. by apply (Hdisj userId).
    + tauto.
  - intros Hin. rewrite DD, DL.
    destruct (bool_decide_reflect (userId ∈ Review.dislikes this)) as [Hin'|_].
    + exfalso. by apply (Hdisj userId).
    + tauto.
  - intros Hin. rewrite LL. rewrite bool_decide_eq_true_2 by done. tauto.
  - intros Hin. rewrite DD. rewrite bool_decide_eq_true_2 by done. tauto.
  - intros reactionType y.
    destruct (strict_equals reactionType "like") eqn:E1.
    { apply strict_equals_true in E1 as ->. rewrite LL, LD.
      destruct (bool_decide_reflect (userId ∈ Review.likes this));
        intros H1 H2; [apply (Hdisj y); tauto|].
      destruct H1 as [H1 | ->]; [apply (Hdisj y); tauto | tauto]. }
    destruct (strict_equals reactionType "dislike") eqn:E2.
    { apply strict_equals_true in E2 as ->. rewrite DL, DD.
      destruct (bool_decide_reflect (userId ∈ Review.dislikes this));
        intros H1 H2; [apply (Hdisj y); tauto|].
      destruct H2 as [H2 | ->]; [apply (Hdisj y); tauto | tauto]. }
    rewrite toggle_other by done. apply Hdisj.
Qed.

(** The hypotheses of C6 on the arrays are kept by [toggle], and hold of
    the empty arrays a new review starts with. *)
Lemma toggle_NoDup (this : Review.t) (userId : ObjectId) (reactionType : jsval) :
  NoDup (Review.likes this) → NoDup (Review.dislikes this) →
  NoDup (Review.likes (toggle this userId reactionType))
  ∧ NoDup (Review.dislikes (toggle this userId reactionType)).
Proof.
  intros Hl Hd. unfold toggle.
  assert (Push : ∀ l, NoDup l → (-1 <? indexOf l userId) = false →
                 NoDup (push l userId)).
  { intros l Hnd E. apply indexOf_absent in E. unfold push.
    apply NoDup_app. split; [done|]. split; [|apply NoDup_singleton].
    intros z Hz Hz'. apply list_elem_of_singleton in Hz' as ->. done. }
  destruct (strict_equals reactionType "like").
  { destruct (-1 <? indexOf (Review.likes this) userId) eqn:E.
    - simpl. split; [by apply NoDup_splice1_indexOf | done].
    - destruct (-1 <? indexOf (Review.dislikes this) userId) eqn:E'; simpl;
        (split; [by apply Push|]); [by apply NoDup_splice1_indexOf | done]. }
  destruct (strict_equals reactionType "dislike"); [|done].
  destruct (-1 <? indexOf (Review.dislikes this) userId) eqn:E.
  - simpl. split; [done | by apply NoDup_splice1_indexOf].
  - destruct (-1 <? indexOf (Review.likes this) userId) eqn:E'; simpl;
      (split; [|by apply Push]); [by apply NoDup_splice1_indexOf | done].
Qed.

(** ** The save hook *)

(** When the save hook succeeds it has rewritten the movie and the user
    of the review, where they exist, from the reviews stored at that
    moment, and nothing else. *)
Lemma pre_save_Ok (this : Review.t) (s s' : Store) :
  pre_save this s = (Ok tt, s') →
  reviews s' = reviews s
  ∧ movies s' =
      match movies s !! Review.movie this with
      | Some movie =>
          <[Review.movie this :=
              movie_recomputed movie (reviews_of_movie s (Review.movie this))]>
            (movies s)
      | None => movies s
      end
  ∧ users s' =
      match users s !! Review.user this with
      | Some user =>
          <[Review.user this :=
              user_recomputed user (reviews_by_user s (Review.user this))]>
            (users s)
      | None => users s
      end.
Proof.
  unfold pre_save, Movie_findById, User_findById, Review_find_movie,
    Review_find_user, Movie_save, User_save.
  run. destruct (movies s !! Review.movie this) as [movie|] eqn:Hm; run.
  - destruct (Movie_validate _); run; [|done].
    destruct (users s !! Review.user this) as [user|] eqn:Hu; run;
      intros [= <-]; done.
  - destruct (users s !! Review.user this) as [user|] eqn:Hu; run;
      intros [= <-]; done.
Qed.

(** When it fails, nothing has been written. *)
Lemma pre_save_Err (this : Review.t) (s s' : Store) (e : MongooseError) :
  pre_save this s = (Err e, s') → s' = s.
Proof.
  unfold pre_save, Movie_findById, User_findById, Review_find_movie,
    Review_find_user, Movie_save, User_save.
  run. destruct (movies s !! Review.movie this) as [movie|] eqn:Hm; run.
  - destruct (Movie_validate _); run; [|by intros [= _ <-]].
    destruct (users s !! Review.user this) as [user|] eqn:Hu; run; done.
  - destruct (users s !! Review.user this) as [user|] eqn:Hu; run; done.
Qed.

(** [save] either writes the document under its id, after the hook, or
    leaves every review as stored. *)
Lemma Review_save_reviews (id : ObjectId) (this : Review.t) (s s' : Store)
    (res : result unit) :
  Review_save id this s = (res, s') →
  (res = Ok tt ∧ reviews s' = <[id := this]> (reviews s))
  ∨ ((∃ e, res = Err e) ∧ reviews s' = reviews s).
Proof.
  unfold Review_save. rewrite !run_bind.
  destruct (Review_validate this); run; [|intros [= <- <-]; right; eauto].
  destruct (pre_save this s) as [[[]|e] s1] eqn:Hpre.
  - apply pre_save_Ok in Hpre as (Hr & _ & _).
    unfold Review_write. run.
    destruct (violates_unique_index id this s1); run.
    + intros [= <- <-]. right. eauto.
    + intros [= <- <-]. left. simpl. by rewrite Hr.
  - apply pre_save_Err in Hpre as ->. intros [= <- <-]. right. eauto.
Qed.

Lemma Review_save_Ok (id : ObjectId) (this : Review.t) (s s' : Store) :
  Review_save id this s = (Ok tt, s') →
  ∃ s1, pre_save this s = (Ok tt, s1)
        ∧ s' = mkStore (movies s1) (users s1) (<[id := this]> (reviews s1)).
Proof.
  unfold Review_save. rewrite !run_bind.
  destruct (Review_validate this); run; [|done].
  destruct (pre_save this s) as [[[]|e] s1] eqn:Hpre; [|done].
  unfold Review_write. run.
  destruct (violates_unique_index id this s1); run; [done|].
  intros [= <-]. eauto.
Qed.

(** The method stores what [toggle] computes. *)
Lemma toggleReaction_Ok (id : ObjectId) (this r' : Review.t) (userId : ObjectId)
    (reactionType : jsval) (s s' : Store) :
  toggleReaction id this userId reactionType s = (Ok r', s') →
  r' = toggle this userId reactionType ∧ reviews s' !! id = Some r'.
Proof.
  unfold toggleReaction. rewrite run_bind.
  destruct (Review_save id _ s) as [[[]|e] s1] eqn:Hsave; [|done].
  rewrite run_ret. intros [= <- <-].
  apply Review_save_reviews in Hsave as [[_ Hrev] | [[e [=]] _]].
  by rewrite Hrev, lookup_insert_eq.
Qed.

(** C6: [toggleReaction] on a review whose likes and dislikes hold no user
    twice and share no user.  When the method succeeds, the document it
    returns is the one stored under the review's id; in it a "like" by a
    user found in dislikes has moved that user to likes (and a "dislike"
    by a user found in likes has moved them to dislikes), a reaction the
    user already had is taken back, and the two arrays still hold no user
    twice and share no user.  When the method fails, every stored review
    is as it was. *)
Theorem C6_toggle_keeps_reactions_exclusive (id : ObjectId) (this : Review.t)
    (userId : ObjectId) (reactionType : jsval) (s s' : Store)
    (res : result Review.t) :
  NoDup (Review.likes this) →
  NoDup (Review.dislikes this) →
  Review.likes this ## Review.dislikes this →
  toggleReaction id this userId reactionType s = (res, s') →
  match res with
  | Ok r' =>
      reviews s' !! id = Some r'
      ∧ NoDup (Review.likes r') ∧ NoDup (Review.dislikes r')
      ∧ Review.likes r' ## Review.dislikes r'
      ∧ (reactionType = JStr "like" →
         (userId ∈ Review.dislikes this →
            userId ∈ Review.likes r' ∧ userId ∉ Review.dislikes r')
         ∧ (userId ∈ Review.likes this → userId ∉ Review.likes r'))
      ∧ (reactionType = JStr "dislike" →
         (userId ∈ Review.likes this →
            userId ∈ Review.dislikes r' ∧ userId ∉ Review.likes r')
         ∧ (userId ∈ Review.dislikes this → userId ∉ Review.dislikes r'))
  | Err _ => reviews s' = reviews s
  end.
Proof.
  intros Hl Hd Hdisj Hrun. destruct res as [r'|e].
  - apply toggleReaction_Ok in Hrun as [-> Hstored].
    destruct (toggle_exclusive this userId Hl Hd Hdisj)
      as (Hld & Hdl & Hll & Hdd & Hex).
    destruct (toggle_NoDup this userId reactionType Hl Hd) as [Hl' Hd'].
    split; [done|]. split; [done|]. split; [done|]. split; [apply Hex|].
    split; intros ->; split; done.
  - revert Hrun. unfold toggleReaction. rewrite run_bind.
    destruct (Review_save id _ s) as [[[]|e'] s1] eqn:Hsave; [done|].
    intros [= _ <-].
    by apply Review_save_reviews in Hsave as [[[=] _] | [_ Hrev]].
Qed.

(** Replacing a stored review by one that satisfies a filter exactly when
    the old one did does not change how many reviews pass the filter. *)
Lemma filter_length_insert (P : Review.t → Prop) `{!∀ x, Decision (P x)}
    (m : gmap nat Review.t) (id : ObjectId) (r r' : Review.t) :
  m !! id = Some r → (P r ↔ P r') →
  length (filter P (map_to_list (<[id := r']> m)).*2)
  = length (filter P (map_to_list m).*2).
Proof.
  intros Hr HP.
  rewrite <- (insert_delete_id m id r) at 2 by done.
  rewrite <- (insert_delete_eq m id r').
  rewrite !map_to_list_insert by apply lookup_delete_eq.
  rewrite !fmap_cons. simpl.
  destruct (decide (P r)) as [Hp | Hp].
  - rewrite !filter_cons_True by tauto. done.
  - rewrite !filter_cons_False by tauto. done.
Qed.

Section RouteProperties.
Context `{SchemaCast}.

(** C7: a reaction request by the review's own author is answered with the
    SelfReaction outcome and leaves the whole store, hence the review's
    likes and dislikes, as it was. *)
Theorem C7_self_reaction_rejected (req : Request) (s : Store)
    (id : ObjectId) (r : Review.t) :
  validation_errors req = [] →
  castObjectId (params_reviewId req) = Some id →
  reviews s !! id = Some r →
  Review.user r = req_user req →
  post_reaction req s = (SelfReaction, s)
  ∧ (reviews (post_reaction req s).2 !! id = Some r).
Proof.
  intros Hval Hid Hr Hown.
  assert (Hrun : post_reaction req s = (SelfReaction, s)).
  { unfold post_reaction, try_catch, query_id, Review_findById.
    rewrite Hval. run. rewrite Hid. run. rewrite Hr.
    rewrite bool_decide_eq_true_2 by done. reflexivity. }
  rewrite Hrun. done.
Qed.

(** [findOne] finds a review as soon as one matches. *)
Lemma Review_findOne_is_Some (u m : ObjectId) (s : Store)
    (id : ObjectId) (r : Review.t) :
  reviews s !! id = Some r → Review.user r = u → Review.movie r = m →
  ∃ r0, Review_findOne u m s = (Ok (Some r0), s).
Proof.
  intros Hr Hu Hm. unfold Review_findOne. run.
  assert (Hin : r ∈ filter (λ r, Review.user r = u ∧ Review.movie r = m)
                      (all_reviews s).*2).
  { apply list_elem_of_filter. split; [done|].
    apply (list_elem_of_fmap_2' snd _ (id, r)); [|done].
    by apply elem_of_map_to_list. }
  destruct (filter _ _) as [|r0 l]; [by apply elem_of_nil in Hin|].
  by exists r0.
Qed.

(** C5: creating a review for a movie the acting user has already reviewed
    is answered with the DuplicateReview outcome; the store is returned
    as it was, so no review is added and no aggregate changes. *)
Theorem C5_duplicate_review_rejected (req : Request) (s : Store)
    (v : jsval) (m : ObjectId) (id : ObjectId) (r : Review.t) :
  validation_errors req = [] →
  body req !! "movieId" = Some v →
  castObjectId v = Some m →
  is_Some (movies s !! m) →
  reviews s !! id = Some r →
  Review.user r = req_user req →
  Review.movie r = m →
  post_review req s = (DuplicateReview, s).
Proof.
  intros Hval Hbody Hcast [mv Hmv] Hr Hu Hm.
  destruct (Review_findOne_is_Some (req_user req) m s id r) as [r0 Hfind];
    [done..|].
  unfold post_review, try_catch, query_id, Movie_findById.
  rewrite Hval, Hbody. run. rewrite Hcast. run. rewrite Hmv.
  rewrite run_bind, Hfind. reflexivity.
Qed.

(** *** Creating and deleting a review *)

(** Storing a review under an unused id adds one review to its movie. *)
Lemma reviews_of_movie_insert_new (s : Store) (mv : gmap nat Movie.t)
    (us : gmap nat User.t) (id : ObjectId) (review : Review.t) :
  reviews s !! id = None →
  length (reviews_of_movie (mkStore mv us (<[id := review]> (reviews s)))
            (Review.movie review))
  = S (length (reviews_of_movie s (Review.movie review))).
Proof.
  intros Hnew. unfold reviews_of_movie, all_reviews. simpl.
  rewrite map_to_list_insert by done. rewrite fmap_cons. simpl.
  by rewrite filter_cons_True.
Qed.

(** Whenever a creation succeeds, the review is stored under a new id and
    the movie document holds the aggregates of the reviews stored before
    it: its counters are one short of the reviews that reference it. *)
Lemma post_review_created (req : Request) (s s' : Store) (resp : Response) :
  post_review req s = (resp, s') →
  status resp = 201 →
  ∃ (m : ObjectId) (movie : Movie.t) (review : Review.t),
    movies s !! m = Some movie
    ∧ Review.movie review = m
    ∧ Review.user review = req_user req
    ∧ reviews s' = <[new_ObjectId s := review]> (reviews s)
    ∧ movies s' !! m = Some (movie_recomputed movie (reviews_of_movie s m))
    ∧ length (reviews_of_movie s' m) = S (length (reviews_of_movie s m)).
Proof.
  unfold post_review, try_catch, query_id, Movie_findById, Review_findOne.
  destruct (negb (bool_decide (validation_errors req = [])));
    [by intros [= <- _]|].
  run. destruct (body req !! "movieId") as [v|]; run; [|by intros [= <- _]].
  destruct (castObjectId v) as [m|]; run; [|by intros [= <- _]].
  destruct (movies s !! m) as [movie|] eqn:Hmovie; run; [|by intros [= <- _]].
  destruct (bool_decide (is_Some _)); run; [by intros [= <- _]|].
  destruct (Review_new _ _ _ _ _) as [review|] eqn:Hnew; run;
    [|by intros [= <- _]].
  assert (Review.user review = req_user req ∧ Review.movie review = m)
    as [Hu Hm].
  { unfold Review_new in Hnew.
    destruct (body req !! "rating" ≫= castNumber); [|done].
    destruct (body req !! "reviewText" ≫= castString); [|done].
    destruct (castBoolean _); [|done].
    by injection Hnew as <-. }
  destruct (Review_save (new_ObjectId s) review s) as [[[]|e] s2] eqn:Hsave;
    [|by intros [= <- _]].
  intros [= _ <-] _.
  apply Review_save_Ok in Hsave as (s1 & Hpre & ->).
  apply pre_save_Ok in Hpre as (Hrev & Hmovies & _).
  rewrite Hm, Hmovie in Hmovies.
  exists m, movie, review. simpl. rewrite Hrev, Hmovies, lookup_insert_eq.
  repeat split; try done.
  rewrite <- Hm. apply reviews_of_movie_insert_new.
  unfold new_ObjectId. apply (not_elem_of_dom_1 (reviews s)). apply is_fresh.
Qed.

(** Whenever a deletion succeeds, the movie document holds the aggregates
    of the reviews stored before it, the deleted one included. *)
Lemma delete_review_deleted (req : Request) (s s' : Store) (resp : Response)
    (id : ObjectId) (r : Review.t) (movie : Movie.t) :
  delete_review req s = (resp, s') →
  status resp = 200 →
  castObjectId (params_reviewId req) = Some id →
  reviews s !! id = Some r →
  movies s !! Review.movie r = Some movie →
  reviews s' = delete id (reviews s)
  ∧ movies s' !! Review.movie r
    = Some (movie_recomputed movie (reviews_of_movie s (Review.movie r)))
  ∧ r ∈ reviews_of_movie s (Review.movie r).
Proof.
  intros Hrun Hstatus Hid Hr Hmovie. revert Hrun.
  unfold delete_review, try_catch, query_id, Review_findById.
  rewrite Hid. run. rewrite Hr.
  destruct (negb (bool_decide (Review.user r = req_user req)));
    [intros [= <- _]; done|].
  assert (Hin : r ∈ reviews_of_movie s (Review.movie r)).
  { apply list_elem_of_filter. split; [done|].
    apply (list_elem_of_fmap_2' snd _ (id, r)); [|done].
    by apply elem_of_map_to_list. }
  unfold Review_remove, pre_remove, Movie_findById, User_findById,
    Review_find_movie, Review_find_user, Movie_save, User_save.
  run. rewrite Hmovie. run.
  replace (0 <? Z.of_nat (length (reviews_of_movie s (Review.movie r))))
    with true.
  2:{ symmetry. apply Z.ltb_lt.
      destruct (reviews_of_movie s (Review.movie r)); [|simpl; lia].
      by apply elem_of_nil in Hin. }
  fold (movie_recomputed movie (reviews_of_movie s (Review.movie r))).
  destruct (Movie_validate _); run; [|intros [= <- _]; done].
  destruct (users s !! Review.user r); run; intros [= _ <-]; simpl;
    rewrite lookup_insert_eq; done.
Qed.

(** *** Updating a review *)

Lemma same_frame_refl (r : Review.t) : same_frame r r.
Proof. by repeat split. Qed.

Lemma same_frame_trans (r1 r2 r3 : Review.t) :
  same_frame r1 r2 → same_frame r2 r3 → same_frame r1 r3.
Proof.
  intros (?&?&?&?&?) (?&?&?&?&?). repeat split; congruence.
Qed.

Lemma Review_set_frame (key : string) (v : jsval) (r r' : Review.t) :
  editable key → Review_set key v r = Some r' → same_frame r r'.
Proof.
  intros [-> | [-> | ->]]; unfold Review_set; simpl.
  - destruct (castNumber v); intros [= <-]. by repeat split.
  - destruct (castString v); intros [= <-]. by repeat split.
  - destruct (castBoolean v); intros [= <-]. by repeat split.
Qed.

Lemma foldl_Review_set_frame (source : list (string * jsval))
    (target : option Review.t) (r' : Review.t) :
  Forall (λ kv, editable kv.1) source →
  foldl (λ target kv, target ≫= Review_set kv.1 kv.2) target source = Some r' →
  ∃ r, target = Some r ∧ same_frame r r'.
Proof.
  intros Hkeys. revert target.
  induction Hkeys as [|[key v] source Hkey _ IH]; intros target; simpl.
  - intros ->. eexists. split; [done | apply same_frame_refl].
  - intros Hfold. apply IH in Hfold as (r1 & Hset & Hframe).
    destruct target as [r|]; [|done]. simpl in Hset.
    exists r. split; [done|].
    eapply same_frame_trans; [|done]. by eapply Review_set_frame.
Qed.

Lemma Object_assign_frame (review r' : Review.t)
    (source : list (string * jsval)) :
  Forall (λ kv, editable kv.1) source →
  Object_assign review source = Some r' → same_frame review r'.
Proof.
  intros Hkeys Hassign.
  apply foldl_Review_set_frame in Hassign as (r & [= <-] & Hframe); done.
Qed.

Lemma copy_field_editable (req : Request) (key : string)
    (updateFields : list (string * jsval)) :
  editable key →
  Forall (λ kv, editable kv.1) updateFields →
  Forall (λ kv, editable kv.1) (copy_field req key updateFields).
Proof.
  intros Hkey Hall. unfold copy_field.
  destruct (body req !! key); [|done].
  apply Forall_app. split; [done|]. by apply Forall_singleton.
Qed.

Lemma updateFields_editable (req : Request) :
  Forall (λ kv, editable kv.1) (updateFields_of req).
Proof.
  unfold updateFields_of.
  repeat (apply copy_field_editable; [unfold editable; tauto|]).
  apply Forall_nil_2.
Qed.

(** How an update request runs once the review is found. *)
Lemma put_review_run (req : Request) (s : Store) (id : ObjectId) (r : Review.t) :
  castObjectId (params_reviewId req) = Some id →
  reviews s !! id = Some r →
  put_review req s =
    if negb (bool_decide (validation_errors req = [])) then
      (ValidationFailed (validation_errors req), s)
    else if negb (bool_decide (Review.user r = req_user req)) then
      (NotAuthorized "update", s)
    else
      match Object_assign r (updateFields_of req) with
      | Some review =>
          match Review_save id review s with
          | (Ok _, s') =>
              (mkResponse 200
                 (MessageReview "Review updated successfully" review), s')
          | (Err e, s') => (catch_id "review" e, s')
          end
      | None => (ServerError, s)
      end.
Proof.
  intros Hid Hr. unfold put_review, try_catch, query_id, Review_findById.
  destruct (negb (bool_decide (validation_errors req = []))); [done|].
  run. rewrite Hid. run. rewrite Hr.
  destruct (negb (bool_decide (Review.user r = req_user req))); [done|].
  fold (updateFields_of req).
  destruct (Object_assign r (updateFields_of req)) as [review|]; [|done].
  run. destruct (Review_save id review s) as [[[]|e] s']; done.
Qed.

(** C10: whatever the request body holds, an update request leaves the
    review's user, movie, likes, dislikes and helpful counter as they
    were; only rating, reviewText and spoiler can differ afterwards. *)
Theorem C10_update_touches_only_editable_fields (req : Request) (s : Store)
    (id : ObjectId) (r : Review.t) :
  castObjectId (params_reviewId req) = Some id →
  reviews s !! id = Some r →
  ∃ r' : Review.t,
    reviews (put_review req s).2 !! id = Some r'
    ∧ Review.user r' = Review.user r
    ∧ Review.movie r' = Review.movie r
    ∧ Review.likes r' = Review.likes r
    ∧ Review.dislikes r' = Review.dislikes r
    ∧ Review.helpful r' = Review.helpful r.
Proof.
  intros Hid Hr. rewrite (put_review_run req s id r) by done.
  assert (Hsame : ∃ r', reviews s !! id = Some r' ∧ same_frame r r').
  { exists r. split; [done | apply same_frame_refl]. }
  destruct (negb (bool_decide (validation_errors req = []))); [done|].
  destruct (negb (bool_decide (Review.user r = req_user req))); [done|].
  destruct (Object_assign r (updateFields_of req)) as [review|] eqn:Hassign;
    [|done].
  apply Object_assign_frame in Hassign; [|apply updateFields_editable].
  destruct (Review_save id review s) as [res s'] eqn:Hsave.
  apply Review_save_reviews in Hsave as [[-> Hrev] | [[e ->] Hrev]]; simpl.
  - exists review. rewrite Hrev, lookup_insert_eq. done.
  - rewrite Hrev. done.
Qed.

(** C4 (as amended): a successful update runs the save hook, which
    rewrites the aggregates of the movie and of the authoring user alike.
    Afterwards the user's [totalReviews] is the number of stored reviews
    by that user, and the movie's [totalRatings] and [totalReviews] are
    the number of stored reviews of that movie. *)
Theorem C4_update_recomputes_user_and_movie (req : Request) (s s' : Store)
    (resp : Response) (id : ObjectId) (r : Review.t) :
  put_review req s = (resp, s') →
  status resp = 200 →
  castObjectId (params_reviewId req) = Some id →
  reviews s !! id = Some r →
  (∀ user : User.t, users s !! Review.user r = Some user →
     ∃ user' : User.t,
       users s' !! Review.user r = Some user'
       ∧ User.username user' = User.username user
       ∧ User.joinDate user' = User.joinDate user
       ∧ User.totalReviews user'
         = Z.of_nat (length (reviews_by_user s' (Review.user r))))
  ∧ (∀ movie : Movie.t, movies s !! Review.movie r = Some movie →
     ∃ movie' : Movie.t,
       movies s' !! Review.movie r = Some movie'
       ∧ Movie.title movie' = Movie.title movie
       ∧ Movie.totalRatings movie'
         = Z.of_nat (length (reviews_of_movie s' (Review.movie r)))
       ∧ Movie.totalReviews movie'
         = Z.of_nat (length (reviews_of_movie s' (Review.movie r)))).
Proof.
  intros Hrun Hstatus Hid Hr.
  rewrite (put_review_run req s id r) in Hrun by done.
  destruct (negb (bool_decide (validation_errors req = [])));
    [by injection Hrun as <- _|].
  destruct (negb (bool_decide (Review.user r = req_user req)));
    [by injection Hrun as <- _|].
  destruct (Object_assign r (updateFields_of req)) as [review|] eqn:Hassign;
    [|by injection Hrun as <- _].
  apply Object_assign_frame in Hassign as (Huser & Hmovie & _);
    [|apply updateFields_editable].
  destruct (Review_save id review s) as [[[]|e] s2] eqn:Hsave;
    [|injection Hrun as <- _; by destruct e].
  injection Hrun as _ <-.
  apply Review_save_Ok in Hsave as (s1 & Hpre & ->).
  apply pre_save_Ok in Hpre as (Hrev & Hmovies & Husers).
  rewrite Huser in Husers. rewrite Hmovie in Hmovies.
  unfold reviews_by_user, reviews_of_movie, all_reviews. simpl.
  rewrite Hrev, Hmovies, Husers. split.
  - intros user Hu. rewrite Hu, lookup_insert_eq.
    eexists. split; [done|]. simpl. repeat split.
    f_equal. symmetry. apply (filter_length_insert _ _ id r); [done|].
    by rewrite Huser.
  - intros movie Hm. rewrite Hm, lookup_insert_eq.
    eexists. split; [done|]. simpl.
    assert (Hlen : length (filter (λ r0, Review.movie r0 = Review.movie r)
                             (map_to_list (<[id:=review]> (reviews s))).*2)
                   = length (filter (λ r0, Review.movie r0 = Review.movie r)
                               (map_to_list (reviews s)).*2)).
    { apply (filter_length_insert _ _ id r); [done|]. by rewrite Hmovie. }
    unfold reviews_of_movie, all_reviews. rewrite Hlen. done.
Qed.

End RouteProperties.

(** ** The user-statistics route *)

Lemma or_zero_of_Z (z : Z) : or_zero (Some (JS.of_Z z)) = JS.of_Z z.
Proof.
  unfold or_zero, JS.truthy, JS.of_Z, JS.Qzero. simpl.
  destruct (Z.eqb_spec z 0) as [->|]; reflexivity.
Qed.

Lemma sum_of_nil (e : Review.t → Z) : sum_of e [] = JS.of_Z 0.
Proof. reflexivity. Qed.

Lemma sum_of_sizes (f : Review.t → nat) (l : list Review.t) :
  sum_of (λ r, Z.of_nat (f r)) l = JS.of_Z (Z.of_nat (sum_list_with f l)).
Proof.
  unfold sum_of. f_equal. induction l as [|r l IH]; simpl; [done|].
  rewrite IH. lia.
Qed.

Section StatsProperties.
Context `{SchemaCast}.

Lemma get_user_stats_run (genreStats : jsval) (req : Request) (s : Store)
    (uid : ObjectId) (user : User.t) :
  castObjectId (params_userId req) = Some uid →
  users s !! uid = Some user →
  get_user_stats genreStats req s =
    (mkResponse 200
       (Stats (stats_object
                 (group_stage (reviews_by_user s uid))
                 genreStats user)), s).
Proof.
  intros Hid Hu.
  unfold get_user_stats, try_catch, query_id, User_findById, Review_aggregate_stats.
  rewrite Hid. run. rewrite Hu. reflexivity.
Qed.

(** C8: the [totalDislikes] figure of the statistics is the sum, over the
    stored reviews written by the user, of the sizes of their [likes]
    arrays (0 when the user has no review), and so always equals
    [totalLikes]; the [dislikes] arrays play no part in it. *)
Theorem C8_totalDislikes_sums_likes (genreStats : jsval) (req : Request)
    (s : Store) (uid : ObjectId) (user : User.t) :
  castObjectId (params_userId req) = Some uid →
  users s !! uid = Some user →
  ∃ stats : gmap string jsval,
    get_user_stats genreStats req s = (mkResponse 200 (Stats stats), s)
    ∧ stats !! "totalDislikes" =
        Some (JNum (JS.of_Z (Z.of_nat
          (sum_list_with (λ r, length (Review.likes r))
             (filter (λ r, Review.user r = uid)
                     (map_to_list (reviews s)).*2)))))
    ∧ stats !! "totalDislikes" = stats !! "totalLikes".
Proof.
  intros Hid Hu. eexists. split; [by apply get_user_stats_run|].
  unfold stats_object, object_literal. simpl.
  rewrite !lookup_insert_ne by done. rewrite !lookup_insert_eq.
  rewrite !lookup_insert_ne by done. rewrite !lookup_insert_eq.
  unfold reviews_by_user, all_reviews.
  destruct (filter _ _) as [|r l]; [done|].
  unfold group_stage. simpl head. simpl fmap.
  rewrite sum_of_sizes. unfold sum_of. rewrite !or_zero_of_Z. done.
Qed.

(** C9: [totalReviews] and [averageRating] of the statistics are the
    cached fields of the user document: the object literal assigns both
    keys a second time, after the freshly aggregated values. *)
Theorem C9_stats_report_cached_aggregates (genreStats : jsval) (req : Request)
    (s : Store) (uid : ObjectId) (user : User.t) :
  castObjectId (params_userId req) = Some uid →
  users s !! uid = Some user →
  ∃ stats : gmap string jsval,
    get_user_stats genreStats req s = (mkResponse 200 (Stats stats), s)
    ∧ stats !! "totalReviews" = Some (JNum (JS.of_Z (User.totalReviews user)))
    ∧ stats !! "averageRating" = Some (JNum (User.averageRating user)).
Proof.
  intros Hid Hu. eexists. split; [by apply get_user_stats_run|].
  unfold stats_object, object_literal. simpl.
  rewrite lookup_insert_eq.
  rewrite lookup_insert_ne by done. rewrite lookup_insert_eq. done.
Qed.

End StatsProperties.

(** ** Witnesses on the scenario store *)

Lemma C7_self_reaction_rejected_witness :
  post_reaction (H := plain_cast) (Scenario.react_req Scenario.alice 1 "like") Scenario.s0
    = (SelfReaction, Scenario.s0)
  ∧ reviews (post_reaction (H := plain_cast)
               (Scenario.react_req Scenario.alice 1 "like") Scenario.s0).2 !! 1%nat
    = Some (Scenario.review Scenario.alice 4).
Proof.
  apply (C7_self_reaction_rejected (H := plain_cast)
           (Scenario.react_req Scenario.alice 1 "like") Scenario.s0 1%nat
           (Scenario.review Scenario.alice 4)); reflexivity.
Defined.

Lemma C5_duplicate_review_rejected_witness :
  post_review (H := plain_cast) (Scenario.create_req Scenario.alice 2) Scenario.s0
    = (DuplicateReview, Scenario.s0).
Proof.
  apply (C5_duplicate_review_rejected (H := plain_cast)
           (Scenario.create_req Scenario.alice 2) Scenario.s0 (jnum 1)
           Scenario.M1 1%nat (Scenario.review Scenario.alice 4));
    try reflexivity.
  vm_compute. eauto.
Defined.

Section OnTheScenario.
Import Scenario.
Local Existing Instance plain_cast.

(** C1: carol's review of [M1] is accepted and stored; three reviews now
    reference the movie and their rounded mean is 4, yet the movie keeps
    the aggregates of the two reviews stored before: 4.5 over 2. *)
Theorem C1_create_keeps_previous_aggregates :
  status (post_review (create_req carol 3) s0).1 = 201
  ∧ length (reviews_of_movie s1 M1) = 3%nat
  ∧ totalRating (reviews_of_movie s1 M1) = 12
  ∧ rounded_average (reviews_of_movie s1 M1) = JS.of_Z 4
  ∧ movies s1 !! M1 = Some (Movie.mk "M" (JS.Fin (9 # 2)) 2 2).
Proof. vm_compute. done. Qed.

(** C2: the scenario of the specification.  After the third review the
    movie still shows 4.5 over 2 reviews; after the deletion of the review
    rated 5 it shows 4.0 over 3 reviews, although the two reviews left
    have a rounded mean of 3.5. *)
Theorem C2_scenario_lags_one_step :
  movies s0 !! M1 = Some (Movie.mk "M" (JS.Fin (9 # 2)) 2 2)
  ∧ status (post_review (create_req carol 3) s0).1 = 201
  ∧ movies s1 !! M1 = Some (Movie.mk "M" (JS.Fin (9 # 2)) 2 2)
  ∧ status (delete_review (delete_req bob 2) s1).1 = 200
  ∧ length (reviews_of_movie s2 M1) = 2%nat
  ∧ totalRating (reviews_of_movie s2 M1) = 7
  ∧ rounded_average (reviews_of_movie s2 M1) = JS.Fin (7 # 2)
  ∧ movies s2 !! M1 = Some (Movie.mk "M" (JS.of_Z 4) 3 3).
Proof. vm_compute. done. Qed.

(** C3: deleting the only review of [M1], which is also alice's only
    review, empties the collection but leaves the movie at 4 over 1
    review and alice at 1 review averaging 4. *)
Theorem C3_delete_only_review_keeps_aggregates :
  reviews_of_movie t0 M1 = [review alice 4]
  ∧ status (delete_review (delete_req alice 1) t0).1 = 200
  ∧ reviews t1 = ∅
  ∧ movies t1 !! M1 = Some (Movie.mk "M" (JS.of_Z 4) 1 1)
  ∧ users t1 !! alice = Some (User.mk "alice" 0 1 (JS.of_Z 4)).
Proof. vm_compute. done. Qed.

(** C4, as stated, fails: carol's edit of her review changes her cached
    [totalReviews] from 0 to 1 and her [averageRating] from 0 to 3. *)
Lemma C4_update_changes_user_aggregates :
  status (put_review (update_req carol 3 5) s1).1 = 200
  ∧ users s1 !! carol = Some (User.mk "carol" 0 0 (JS.of_Z 0))
  ∧ users s1' !! carol = Some (User.mk "carol" 0 1 (JS.of_Z 3))
  ∧ users s1' !! carol ≠ users s1 !! carol.
Proof. vm_compute. done. Qed.

Lemma C4_update_recomputes_user_and_movie_witness :
  (∀ user : User.t, users s1 !! carol = Some user →
     ∃ user' : User.t,
       users s1' !! carol = Some user'
       ∧ User.username user' = User.username user
       ∧ User.joinDate user' = User.joinDate user
       ∧ User.totalReviews user' = Z.of_nat (length (reviews_by_user s1' carol)))
  ∧ (∀ movie : Movie.t, movies s1 !! M1 = Some movie →
     ∃ movie' : Movie.t,
       movies s1' !! M1 = Some movie'
       ∧ Movie.title movie' = Movie.title movie
       ∧ Movie.totalRatings movie' = Z.of_nat (length (reviews_of_movie s1' M1))
       ∧ Movie.totalReviews movie' = Z.of_nat (length (reviews_of_movie s1' M1))).
Proof.
  apply (C4_update_recomputes_user_and_movie (update_req carol 3 5) s1 s1'
           (put_review (update_req carol 3 5) s1).1 3%nat (review carol 3));
    vm_compute; reflexivity.
Defined.

Lemma C6_toggle_keeps_reactions_exclusive_witness :
  let r' := toggle reacted bob (JStr "like") in
  let s' := (toggleReaction 3%nat reacted bob (JStr "like")
               (with_review reacted)).2 in
  reviews s' !! 3%nat = Some r'
  ∧ NoDup (Review.likes r') ∧ NoDup (Review.dislikes r')
  ∧ Review.likes r' ## Review.dislikes r'
  ∧ (JStr "like" = JStr "like" →
     (bob ∈ Review.dislikes reacted →
        bob ∈ Review.likes r' ∧ bob ∉ Review.dislikes r')
     ∧ (bob ∈ Review.likes reacted → bob ∉ Review.likes r'))
  ∧ (JStr "like" = JStr "dislike" →
     (bob ∈ Review.likes reacted →
        bob ∈ Review.dislikes r' ∧ bob ∉ Review.likes r')
     ∧ (bob ∈ Review.dislikes reacted → bob ∉ Review.dislikes r')).
Proof.
  assert (Hl : NoDup (Review.likes reacted)).
  { simpl. apply NoDup_singleton. }
  assert (Hd : NoDup (Review.dislikes reacted)).
  { simpl. apply NoDup_singleton. }
  assert (Hdisj : Review.likes reacted ## Review.dislikes reacted).
  { simpl. intros x Hx Hy.
    apply list_elem_of_singleton in Hx. apply list_elem_of_singleton in Hy.
    subst. discriminate. }
  apply (C6_toggle_keeps_reactions_exclusive 3%nat reacted bob (JStr "like")
           (with_review reacted)
           (toggleReaction 3%nat reacted bob (JStr "like")
              (with_review reacted)).2
           (Ok (toggle reacted bob (JStr "like"))) Hl Hd Hdisj).
  vm_compute. reflexivity.
Defined.

Lemma C8_totalDislikes_sums_likes_witness :
  ∃ stats : gmap string jsval,
    get_user_stats JNull (stats_req 13) (with_review applauded)
    = (mkResponse 200 (Stats stats), with_review applauded)
    ∧ stats !! "totalDislikes" = Some (jnum 2)
    ∧ stats !! "totalLikes" = Some (jnum 2)
    ∧ Review.dislikes applauded = [].
Proof.
  destruct (C8_totalDislikes_sums_likes JNull (stats_req 13)
              (with_review applauded) carol
              (User.mk "carol" 0 1 (JS.of_Z 3)))
    as (stats & Hrun & Hdislikes & Hsame); [reflexivity | reflexivity |].
  exists stats. split; [exact Hrun|].
  rewrite <- Hsame, Hdislikes. repeat split; vm_compute; reflexivity.
Defined.

Lemma C9_stats_report_cached_aggregates_witness :
  ∃ stats : gmap string jsval,
    get_user_stats JNull (stats_req 13) s1 = (mkResponse 200 (Stats stats), s1)
    ∧ stats !! "totalReviews" = Some (JNum (JS.of_Z 0))
    ∧ stats !! "averageRating" = Some (JNum (JS.of_Z 0)).
Proof.
  apply (C9_stats_report_cached_aggregates JNull (stats_req 13) s1 carol
           (User.mk "carol" 0 0 (JS.of_Z 0))); vm_compute; reflexivity.
Defined.

Lemma C10_update_touches_only_editable_fields_witness :
  ∃ r' : Review.t,
    reviews (put_review crowded_req s1).2 !! 3%nat = Some r'
    ∧ Review.user r' = carol
    ∧ Review.movie r' = M1
    ∧ Review.likes r' = []
    ∧ Review.dislikes r' = []
    ∧ Review.helpful r' = 0.
Proof.
  apply (C10_update_touches_only_editable_fields crowded_req s1 3%nat
           (review carol 3)); vm_compute; reflexivity.
Defined.

(** The first review of a movie is refused: the hook divides 0 by 0 and
    the movie document, with [NaN] as its average, does not validate. *)
Example first_review_refused :
  rounded_average (reviews_of_movie e0 M1) = JS.NaN
  ∧ post_review (create_req carol 3) e0 = (ServerError, e0).
Proof. vm_compute. done. Qed.

(** The statistics carol is shown in [s1] are the cached 0 and 0, although
    one review by her is stored. *)
Example stats_ignore_stored_review :
  length (reviews_by_user s1 carol) = 1%nat
  ∧ stats_object (group_stage (reviews_by_user s1 carol)) JNull
      (User.mk "carol" 0 0 (JS.of_Z 0)) !! "totalReviews"
    = Some (JNum (JS.of_Z 0)).
Proof. vm_compute. done. Qed.

End OnTheScenario.

(** * Further properties of the code *)

(** ** The rounded average *)

Lemma totalRating_shift (l : list Review.t) (a : Z) :
  foldl (λ sum review, sum + Review.rating review) a l = a + totalRating l.
Proof.
  unfold totalRating. revert a. induction l as [|r l IH]; intros a; simpl.
  - lia.
  - rewrite IH, (IH (0 + Review.rating r)). lia.
Qed.

Lemma totalRating_cons (r : Review.t) (l : list Review.t) :
  totalRating (r :: l) = Review.rating r + totalRating l.
Proof. unfold totalRating at 1. simpl. apply totalRating_shift. Qed.

Lemma totalRating_bounds (l : list Review.t) (lo hi : Z) :
  Forall (λ r, lo ≤ Review.rating r ≤ hi) l →
  lo * Z.of_nat (length l) ≤ totalRating l ≤ hi * Z.of_nat (length l).
Proof.
  induction 1 as [|r l Hr _ IH].
  - unfold totalRating. simpl. lia.
  - rewrite totalRating_cons. simpl length. lia.
Qed.

Lemma round_times_ten (total n : Z) :
  0 < n →
  JS.Math_round (JS.mul (JS.div (JS.of_Z total) (JS.of_Z n)) (JS.of_Z 10))
  = JS.of_Z (tenths total n).
Proof.
  intros Hn. unfold JS.div, JS.mul, JS.of_Z, JS.Qzero. simpl Qnum.
  destruct (Z.eqb_spec n 0) as [->|_]; [lia|].
  unfold JS.Math_round, JS.of_Z. do 2 f_equal.
  assert (Heq : (Qred (Qred (inject_Z total / inject_Z n) * inject_Z 10) + (1 # 2)
                 == (20 * total + n) # Z.to_pos (2 * n))%Q).
  { rewrite !Qred_correct.
    destruct n as [|p|p]; try lia.
    rewrite <- Qmake_Qdiv. unfold Qeq, Qplus, Qmult, inject_Z. simpl. lia. }
  rewrite (Qfloor_comp _ _ Heq). unfold Qfloor, tenths.
  rewrite Z2Pos.id by lia. done.
Qed.

Lemma rounded_average_tenths (l : list Review.t) :
  l ≠ [] →
  rounded_average l
  = JS.div (JS.of_Z (tenths (totalRating l) (Z.of_nat (length l)))) (JS.of_Z 10).
Proof.
  intros Hl. unfold rounded_average. rewrite round_times_ten; [done|].
  destruct l; [done | simpl; lia].
Qed.

(** X1: for a non-empty list of reviews the hook's average is [k / 10] for
    the integer [k] nearest to ten times the mean, ties rounded up; with
    ratings within 1..5 that [k] lies within 10..50. *)
Theorem rounded_average_half_up (l : list Review.t) :
  l ≠ [] →
  Forall (λ r, 1 ≤ Review.rating r ≤ 5) l →
  ∃ k : Z,
    rounded_average l = JS.div (JS.of_Z k) (JS.of_Z 10)
    ∧ 10 ≤ k ≤ 50
    ∧ 2 * k * Z.of_nat (length l) ≤ 20 * totalRating l + Z.of_nat (length l)
    ∧ 20 * totalRating l + Z.of_nat (length l)
      < 2 * (k + 1) * Z.of_nat (length l).
Proof.
  intros Hl Hr. exists (tenths (totalRating l) (Z.of_nat (length l))).
  split; [by apply rounded_average_tenths|].
  pose proof (totalRating_bounds l 1 5 Hr) as Hb.
  assert (Hn : 0 < Z.of_nat (length l)) by (destruct l; [done | simpl; lia]).
  set (n := Z.of_nat (length l)) in *. set (t := totalRating l) in *.
  unfold tenths.
  pose proof (Z.div_mod (20 * t + n) (2 * n) ltac:(lia)) as Hdm.
  pose proof (Z.mod_pos_bound (20 * t + n) (2 * n) ltac:(lia)) as Hmod.
  set (k := (20 * t + n) / (2 * n)) in *.
  assert (10 ≤ k ≤ 50) by nia.
  repeat split; nia.
Qed.

(** The save hook of a review whose movie exists but has no stored
    review fails with a ValidationError and writes nothing. *)
Lemma pre_save_first_review_fails (this : Review.t) (s : Store) :
  is_Some (movies s !! Review.movie this) →
  reviews_of_movie s (Review.movie this) = [] →
  pre_save this s = (Err ValidationError, s).
Proof.
  intros [movie Hm] Hnone.
  unfold pre_save, Movie_findById, Review_find_movie, Movie_save.
  run. rewrite Hm. run. rewrite Hnone. reflexivity.
Qed.

Lemma Review_findOne_None (u m : ObjectId) (s : Store) :
  (∀ id r, reviews s !! id = Some r →
           ¬ (Review.user r = u ∧ Review.movie r = m)) →
  Review_findOne u m s = (Ok None, s).
Proof.
  intros Hnone. unfold Review_findOne. run.
  destruct (filter _ _) as [|r l] eqn:Hf; [done|].
  assert (Hin : r ∈ filter (λ r, Review.user r = u ∧ Review.movie r = m)
                      (all_reviews s).*2) by (rewrite Hf; left).
  apply list_elem_of_filter in Hin as [HP Hin].
  apply list_elem_of_fmap in Hin as ([id r'] & -> & Hin).
  apply elem_of_map_to_list in Hin. by destruct (Hnone id r').
Qed.

Section MoreRouteProperties.
Context `{SchemaCast}.

(** X2: a validated request to review an existing movie that has no stored
    review yet is always answered with 500 "Server error", and nothing is
    written. *)
Theorem post_review_first_review_refused (req : Request) (s : Store)
    (v : jsval) (m : ObjectId) :
  validation_errors req = [] →
  body req !! "movieId" = Some v →
  castObjectId v = Some m →
  is_Some (movies s !! m) →
  reviews_of_movie s m = [] →
  post_review req s = (ServerError, s).
Proof.
  intros Hval Hbody Hcast Hmovie Hnone.
  assert (Hfind : Review_findOne (req_user req) m s = (Ok None, s)).
  { apply Review_findOne_None. intros id r Hr [_ Hm].
    assert (Hin : r ∈ reviews_of_movie s m).
    { apply list_elem_of_filter. split; [done|].
      apply (list_elem_of_fmap_2' snd _ (id, r)); [|done].
      by apply elem_of_map_to_list. }
    rewrite Hnone in Hin. by apply elem_of_nil in Hin. }
  destruct Hmovie as [movie Hmovie].
  unfold post_review, try_catch, query_id, Movie_findById.
  rewrite Hval, Hbody. run. rewrite Hcast. run. rewrite Hmovie.
  rewrite run_bind, Hfind. run.
  destruct (Review_new _ _ _ _ _) as [review|] eqn:Hnew; [|done].
  assert (Hm : Review.movie review = m).
  { unfold Review_new in Hnew.
    destruct (body req !! "rating" ≫= castNumber); [|done].
    destruct (body req !! "reviewText" ≫= castString); [|done].
    destruct (castBoolean _); [|done].
    by injection Hnew as <-. }
  run. unfold Review_save. rewrite !run_bind.
  destruct (Review_validate review); run; [|done].
  rewrite pre_save_first_review_fails; [done | |]; rewrite Hm; eauto.
Qed.

(** What the save hook does, case by case. *)
Lemma pre_save_run (this : Review.t) (s : Store) :
  pre_save this s =
    let users' :=
      match users s !! Review.user this with
      | Some user =>
          <[Review.user this :=
              user_recomputed user (reviews_by_user s (Review.user this))]>
            (users s)
      | None => users s
      end in
    match movies s !! Review.movie this with
    | Some movie =>
        let movie' :=
          movie_recomputed movie (reviews_of_movie s (Review.movie this)) in
        if Movie_validate movie' then
          (Ok tt, mkStore (<[Review.movie this := movie']> (movies s)) users'
                          (reviews s))
        else (Err ValidationError, s)
    | None => (Ok tt, mkStore (movies s) users' (reviews s))
    end.
Proof.
  unfold pre_save, Movie_findById, User_findById, Review_find_movie,
    Review_find_user, Movie_save, User_save.
  run. destruct (movies s !! Review.movie this) as [movie|]; run.
  - fold (movie_recomputed movie (reviews_of_movie s (Review.movie this))).
    destruct (Movie_validate _); run; [|done].
    destruct (users s !! Review.user this); run; done.
  - destruct (users s !! Review.user this); run; [done|]. by destruct s.
Qed.

Lemma Review_new_fields (u m : ObjectId) (rating reviewText : option jsval)
    (spoiler : jsval) (review : Review.t) :
  Review_new u m rating reviewText spoiler = Some review →
  Review.user review = u ∧ Review.movie review = m
  ∧ Review.likes review = [] ∧ Review.dislikes review = []
  ∧ Review.helpful review = 0.
Proof.
  unfold Review_new.
  destruct (rating ≫= castNumber); [|done].
  destruct (reviewText ≫= castString); [|done].
  destruct (castBoolean _); [|done].
  by intros [= <-].
Qed.

(** X3: whenever the create route answers 201, the body named a stored
    movie that already had a stored review; the review of the response
    belongs to the acting user and that movie, has empty likes and
    dislikes and is stored under an id that was not in use; and the movie
    and the user are rewritten from the reviews stored before the
    insert. *)
Theorem created_review_is_stored (req : Request) (s s' : Store)
    (resp : Response) :
  post_review req s = (resp, s') →
  status resp = 201 →
  ∃ (m : ObjectId) (movie : Movie.t) (review : Review.t),
    (body req !! "movieId") ≫= castObjectId = Some m
    ∧ movies s !! m = Some movie
    ∧ reviews_of_movie s m ≠ []
    ∧ resp = mkResponse 201
               (MessageReview "Review submitted successfully" review)
    ∧ Review.user review = req_user req ∧ Review.movie review = m
    ∧ Review.likes review = [] ∧ Review.dislikes review = []
    ∧ reviews s !! new_ObjectId s = None
    ∧ s' = mkStore
             (<[m := movie_recomputed movie (reviews_of_movie s m)]> (movies s))
             (match users s !! req_user req with
              | Some user =>
                  <[req_user req :=
                      user_recomputed user
                        (reviews_by_user s (req_user req))]> (users s)
              | None => users s
              end)
             (<[new_ObjectId s := review]> (reviews s)).
Proof.
  unfold post_review, try_catch, query_id, Movie_findById, Review_findOne.
  destruct (negb (bool_decide (validation_errors req = [])));
    [by intros [= <- _]|].
  run. destruct (body req !! "movieId") as [v|]; run; [|by intros [= <- _]].
  destruct (castObjectId v) as [m|] eqn:Hv; run; [|by intros [= <- _]].
  destruct (movies s !! m) as [movie|] eqn:Hmovie; run; [|by intros [= <- _]].
  destruct (bool_decide (is_Some _)); run; [by intros [= <- _]|].
  destruct (Review_new _ _ _ _ _) as [review|] eqn:Hnew; run;
    [|by intros [= <- _]].
  apply Review_new_fields in Hnew as (Hu & Hm & Hl & Hd & _).
  destruct (Review_save (new_ObjectId s) review s) as [[[]|e] s2] eqn:Hsave;
    [|by intros [= <- _]].
  intros [= <- <-] _.
  apply Review_save_Ok in Hsave as (s1 & Hpre & ->).
  assert (Hne : reviews_of_movie s m ≠ []).
  { intros Hnil.
    rewrite (pre_save_first_review_fails review s) in Hpre; [done | |];
      rewrite Hm; eauto. }
  apply pre_save_Ok in Hpre as (Hrev & Hmovies & Husers).
  rewrite Hm, Hmovie in Hmovies. rewrite Hu in Husers.
  exists m, movie, review. split; [done|].
  simpl. rewrite Hrev, Hmovies, Husers.
  repeat split; try done.
  unfold new_ObjectId. apply (not_elem_of_dom_1 (reviews s)), is_fresh.
Qed.

End MoreRouteProperties.

(** ** What the review routes write *)

Section RouteEffects.
Context `{SchemaCast}.

(** Every route either leaves the store alone or ends in one [save] or
    [remove] of a review. *)
Lemma post_review_effect (req : Request) (s : Store) :
  (post_review req s).2 = s
  ∨ ∃ id this res, Review_save id this s = (res, (post_review req s).2)
                   ∧ Review.user this = req_user req
                   ∧ Review.likes this = [] ∧ Review.dislikes this = [].
Proof.
  unfold post_review, try_catch, query_id, Movie_findById, Review_findOne.
  destruct (negb (bool_decide (validation_errors req = []))); [by left|].
  run. destruct (body req !! "movieId") as [v|]; run; [|by left].
  destruct (castObjectId v) as [m|]; run; [|by left].
  destruct (movies s !! m); run; [|by left].
  destruct (bool_decide (is_Some _)); run; [by left|].
  destruct (Review_new _ _ _ _ _) as [review|] eqn:Hnew; run; [|by left].
  apply Review_new_fields in Hnew as (Hu & _ & Hl & Hd & _).
  right. exists (new_ObjectId s), review.
  destruct (Review_save (new_ObjectId s) review s) as [[[]|e] s']; eauto.
Qed.

Lemma put_review_effect (req : Request) (s : Store) :
  (put_review req s).2 = s
  ∨ ∃ id r this res,
      Review_save id this s = (res, (put_review req s).2)
      ∧ castObjectId (params_reviewId req) = Some id
      ∧ reviews s !! id = Some r ∧ same_frame r this.
Proof.
  unfold put_review, try_catch, query_id, Review_findById.
  destruct (negb (bool_decide (validation_errors req = []))); [by left|].
  run. destruct (castObjectId (params_reviewId req)) as [id|] eqn:Hid; run;
    [|by left].
  destruct (reviews s !! id) as [r|] eqn:Hr; [|by left].
  destruct (negb (bool_decide (Review.user r = req_user req))); [by left|].
  fold (updateFields_of req).
  destruct (Object_assign r (updateFields_of req)) as [this|] eqn:Ha;
    [|by left].
  apply Object_assign_frame in Ha; [|apply updateFields_editable].
  run. right. exists id, r, this.
  destruct (Review_save id this s) as [[[]|e] s']; eauto.
Qed.

Lemma post_reaction_effect (req : Request) (s : Store) :
  (post_reaction req s).2 = s
  ∨ ∃ id r res,
      Review_save id
        (toggle r (req_user req) (default JNull (body req !! "reactionType"))) s
      = (res, (post_reaction req s).2)
      ∧ castObjectId (params_reviewId req) = Some id
      ∧ reviews s !! id = Some r ∧ Review.user r ≠ req_user req.
Proof.
  unfold post_reaction, try_catch, query_id, Review_findById.
  destruct (negb (bool_decide (validation_errors req = []))); [by left|].
  run. destruct (castObjectId (params_reviewId req)) as [id|] eqn:Hid; run;
    [|by left].
  destruct (reviews s !! id) as [r|] eqn:Hr; [|by left].
  destruct (bool_decide_reflect (Review.user r = req_user req)) as [|Hne];
    [by left|].
  unfold toggleReaction. run. right. exists id, r.
  destruct (Review_save id _ s) as [[[]|err] s']; eauto.
Qed.

Lemma delete_review_effect (req : Request) (s : Store) :
  (delete_review req s).2 = s
  ∨ ∃ id this res,
      Review_remove id this s = (res, (delete_review req s).2)
      ∧ castObjectId (params_reviewId req) = Some id
      ∧ reviews s !! id = Some this ∧ Review.user this = req_user req.
Proof.
  unfold delete_review, try_catch, query_id, Review_findById.
  run. destruct (castObjectId (params_reviewId req)) as [id|] eqn:Hid; run;
    [|by left].
  destruct (reviews s !! id) as [r|] eqn:Hr; [|by left].
  destruct (bool_decide_reflect (Review.user r = req_user req)) as [Hown|];
    [|by left].
  simpl. run. right. exists id, r.
  destruct (Review_remove id r s) as [[[]|err] s']; eauto.
Qed.

End RouteEffects.

(** [remove] deletes the document after the hook, or fails in the hook
    and leaves the store alone. *)
Lemma pre_remove_run (this : Review.t) (s : Store) :
  pre_remove this s =
    let users' :=
      match users s !! Review.user this with
      | Some user =>
          <[Review.user this :=
              user_recomputed user (reviews_by_user s (Review.user this))]>
            (users s)
      | None => users s
      end in
    match movies s !! Review.movie this with
    | Some movie =>
        let l := reviews_of_movie s (Review.movie this) in
        let movie' :=
          if 0 <? Z.of_nat (length l) then movie_recomputed movie l
          else Movie.mk (Movie.title movie) (JS.of_Z 0) 0 0 in
        if Movie_validate movie' then
          (Ok tt, mkStore (<[Review.movie this := movie']> (movies s)) users'
                          (reviews s))
        else (Err ValidationError, s)
    | None => (Ok tt, mkStore (movies s) users' (reviews s))
    end.
Proof.
  unfold pre_remove, Movie_findById, User_findById, Review_find_movie,
    Review_find_user, Movie_save, User_save.
  run. destruct (movies s !! Review.movie this) as [movie|]; run.
  - fold (movie_recomputed movie (reviews_of_movie s (Review.movie this))).
    destruct (Movie_validate _); run; [|done].
    destruct (users s !! Review.user this); run; done.
  - destruct (users s !! Review.user this); run; [done|]. by destruct s.
Qed.

Lemma Review_remove_reviews (id : ObjectId) (this : Review.t) (s s' : Store)
    (res : result unit) :
  Review_remove id this s = (res, s') →
  (res = Ok tt ∧ reviews s' = delete id (reviews s))
  ∨ ((∃ e, res = Err e) ∧ s' = s).
Proof.
  unfold Review_remove. rewrite run_bind, pre_remove_run. simpl.
  destruct (movies s !! Review.movie this) as [movie|].
  - destruct (Movie_validate _); run.
    + intros [= <- <-]. by left.
    + intros [= <- <-]. right. eauto.
  - run. intros [= <- <-]. by left.
Qed.

Lemma unique_reviews_ext (s s1 : Store) :
  reviews s1 = reviews s → unique_reviews s → unique_reviews s1.
Proof. unfold unique_reviews. by intros ->. Qed.

Lemma Review_write_unique (id : ObjectId) (this : Review.t) (s s' : Store)
    (res : result unit) :
  Review_write id this s = (res, s') → unique_reviews s → unique_reviews s'.
Proof.
  unfold Review_write. run.
  destruct (violates_unique_index id this s) eqn:Hv; run.
  - by intros [= _ <-].
  - intros [= _ <-] Huniq. unfold unique_reviews. simpl.
    apply bool_decide_eq_false_1 in Hv.
    assert (Hno : ∀ k r, reviews s !! k = Some r → k ≠ id →
              Review.user r = Review.user this →
              Review.movie r = Review.movie this → False).
    { intros k r Hk Hne Hu Hm. apply Hv. apply Exists_exists.
      exists (k, r). split; [|done]. by apply elem_of_map_to_list. }
    intros i j ri rj Hi Hj Hu Hm.
    destruct (decide (i = id)) as [->|Hi']; destruct (decide (j = id)) as [->|Hj'];
      [done | | |].
    + rewrite lookup_insert_eq in Hi. rewrite lookup_insert_ne in Hj by done.
      injection Hi as <-. exfalso. by eapply (Hno j rj).
    + rewrite lookup_insert_eq in Hj. rewrite lookup_insert_ne in Hi by done.
      injection Hj as <-. exfalso. by eapply (Hno i ri).
    + rewrite lookup_insert_ne in Hi, Hj by done. by eapply Huniq.
Qed.

(** The unique index at work: [save] never stores a second review of one
    movie by one user. *)
Lemma Review_save_unique (id : ObjectId) (this : Review.t) (s s' : Store)
    (res : result unit) :
  Review_save id this s = (res, s') → unique_reviews s → unique_reviews s'.
Proof.
  unfold Review_save. rewrite !run_bind.
  destruct (Review_validate this); run; [|by intros [= _ <-]].
  destruct (pre_save this s) as [[[]|e] s1] eqn:Hpre.
  - apply pre_save_Ok in Hpre as (Hrev & _ & _).
    destruct (Review_write id this s1) as [res1 s2] eqn:Hw.
    intros Hrun Huniq.
    assert (s' = s2) as -> by (destruct res1; by injection Hrun).
    eapply Review_write_unique; [done|]. by eapply unique_reviews_ext.
  - apply pre_save_Err in Hpre as ->. by intros [= _ <-].
Qed.

Lemma Review_remove_unique (id : ObjectId) (this : Review.t) (s s' : Store)
    (res : result unit) :
  Review_remove id this s = (res, s') → unique_reviews s → unique_reviews s'.
Proof.
  intros Hrun Huniq.
  apply Review_remove_reviews in Hrun as [[_ Hrev] | [_ ->]]; [|done].
  unfold unique_reviews. rewrite Hrev. intros i j ri rj Hi Hj.
  apply lookup_delete_Some in Hi as [_ Hi].
  apply lookup_delete_Some in Hj as [_ Hj]. by eapply Huniq.
Qed.

(** X4: the four review routes keep the invariant that a user has at most
    one stored review per movie. *)
Theorem review_routes_keep_reviews_unique `{SchemaCast} (req : Request)
    (s : Store) :
  unique_reviews s →
  unique_reviews (post_review req s).2
  ∧ unique_reviews (put_review req s).2
  ∧ unique_reviews (post_reaction req s).2
  ∧ unique_reviews (delete_review req s).2.
Proof.
  intros Huniq. repeat split.
  - destruct (post_review_effect req s) as [-> | (id & this & res & Hs & _)];
      [done | by eapply Review_save_unique].
  - destruct (put_review_effect req s) as [-> | (id & r & this & res & Hs & _)];
      [done | by eapply Review_save_unique].
  - destruct (post_reaction_effect req s) as [-> | (id & r & res & Hs & _)];
      [done | by eapply Review_save_unique].
  - destruct (delete_review_effect req s) as [-> | (id & this & res & Hs & _)];
      [done | by eapply Review_remove_unique].
Qed.

(** ** Documents a write leaves alone *)

Lemma agree_outside_refl (id m u : ObjectId) (s : Store) :
  agree_outside id m u s s.
Proof. by repeat split. Qed.

Lemma hook_agree_outside (id m u : ObjectId) (s : Store)
    (mv : gmap nat Movie.t) (us : gmap nat User.t) (rs : gmap nat Review.t) :
  (mv = movies s ∨ ∃ movie', is_Some (movies s !! m)
                             ∧ mv = <[m := movie']> (movies s)) →
  (us = users s ∨ ∃ user', is_Some (users s !! u)
                            ∧ us = <[u := user']> (users s)) →
  (rs = reviews s ∨ rs = delete id (reviews s)
   ∨ ∃ r, rs = <[id := r]> (reviews s)) →
  agree_outside id m u s (mkStore mv us rs).
Proof.
  intros Hm Hu Hr. unfold agree_outside. simpl. repeat split.
  - intros id' Hne. destruct Hr as [-> | [-> | [r ->]]]; [done | |].
    + by rewrite lookup_delete_ne.
    + by rewrite lookup_insert_ne.
  - intros m' Hne. destruct Hm as [-> | (movie' & _ & ->)]; [done|].
    by rewrite lookup_insert_ne.
  - intros u' Hne. destruct Hu as [-> | (user' & _ & ->)]; [done|].
    by rewrite lookup_insert_ne.
  - destruct Hm as [-> | (movie' & Hs & ->)]; [done|].
    rewrite dom_insert_L. apply elem_of_dom in Hs.
    apply subseteq_union_1_L. by apply singleton_subseteq_l.
  - destruct Hu as [-> | (user' & Hs & ->)]; [done|].
    rewrite dom_insert_L. apply elem_of_dom in Hs.
    apply subseteq_union_1_L. by apply singleton_subseteq_l.
Qed.

Lemma Review_save_agree (id : ObjectId) (this : Review.t) (s s' : Store)
    (res : result unit) :
  Review_save id this s = (res, s') →
  agree_outside id (Review.movie this) (Review.user this) s s'.
Proof.
  unfold Review_save. rewrite !run_bind.
  destruct (Review_validate this); run;
    [|intros [= _ <-]; apply agree_outside_refl].
  rewrite pre_save_run. simpl. unfold Review_write.
  destruct (movies s !! Review.movie this) as [movie|] eqn:Hm;
    [destruct (Movie_validate _);
       [|intros [= _ <-]; apply agree_outside_refl]|];
    run;
    destruct (violates_unique_index _ _ _); run; intros [= _ <-];
    apply hook_agree_outside; eauto;
    destruct (users s !! Review.user this) eqn:Hu; eauto 6.
Qed.

Lemma Review_remove_agree (id : ObjectId) (this : Review.t) (s s' : Store)
    (res : result unit) :
  Review_remove id this s = (res, s') →
  agree_outside id (Review.movie this) (Review.user this) s s'.
Proof.
  unfold Review_remove. rewrite run_bind, pre_remove_run. simpl.
  destruct (movies s !! Review.movie this) as [movie|] eqn:Hm;
    [destruct (Movie_validate _);
       [|intros [= _ <-]; apply agree_outside_refl]|];
    run; intros [= _ <-];
    apply hook_agree_outside; eauto;
    destruct (users s !! Review.user this) eqn:Hu; eauto 6.
Qed.

(** X5: an update, a reaction or a deletion addressed to a stored review
    changes at most that review, its movie and its author; every other
    document is left as it was, and no movie or user is added or
    removed. *)
Theorem review_routes_touch_only_their_documents `{SchemaCast} (req : Request)
    (s : Store) (id : ObjectId) (r : Review.t) :
  castObjectId (params_reviewId req) = Some id →
  reviews s !! id = Some r →
  agree_outside id (Review.movie r) (Review.user r) s (put_review req s).2
  ∧ agree_outside id (Review.movie r) (Review.user r) s (post_reaction req s).2
  ∧ agree_outside id (Review.movie r) (Review.user r) s (delete_review req s).2.
Proof.
  intros Hid Hr. split; [|split].
  - destruct (put_review_effect req s)
      as [-> | (id' & r' & this & res & Hs & Hid' & Hr' & Hf)];
      [apply agree_outside_refl|].
    rewrite Hid in Hid'. injection Hid' as <-.
    rewrite Hr in Hr'. injection Hr' as <-.
    destruct Hf as (Hu & Hm & _). rewrite <- Hu, <- Hm.
    by eapply Review_save_agree.
  - destruct (post_reaction_effect req s)
      as [-> | (id' & r' & res & Hs & Hid' & Hr' & _)];
      [apply agree_outside_refl|].
    rewrite Hid in Hid'. injection Hid' as <-.
    rewrite Hr in Hr'. injection Hr' as <-.
    apply Review_save_agree in Hs.
    assert (Review.user (toggle r (req_user req)
                           (default JNull (body req !! "reactionType")))
            = Review.user r
            ∧ Review.movie (toggle r (req_user req)
                              (default JNull (body req !! "reactionType")))
              = Review.movie r) as [Hu Hm].
    { unfold toggle. by repeat case_match. }
    by rewrite Hu, Hm in Hs.
  - destruct (delete_review_effect req s)
      as [-> | (id' & r' & res & Hs & Hid' & Hr' & _)];
      [apply agree_outside_refl|].
    rewrite Hid in Hid'. injection Hid' as <-.
    rewrite Hr in Hr'. injection Hr' as <-.
    by eapply Review_remove_agree.
Qed.

(** ** Refusals of the review routes *)

Section Refusals.
Context `{SchemaCast}.

(** X6: a user who is not the author of a stored review can neither update
    nor delete it: both routes answer 403 and leave the store alone. *)
Theorem only_the_author_may_change_a_review (req : Request) (s : Store)
    (id : ObjectId) (r : Review.t) :
  castObjectId (params_reviewId req) = Some id →
  reviews s !! id = Some r →
  Review.user r ≠ req_user req →
  delete_review req s = (NotAuthorized "delete", s)
  ∧ (validation_errors req = [] →
     put_review req s = (NotAuthorized "update", s)).
Proof.
  intros Hid Hr Hne. split.
  - unfold delete_review, try_catch, query_id, Review_findById.
    rewrite Hid. run. rewrite Hr.
    by rewrite bool_decide_eq_false_2.
  - intros Hval. rewrite (put_review_run req s id r) by done.
    rewrite Hval. simpl. by rewrite bool_decide_eq_false_2.
Qed.

(** X7: a review id that names no stored review is answered with 404 by
    the update, delete and reaction routes, and one the ObjectId cast
    refuses with 400 "Invalid review ID"; the store is left alone. *)
Theorem unknown_review_is_reported (req : Request) (s : Store) :
  validation_errors req = [] →
  (castObjectId (params_reviewId req) = None →
     put_review req s = (InvalidId "review", s)
     ∧ delete_review req s = (InvalidId "review", s)
     ∧ post_reaction req s = (InvalidId "review", s))
  ∧ (∀ id : ObjectId,
       castObjectId (params_reviewId req) = Some id →
       reviews s !! id = None →
       put_review req s = (NotFound "Review", s)
       ∧ delete_review req s = (NotFound "Review", s)
       ∧ post_reaction req s = (NotFound "Review", s)).
Proof.
  intros Hval. split.
  - intros Hid.
    unfold put_review, delete_review, post_reaction, try_catch, query_id.
    rewrite Hval, Hid. done.
  - intros id Hid Hr.
    unfold put_review, delete_review, post_reaction, try_catch, query_id,
      Review_findById.
    rewrite Hval, Hid. run. rewrite Hr. done.
Qed.

(** Deleting a stored review takes one review away from its movie. *)
Lemma reviews_of_movie_delete (s s' : Store) (id : ObjectId) (r : Review.t) :
  reviews s !! id = Some r →
  reviews s' = delete id (reviews s) →
  length (reviews_of_movie s (Review.movie r))
  = S (length (reviews_of_movie s' (Review.movie r))).
Proof.
  intros Hr Hs'.
  pose proof (reviews_of_movie_insert_new s' (movies s) (users s) id r) as Hlen.
  rewrite Hs' in Hlen. specialize (Hlen (lookup_delete_eq _ _)).
  rewrite insert_delete_id in Hlen by done.
  rewrite <- Hlen. unfold reviews_of_movie, all_reviews. done.
Qed.

(** When [remove] succeeds the document is gone and its movie, where it
    exists, has been rewritten by the hook. *)
Lemma Review_remove_Ok (id : ObjectId) (this : Review.t) (s s' : Store) :
  Review_remove id this s = (Ok tt, s') →
  reviews s' = delete id (reviews s)
  ∧ ∀ movie : Movie.t, movies s !! Review.movie this = Some movie →
      movies s' !! Review.movie this
      = Some (let l := reviews_of_movie s (Review.movie this) in
              if 0 <? Z.of_nat (length l) then movie_recomputed movie l
              else Movie.mk (Movie.title movie) (JS.of_Z 0) 0 0).
Proof.
  unfold Review_remove. rewrite run_bind, pre_remove_run. simpl.
  destruct (movies s !! Review.movie this) as [movie|].
  - destruct (Movie_validate _); run; [|done].
    intros [= <-]. simpl. split; [done|].
    intros movie0 [= <-]. by rewrite lookup_insert_eq.
  - run. intros [= <-]. simpl. split; [done|]. by intros movie0.
Qed.

(** X8: whenever the delete route answers 200, the review the request
    names was stored and written by the acting user; it is removed, and its
    movie, when it exists, is left with the aggregates of the reviews
    stored before the deletion: its counters are one more than the reviews
    of the movie that remain. *)
Theorem deleted_review_is_still_counted (req : Request) (s s' : Store)
    (resp : Response) :
  delete_review req s = (resp, s') →
  status resp = 200 →
  ∃ (id : ObjectId) (r : Review.t),
    castObjectId (params_reviewId req) = Some id
    ∧ reviews s !! id = Some r
    ∧ Review.user r = req_user req
    ∧ resp = mkResponse 200 (Message "Review deleted successfully")
    ∧ reviews s' = delete id (reviews s)
    ∧ (∀ movie : Movie.t, movies s !! Review.movie r = Some movie →
       ∃ movie' : Movie.t,
         movies s' !! Review.movie r = Some movie'
         ∧ Movie.totalReviews movie'
           = 1 + Z.of_nat (length (reviews_of_movie s' (Review.movie r)))
         ∧ Movie.totalRatings movie' = Movie.totalReviews movie').
Proof.
  unfold delete_review, try_catch, query_id, Review_findById.
  run. destruct (castObjectId (params_reviewId req)) as [id|] eqn:Hid; run;
    [|by intros [= <- _]].
  destruct (reviews s !! id) as [r|] eqn:Hr; [|by intros [= <- _]].
  destruct (bool_decide_reflect (Review.user r = req_user req)) as [Hown|];
    [|by intros [= <- _]].
  simpl. run.
  destruct (Review_remove id r s) as [[[]|err] s1] eqn:Hrem;
    [|intros [= <- _]; by destruct err].
  intros [= <- <-] _.
  apply Review_remove_Ok in Hrem as [Hrev Hmovies].
  exists id, r. repeat split; try done.
  intros movie Hmovie. rewrite (Hmovies movie Hmovie).
  assert (Hin : r ∈ reviews_of_movie s (Review.movie r)).
  { apply list_elem_of_filter. split; [done|].
    apply (list_elem_of_fmap_2' snd _ (id, r)); [|done].
    by apply elem_of_map_to_list. }
  pose proof (reviews_of_movie_delete s s1 id r Hr Hrev) as Hlen.
  cbv zeta. rewrite Hlen.
  replace (0 <? Z.of_nat (S (length (reviews_of_movie s1 (Review.movie r)))))
    with true by (symmetry; apply Z.ltb_lt; lia).
  eexists. split; [done|]. unfold movie_recomputed.
  cbn [Movie.totalReviews Movie.totalRatings]. rewrite Hlen. lia.
Qed.

(** X9: when a review is created and its author then deletes it, the
    review collection is back to what it was, but the movie is left
    counting one review more than are stored. *)
Theorem create_then_delete_restores_reviews (req req' : Request)
    (s s1 s2 : Store) (resp resp' : Response) :
  post_review req s = (resp, s1) →
  status resp = 201 →
  castObjectId (params_reviewId req') = Some (new_ObjectId s) →
  delete_review req' s1 = (resp', s2) →
  status resp' = 200 →
  reviews s2 = reviews s
  ∧ ∃ (m : ObjectId) (movie' : Movie.t),
      (body req !! "movieId") ≫= castObjectId = Some m
      ∧ movies s2 !! m = Some movie'
      ∧ Movie.totalReviews movie'
        = 1 + Z.of_nat (length (reviews_of_movie s2 m)).
Proof.
  intros Hcreate H201 Hid Hdelete H200.
  assert (Hbody : ∃ m, (body req !! "movieId") ≫= castObjectId = Some m
                       ∧ ∀ review, reviews s1 !! new_ObjectId s = Some review →
                                   Review.movie review = m).
  { revert Hcreate.
    unfold post_review, try_catch, query_id, Movie_findById, Review_findOne.
    destruct (negb (bool_decide (validation_errors req = [])));
      [intros [= <- _]; done|].
    run. destruct (body req !! "movieId") as [v|]; run;
      [|intros [= <- _]; done].
    destruct (castObjectId v) as [m|]; run; [|intros [= <- _]; done].
    destruct (movies s !! m); run; [|intros [= <- _]; done].
    destruct (bool_decide (is_Some _)); run; [intros [= <- _]; done|].
    destruct (Review_new _ _ _ _ _) as [review|] eqn:Hnew; run;
      [|intros [= <- _]; done].
    apply Review_new_fields in Hnew as (_ & Hm & _).
    destruct (Review_save (new_ObjectId s) review s) as [[[]|e] s'] eqn:Hsave;
      [|intros [= <- _]; done].
    intros [= _ <-]. exists m. split; [done|].
    apply Review_save_reviews in Hsave as [[_ Hrev] | [[e [=]] _]].
    rewrite Hrev, lookup_insert_eq. by intros review' [= <-]. }
  destruct Hbody as (m0 & Hm0 & Hmovie0).
  destruct (post_review_created req s s1 resp Hcreate H201)
    as (m & movie & review & Hmovie & Hrm & Hru & Hrev1 & Hmovie1 & Hlen1).
  assert (Hnew : reviews s1 !! new_ObjectId s = Some review)
    by (rewrite Hrev1; apply lookup_insert_eq).
  assert (m0 = m) as -> by (rewrite <- Hrm; symmetry; by apply Hmovie0).
  rewrite <- Hrm in Hmovie1.
  destruct (delete_review_deleted req' s1 s2 resp' (new_ObjectId s) review _
              Hdelete H200 Hid Hnew Hmovie1) as (Hrev2 & Hmovie2 & _).
  assert (Hfresh : reviews s !! new_ObjectId s = None).
  { unfold new_ObjectId. apply (not_elem_of_dom_1 (reviews s)), is_fresh. }
  assert (Hback : reviews s2 = reviews s).
  { rewrite Hrev2, Hrev1. by apply delete_insert_id. }
  split; [done|].
  exists m. eexists. split; [done|]. rewrite <- Hrm. split; [done|].
  simpl. rewrite Hrm, Hlen1.
  unfold reviews_of_movie, all_reviews. rewrite Hback. lia.
Qed.

End Refusals.

(** ** More on toggleReaction *)

Lemma indexOf_from_app_absent (l : list ObjectId) (x : ObjectId) (i : Z) :
  x ∉ l → indexOf_from (l ++ [x]) x i = i + Z.of_nat (length l).
Proof.
  revert i. induction l as [|y l IH]; intros i Hx; simpl.
  - rewrite decide_True by done. lia.
  - apply not_elem_of_cons in Hx as [Hne Hx].
    rewrite decide_False by done. rewrite IH by done. lia.
Qed.

Lemma splice1_push_absent (l : list ObjectId) (x : ObjectId) :
  x ∉ l → splice1 (push l x) (indexOf (push l x) x) = l.
Proof.
  intros Hx. unfold indexOf, push. rewrite indexOf_from_app_absent by done.
  rewrite Z.add_0_l, splice1_delete by (rewrite length_app; simpl; lia).
  rewrite delete_take_drop, take_app_length.
  rewrite drop_app_ge by lia.
  replace (S (length l) - length l)%nat with 1%nat by lia.
  simpl. by rewrite app_nil_r.
Qed.

Lemma indexOf_push_found (l : list ObjectId) (x : ObjectId) :
  (-1 <? indexOf (push l x) x) = true.
Proof. apply indexOf_elem_of, elem_of_push. by right. Qed.

Lemma indexOf_absent_false (l : list ObjectId) (x : ObjectId) :
  x ∉ l → (-1 <? indexOf l x) = false.
Proof.
  intros Hx. destruct (-1 <? indexOf l x) eqn:E; [|done].
  apply indexOf_found in E as (k & Hk & _).
  by apply list_elem_of_lookup_2 in Hk.
Qed.

(** X10: a reaction given and taken back leaves the document exactly as it
    was: for a user found in neither array, two "like" toggles, or two
    "dislike" toggles, return the original review. *)
Theorem toggle_twice_is_identity (this : Review.t) (userId : ObjectId) :
  userId ∉ Review.likes this →
  userId ∉ Review.dislikes this →
  toggle (toggle this userId (JStr "like")) userId (JStr "like") = this
  ∧ toggle (toggle this userId (JStr "dislike")) userId (JStr "dislike") = this.
Proof.
  intros Hl Hd. destruct this as [u m rt tx hp sp lk dl]. simpl in Hl, Hd.
  unfold toggle, set_likes, set_dislikes.
  split;
    repeat first
      [ rewrite bool_decide_eq_true_2 by done
      | rewrite (bool_decide_eq_false_2 ("dislike" = "like")) by done
      | rewrite (indexOf_absent_false lk) by done
      | rewrite (indexOf_absent_false dl) by done
      | rewrite indexOf_push_found
      | rewrite splice1_push_absent by done
      | progress cbn [Review.likes Review.dislikes Review.user Review.movie
                      Review.rating Review.reviewText Review.helpful
                      Review.spoiler strict_equals] ];
    done.
Qed.

Lemma elem_of_delete_other (l : list ObjectId) (k : nat) (x y : ObjectId) :
  l !! k = Some x → y ≠ x → y ∈ delete k l ↔ y ∈ l.
Proof.
  intros Hk Hne. rewrite delete_take_drop.
  rewrite <- (take_drop_middle l k x Hk) at 3.
  rewrite !elem_of_app, elem_of_cons. tauto.
Qed.

Lemma elem_of_splice1_other (l : list ObjectId) (x y : ObjectId) :
  y ≠ x → (-1 <? indexOf l x) = true →
  y ∈ splice1 l (indexOf l x) ↔ y ∈ l.
Proof.
  intros Hne Hlt. destruct (indexOf_found l x Hlt) as (k & Hk & ->).
  rewrite splice1_delete by (by eapply lookup_lt_Some).
  by apply (elem_of_delete_other _ _ x).
Qed.

(** X11: whatever the reaction type and whatever the arrays hold, a toggle
    by one user changes no other user's membership in likes or dislikes,
    and none of the review's other fields. *)
Theorem toggle_concerns_only_the_acting_user (this : Review.t)
    (userId : ObjectId) (reactionType : jsval) (y : ObjectId) :
  y ≠ userId →
  (y ∈ Review.likes (toggle this userId reactionType) ↔ y ∈ Review.likes this)
  ∧ (y ∈ Review.dislikes (toggle this userId reactionType)
     ↔ y ∈ Review.dislikes this)
  ∧ Review.user (toggle this userId reactionType) = Review.user this
  ∧ Review.movie (toggle this userId reactionType) = Review.movie this
  ∧ Review.rating (toggle this userId reactionType) = Review.rating this
  ∧ Review.reviewText (toggle this userId reactionType) = Review.reviewText this
  ∧ Review.helpful (toggle this userId reactionType) = Review.helpful this
  ∧ Review.spoiler (toggle this userId reactionType) = Review.spoiler this.
Proof.
  intros Hne. unfold toggle.
  destruct (strict_equals reactionType "like");
    [|destruct (strict_equals reactionType "dislike")];
    destruct (-1 <? indexOf (Review.likes this) userId) eqn:El;
    destruct (-1 <? indexOf (Review.dislikes this) userId) eqn:Ed;
    simpl; repeat split; try done;
    rewrite ?elem_of_push; try (by apply elem_of_splice1_other);
    try tauto; try (intros ?; tauto);
    try (intros Hy; by apply elem_of_splice1_other);
    try (intros Hy; by apply (elem_of_splice1_other _ userId) in Hy).
Qed.

Lemma toggle_well_formed (this : Review.t) (userId : ObjectId)
    (reactionType : jsval) :
  reactions_well_formed this →
  reactions_well_formed (toggle this userId reactionType).
Proof.
  intros (Hl & Hd & Hdisj).
  destruct (toggle_NoDup this userId reactionType Hl Hd) as [Hl' Hd'].
  split; [done|]. split; [done|]. intros y.
  destruct (strict_equals reactionType "like") eqn:E1.
  { apply strict_equals_true in E1 as ->.
    rewrite (toggle_like_likes this userId Hl),
      (toggle_like_dislikes this userId Hd).
    destruct (bool_decide_reflect (userId ∈ Review.likes this));
      intros H1 H2; [apply (Hdisj y); tauto|].
    destruct H1 as [H1 | ->]; [apply (Hdisj y); tauto | tauto]. }
  destruct (strict_equals reactionType "dislike") eqn:E2.
  { apply strict_equals_true in E2 as ->.
    rewrite (toggle_dislike_likes this userId Hl),
      (toggle_dislike_dislikes this userId Hd).
    destruct (bool_decide_reflect (userId ∈ Review.dislikes this));
      intros H1 H2; [apply (Hdisj y); tauto|].
    destruct H2 as [H2 | ->]; [apply (Hdisj y); tauto | tauto]. }
  rewrite toggle_other by done. apply Hdisj.
Qed.

Lemma Review_save_well_formed (id : ObjectId) (this : Review.t) (s s' : Store)
    (res : result unit) :
  Review_save id this s = (res, s') →
  reactions_well_formed this →
  store_reactions_well_formed s → store_reactions_well_formed s'.
Proof.
  intros Hsave Hthis Hs.
  apply Review_save_reviews in Hsave as [[_ Hrev] | [_ Hrev]];
    unfold store_reactions_well_formed; rewrite Hrev; [|done].
  intros id' r. destruct (decide (id' = id)) as [->|Hne].
  - rewrite lookup_insert_eq. by intros [= <-].
  - rewrite lookup_insert_ne by done. apply Hs.
Qed.

(** X12: if the likes and dislikes of every stored review are two disjoint
    sets, they still are after any request to the create, update,
    reaction or delete route. *)
Theorem review_routes_keep_reactions_well_formed `{SchemaCast} (req : Request)
    (s : Store) :
  store_reactions_well_formed s →
  store_reactions_well_formed (post_review req s).2
  ∧ store_reactions_well_formed (put_review req s).2
  ∧ store_reactions_well_formed (post_reaction req s).2
  ∧ store_reactions_well_formed (delete_review req s).2.
Proof.
  intros Hs. split; [|split; [|split]].
  - destruct (post_review_effect req s)
      as [-> | (id & this & res & Hsave & _ & Hl & Hd)]; [done|].
    eapply Review_save_well_formed; [done | | done].
    unfold reactions_well_formed. rewrite Hl, Hd.
    split; [apply NoDup_nil_2|]. split; [apply NoDup_nil_2|].
    intros y Hy. by apply elem_of_nil in Hy.
  - destruct (put_review_effect req s)
      as [-> | (id & r & this & res & Hsave & _ & Hr & Hf)]; [done|].
    eapply Review_save_well_formed; [done | | done].
    destruct Hf as (_ & _ & Hl & Hd & _).
    unfold reactions_well_formed. rewrite Hl, Hd. by eapply Hs.
  - destruct (post_reaction_effect req s)
      as [-> | (id & r & res & Hsave & _ & Hr & _)]; [done|].
    eapply Review_save_well_formed; [done | | done].
    apply toggle_well_formed. by eapply Hs.
  - destruct (delete_review_effect req s)
      as [-> | (id & this & res & Hrem & _)]; [done|].
    apply Review_remove_reviews in Hrem as [[_ Hrev] | [_ ->]]; [|done].
    unfold store_reactions_well_formed. rewrite Hrev. intros id' r Hr.
    apply lookup_delete_Some in Hr as [_ Hr]. by eapply Hs.
Qed.

(** X13: whenever the reaction route answers 200, the review the request
    names was stored and written by another user; the response carries
    that review with its arrays toggled for the acting user, which is what
    is stored under the same id; and its movie, when it exists, is
    rewritten from the stored reviews. *)
Theorem accepted_reaction_is_stored `{SchemaCast} (req : Request)
    (s s' : Store) (resp : Response) :
  post_reaction req s = (resp, s') →
  status resp = 200 →
  ∃ (id : ObjectId) (r : Review.t),
    castObjectId (params_reviewId req) = Some id
    ∧ reviews s !! id = Some r
    ∧ Review.user r ≠ req_user req
    ∧ let r' := toggle r (req_user req)
                  (default JNull (body req !! "reactionType")) in
      resp = mkResponse 200 (MessageReview "Reaction updated successfully" r')
      ∧ reviews s' = <[id := r']> (reviews s)
      ∧ (∀ movie : Movie.t, movies s !! Review.movie r = Some movie →
         movies s' !! Review.movie r
         = Some (movie_recomputed movie
                   (reviews_of_movie s (Review.movie r)))).
Proof.
  unfold post_reaction, try_catch, query_id, Review_findById.
  destruct (negb (bool_decide (validation_errors req = [])));
    [by intros [= <- _]|].
  run. destruct (castObjectId (params_reviewId req)) as [id|] eqn:Hid; run;
    [|by intros [= <- _]].
  destruct (reviews s !! id) as [r|] eqn:Hr; [|by intros [= <- _]].
  destruct (bool_decide_reflect (Review.user r = req_user req)) as [|Hne];
    [by intros [= <- _]|].
  unfold toggleReaction. run.
  set (r' := toggle r (req_user req)
               (default JNull (body req !! "reactionType"))).
  assert (Hm : Review.movie r' = Review.movie r)
    by (unfold r', toggle; by repeat case_match).
  destruct (Review_save id r' s) as [[[]|err] s1] eqn:Hsave;
    [|intros [= <- _]; by destruct err].
  intros [= <- <-] _.
  apply Review_save_Ok in Hsave as (s2 & Hpre & ->).
  apply pre_save_Ok in Hpre as (Hrev & Hmovies & _).
  exists id, r. repeat split; try done.
  - simpl. by rewrite Hrev.
  - intros movie Hmovie. simpl. rewrite Hmovies, Hm, Hmovie.
    by rewrite lookup_insert_eq.
Qed.

(** ** Paginated listings *)

Lemma ceil_div (total limit : Z) :
  0 < limit →
  Math_ceil (JS.div (JS.of_Z total) (JS.of_Z limit))
  = JS.of_Z ((total + limit - 1) / limit).
Proof.
  intros Hl. unfold JS.div, JS.of_Z, JS.Qzero. simpl Qnum.
  destruct (Z.eqb_spec limit 0) as [->|_]; [lia|].
  unfold Math_ceil, JS.of_Z. do 2 f_equal.
  assert (Heq : (Qred (inject_Z total / inject_Z limit)
                 == total # Z.to_pos limit)%Q).
  { rewrite Qred_correct. destruct limit as [|p|p]; try lia.
    by rewrite <- Qmake_Qdiv. }
  rewrite (Qceiling_comp _ _ Heq). unfold Qceiling, Qfloor, Qopp. simpl.
  rewrite Z2Pos.id by lia.
  pose proof (Z.div_mod (- total) limit ltac:(lia)) as H1.
  pose proof (Z.mod_pos_bound (- total) limit ltac:(lia)) as H2.
  pose proof (Z.div_mod (total + limit - 1) limit ltac:(lia)) as H3.
  pose proof (Z.mod_pos_bound (total + limit - 1) limit ltac:(lia)) as H4.
  nia.
Qed.

Lemma JS_ltb_of_Z (a b : Z) : JS_ltb (JS.of_Z a) (JS.of_Z b) = (a <? b).
Proof.
  unfold JS_ltb, JS.of_Z.
  destruct (Z.ltb_spec a b) as [Hlt | Hge].
  - apply negb_true_iff. apply not_true_is_false. rewrite Qle_bool_iff.
    unfold Qle, inject_Z. simpl. lia.
  - apply negb_false_iff. rewrite Qle_bool_iff.
    unfold Qle, inject_Z. simpl. lia.
Qed.

(** X14: for a positive limit the [pagination] object reports
    [ceil(total / limit)] pages, a next page exactly when documents remain
    beyond the current page, and a previous page exactly from page 2
    on. *)
Theorem pagination_reports_remaining_pages (page limit total : Z) :
  1 ≤ limit →
  totalPages (pagination page limit total)
  = JS.of_Z ((total + limit - 1) / limit)
  ∧ (hasNextPage (pagination page limit total) = true ↔ page * limit < total)
  ∧ (hasPrevPage (pagination page limit total) = true ↔ 1 < page).
Proof.
  intros Hl. unfold pagination.
  cbn [totalPages hasNextPage hasPrevPage].
  rewrite ceil_div by lia. rewrite JS_ltb_of_Z, !Z.ltb_lt.
  split; [done|]. split; [|done].
  pose proof (Z.div_mod (total + limit - 1) limit ltac:(lia)) as H3.
  pose proof (Z.mod_pos_bound (total + limit - 1) limit ltac:(lia)) as H4.
  split; intros Hlt; nia.
Qed.

Lemma take_pages {A : Type} (l : list A) (L n : nat) :
  mjoin ((λ p : nat, take L (drop ((p - 1) * L) l)) <$> seq 1 n)
  = take (n * L) l.
Proof.
  induction n as [|n IH].
  - done.
  - rewrite seq_S, fmap_app, join_app, IH. simpl.
    rewrite app_nil_r, Nat.sub_0_r, take_take_drop. f_equal. lia.
Qed.

(** X15: for a positive limit, the pages 1 to [ceil(total / limit)] cut
    out by [skip] and [limit] are consecutive pieces of the sorted
    result: each holds at most [limit] documents and together, in order,
    they are the whole result. *)
Theorem pages_cover_the_result {A : Type} (l : list A) (limit : Z) :
  1 ≤ limit →
  mjoin ((λ p : nat, skip_limit ((Z.of_nat p - 1) * limit) limit l)
           <$> seq 1 (Z.to_nat ((Z.of_nat (length l) + limit - 1) / limit)))
  = l
  ∧ ∀ page : Z, 1 ≤ page →
      Z.of_nat (length (skip_limit ((page - 1) * limit) limit l))
      = Z.min limit (Z.max 0 (Z.of_nat (length l) - (page - 1) * limit)).
Proof.
  intros Hl. split.
  - set (n := Z.to_nat ((Z.of_nat (length l) + limit - 1) / limit)).
    transitivity (take (n * Z.to_nat limit) l).
    + rewrite <- take_pages. apply (f_equal mjoin).
      apply list_fmap_ext. intros i p Hp. unfold skip_limit.
      apply lookup_seq in Hp as [-> _].
      do 2 f_equal. rewrite Z2Nat.inj_mul by lia.
      rewrite Z2Nat.inj_sub by lia. rewrite Nat2Z.id. simpl. lia.
    + apply take_ge. unfold n.
      pose proof (Z.div_mod (Z.of_nat (length l) + limit - 1) limit
                    ltac:(lia)) as H3.
      pose proof (Z.mod_pos_bound (Z.of_nat (length l) + limit - 1) limit
                    ltac:(lia)) as H4.
      assert (0 ≤ (Z.of_nat (length l) + limit - 1) / limit)
        by (apply Z.div_pos; lia).
      apply Nat2Z.inj_le. rewrite Nat2Z.inj_mul, !Z2Nat.id by lia. nia.
  - intros page Hp. unfold skip_limit.
    rewrite length_take, length_drop.
    assert (0 ≤ (page - 1) * limit) by nia.
    set (k := (page - 1) * limit) in *. lia.
Qed.

Lemma filter_snd_length {A B : Type} (P : B → Prop) `{!∀ x, Decision (P x)}
    (l : list (A * B)) :
  length (filter (λ kv, P kv.2) l) = length (filter P l.*2).
Proof.
  induction l as [|[a b] l IH]; [done|]. rewrite fmap_cons. simpl.
  destruct (decide (P b)).
  - rewrite !filter_cons_True by done. simpl. by rewrite IH.
  - rewrite !filter_cons_False by done. done.
Qed.

Lemma validate_query_bounds (q : ListQuery) :
  check_isInt (q_page q) 1 None "Page must be a positive integer" = [] →
  check_isInt (q_limit q) 1 (Some 20) "Limit must be between 1 and 20" = [] →
  1 ≤ default 1 (q_page q) ∧ 1 ≤ default 10 (q_limit q) ≤ 20.
Proof.
  unfold check_isInt. destruct (q_page q) as [p|], (q_limit q) as [l|]; simpl;
    repeat case_match; try done; intros _ _;
    repeat match goal with
           | Hb : _ && _ = true |- _ => apply andb_true_iff in Hb as [? ?]
           end; lia.
Qed.

Section ListingProperties.
Context `{SchemaCast} `{DbSort}.

(** X16: for an accepted query and an existing movie, the listing answers
    200 with at most [limit] reviews, each a stored review of that movie
    under its own id and with its author's summary attached, no review
    twice, and with [totalItems] the number of stored reviews of the
    movie. *)
Theorem get_movie_reviews_lists_stored_reviews (movieId : jsval)
    (q : ListQuery) (s : Store) (m : ObjectId) :
  validate_movie_reviews_query q = [] →
  castObjectId movieId = Some m →
  is_Some (movies s !! m) →
  ∃ items : list (ObjectId * Review.t * option UserSummary),
    get_movie_reviews movieId q s
    = mkListResponse 200
        (LMovieReviews items
           (pagination (default 1 (q_page q)) (default 10 (q_limit q))
              (Z.of_nat (length (reviews_of_movie s m)))))
    ∧ Z.of_nat (length items) ≤ default 10 (q_limit q)
    ∧ NoDup (items.*1.*1)
    ∧ ∀ id r pu, (id, r, pu) ∈ items →
        reviews s !! id = Some r ∧ Review.movie r = m
        ∧ pu = populate_user s r.
Proof.
  intros Hq Hid [movie Hm].
  assert (Hb : 1 ≤ default 1 (q_page q) ∧ 1 ≤ default 10 (q_limit q) ≤ 20).
  { unfold validate_movie_reviews_query in Hq.
    apply app_eq_nil in Hq as [Hp Hq]. apply app_eq_nil in Hq as [Hl _].
    by apply validate_query_bounds. }
  unfold get_movie_reviews. rewrite Hq, Hid, Hm. simpl negb. cbv iota.
  set (found := filter (λ kv, Review.movie kv.2 = m) (all_reviews s)).
  set (sorted := db_sort _ _ found).
  set (page := skip_limit _ _ sorted).
  assert (Hsub : page `sublist_of` sorted).
  { unfold page, skip_limit. etrans; [apply sublist_take | apply sublist_drop]. }
  assert (Hin : ∀ kv, kv ∈ page →
                reviews s !! kv.1 = Some kv.2 ∧ Review.movie kv.2 = m).
  { intros [id r] Hkv. eapply elem_of_sublist in Hkv; [|done].
    unfold sorted in Hkv. rewrite db_sort_perm in Hkv.
    apply list_elem_of_filter in Hkv as [Hmv Hkv].
    by apply elem_of_map_to_list in Hkv. }
  eexists. split; [|split; [|split]].
  - unfold reviews_of_movie. rewrite <- filter_snd_length. done.
  - rewrite length_fmap. unfold page, skip_limit. rewrite length_take. lia.
  - assert (Hfst : ((λ kv : nat * Review.t, (kv.1, kv.2, populate_user s kv.2))
                    <$> page).*1.*1 = page.*1).
    { rewrite <- !list_fmap_compose. apply list_fmap_ext. by intros i [a b] _. }
    rewrite Hfst.
    eapply sublist_NoDup; [|by apply fmap_sublist].
    unfold sorted. rewrite db_sort_perm.
    eapply sublist_NoDup; [|apply fmap_sublist, sublist_filter].
    apply NoDup_fst_map_to_list.
  - intros id r pu Hi. apply list_elem_of_fmap in Hi as ([id' r'] & [= -> -> ->] & Hi).
    destruct (Hin _ Hi) as [? ?]. done.
Qed.

(** X28: the two listings of a user's reviews answer an accepted query
    alike when the user exists: 200 with stored reviews of that user, each
    under its own id and with its movie's summary, and the number of the
    user's stored reviews as total.  For an id that names no user the
    reviews router still answers 200, the users router 404. *)
Theorem user_listings_differ_for_unknown_users (userId : jsval)
    (q : ListQuery) (s : Store) (u : ObjectId) :
  validate_user_reviews_query q = [] →
  castObjectId userId = Some u →
  ∃ items : list (ObjectId * Review.t * option MovieSummary),
    get_user_reviews userId q s
    = mkListResponse 200
        (LUserReviews items
           (pagination (default 1 (q_page q)) (default 10 (q_limit q))
              (Z.of_nat (length (reviews_by_user s u)))))
    ∧ Z.of_nat (length items) ≤ default 10 (q_limit q)
    ∧ (∀ id r pm, (id, r, pm) ∈ items →
         reviews s !! id = Some r ∧ Review.user r = u
         ∧ pm = populate_movie s r)
    ∧ (is_Some (users s !! u) →
       get_reviews_of_user userId q s = get_user_reviews userId q s)
    ∧ (users s !! u = None →
       get_reviews_of_user userId q s
       = mkListResponse 404 (LMessage "User not found")).
Proof.
  intros Hq Hid.
  assert (Hb : 1 ≤ default 1 (q_page q) ∧ 1 ≤ default 10 (q_limit q) ≤ 20).
  { unfold validate_user_reviews_query in Hq.
    apply app_eq_nil in Hq as [Hp Hl]. by apply validate_query_bounds. }
  unfold get_reviews_of_user, get_user_reviews.
  rewrite Hq, Hid. simpl negb. cbv iota.
  set (found := filter (λ kv, Review.user kv.2 = u) (all_reviews s)).
  set (sorted := db_sort _ _ found).
  set (page := skip_limit _ _ sorted).
  assert (Hsub : page `sublist_of` sorted).
  { unfold page, skip_limit. etrans; [apply sublist_take | apply sublist_drop]. }
  eexists. split; [|split; [|split; [|split]]].
  - unfold reviews_by_user. rewrite <- filter_snd_length. done.
  - rewrite length_fmap. unfold page, skip_limit. rewrite length_take. lia.
  - intros id r pm Hi.
    apply list_elem_of_fmap in Hi as ([id' r'] & [= -> -> ->] & Hi).
    eapply elem_of_sublist in Hi; [|done].
    unfold sorted in Hi. rewrite db_sort_perm in Hi.
    apply list_elem_of_filter in Hi as [Hu Hi].
    by apply elem_of_map_to_list in Hi.
  - by intros [user ->].
  - by intros ->.
Qed.

End ListingProperties.

(** ** movieSchema: the clean-up before a save *)

Lemma Set_spread_first_occurrences (acc l : list string) :
  foldl (λ set x, if bool_decide (x ∈ set) then set else set ++ [x]) acc l
  = acc ++ first_occurrences acc l.
Proof.
  revert acc. induction l as [|x l IH]; intros acc; simpl.
  - by rewrite app_nil_r.
  - case_bool_decide; rewrite IH; [done|]. by rewrite <- app_assoc.
Qed.

Lemma elem_of_first_occurrences (seen l : list string) (y : string) :
  y ∈ first_occurrences seen l ↔ y ∈ l ∧ y ∉ seen.
Proof.
  revert seen. induction l as [|x l IH]; intros seen; simpl.
  - rewrite elem_of_nil. tauto.
  - case_bool_decide as Hx.
    + rewrite IH, elem_of_cons. split; [tauto|].
      intros [[-> | Hy] Hn]; [done | tauto].
    + rewrite !elem_of_cons, IH, elem_of_app, list_elem_of_singleton.
      split.
      * intros [-> | [Hy Hn]]; [tauto|]. split; tauto.
      * intros [[-> | Hy] Hn]; [tauto|].
        destruct (decide (y = x)) as [->|Hne]; tauto.
Qed.

Lemma NoDup_first_occurrences (seen l : list string) :
  NoDup (first_occurrences seen l).
Proof.
  revert seen. induction l as [|x l IH]; intros seen; simpl.
  - apply NoDup_nil_2.
  - case_bool_decide; [apply IH|]. apply NoDup_cons. split; [|apply IH].
    rewrite elem_of_first_occurrences, elem_of_app, list_elem_of_singleton.
    tauto.
Qed.

Lemma first_occurrences_sublist (seen l : list string) :
  first_occurrences seen l `sublist_of` l.
Proof.
  revert seen. induction l as [|x l IH]; intros seen; simpl; [done|].
  case_bool_decide; [apply sublist_cons | apply sublist_skip]; apply IH.
Qed.

Lemma first_occurrences_NoDup_id (seen l : list string) :
  NoDup l → (∀ x, x ∈ l → x ∉ seen) → first_occurrences seen l = l.
Proof.
  intros Hnd. revert seen. induction Hnd as [|x l Hx Hnd IH]; intros seen Hs;
    simpl; [done|].
  rewrite bool_decide_eq_false_2 by (apply Hs; left).
  f_equal. apply IH. intros y Hy.
  rewrite elem_of_app, list_elem_of_singleton. intros [Hin | ->]; [|done].
  by apply (Hs y); [right|].
Qed.

Lemma filter_Forall_id {A : Type} (P : A → Prop) `{!∀ x, Decision (P x)}
    (l : list A) :
  Forall P l → filter P l = l.
Proof.
  induction 1 as [|x l Hx _ IH]; [done|].
  rewrite filter_cons. destruct (decide (P x)); [by rewrite IH | done].
Qed.

Lemma non_blank_trim (g : string) : non_blank g ↔ trim g ≠ "".
Proof.
  unfold non_blank. split; [tauto|]. intros Ht. split; [|done].
  intros ->. by apply Ht.
Qed.

Lemma clean_genre_first_occurrences (genre : list string) :
  clean_genre genre = first_occurrences [] (filter non_blank genre).
Proof. unfold clean_genre, Set_spread. apply Set_spread_first_occurrences. Qed.

(** The order of the result: what stands after [a] does not occur in the
    given list before the first occurrence of [a]. *)
Lemma first_occurrences_filter_order (P : string → Prop)
    `{!∀ x, Decision (P x)} (seen l l1 : list string) (a : string)
    (l2 : list string) :
  first_occurrences seen (filter P l) = l1 ++ a :: l2 →
  ∃ k1 k2 : list string,
    l = k1 ++ a :: k2 ∧ (a ∉ k1) ∧ (∀ b, b ∈ l2 → b ∉ k1).
Proof.
  revert seen l1. induction l as [|x l IH]; intros seen l1 Heq.
  { by destruct l1. }
  assert (Hin : ∀ y, y ∈ l1 ++ a :: l2 →
                     (y ∈ x :: l ∧ P y) ∧ y ∉ seen).
  { intros y Hy. rewrite <- Heq in Hy.
    apply elem_of_first_occurrences in Hy as [Hy Hs].
    by apply list_elem_of_filter in Hy as [HP Hy]. }
  assert (Ha : (a ∈ x :: l ∧ P a) ∧ a ∉ seen).
  { apply Hin. rewrite elem_of_app, elem_of_cons. tauto. }
  assert (Hb : ∀ b, b ∈ l2 → (b ∈ x :: l ∧ P b) ∧ b ∉ seen).
  { intros b Hb. apply Hin. rewrite elem_of_app, elem_of_cons. tauto. }
  rewrite filter_cons in Heq. destruct (decide (P x)) as [HPx|HPx].
  - simpl in Heq. case_bool_decide as Hseen.
    + destruct (IH seen l1 Heq) as (k1 & k2 & -> & Hk1 & Hk2).
      exists (x :: k1), k2. split; [done|]. split.
      * rewrite not_elem_of_cons. split; [|done]. intros ->. tauto.
      * intros b Hl2. rewrite not_elem_of_cons. split; [|by apply Hk2].
        intros ->. by destruct (Hb x Hl2).
    + destruct l1 as [|y l1]; simplify_eq/=.
      * exists [], l. split; [done|]. split; [apply not_elem_of_nil|].
        intros b _. apply not_elem_of_nil.
      * assert (Hfresh : ∀ z, z ∈ l1 ++ a :: l2 → z ≠ y).
        { intros z Hz. rewrite <- H1 in Hz.
          apply elem_of_first_occurrences in Hz as [_ Hz].
          rewrite elem_of_app, list_elem_of_singleton in Hz. tauto. }
        destruct (IH (seen ++ [y]) l1 H1) as (k1 & k2 & -> & Hk1 & Hk2).
        exists (y :: k1), k2. split; [done|]. split.
        -- rewrite not_elem_of_cons. split; [|done].
           apply Hfresh. rewrite elem_of_app, elem_of_cons. tauto.
        -- intros b Hl2. rewrite not_elem_of_cons. split; [|by apply Hk2].
           apply Hfresh. rewrite elem_of_app, elem_of_cons. tauto.
  - destruct (IH seen l1 Heq) as (k1 & k2 & -> & Hk1 & Hk2).
    exists (x :: k1), k2. split; [done|]. split.
    + rewrite not_elem_of_cons. split; [|done]. intros ->. tauto.
    + intros b Hl2. rewrite not_elem_of_cons. split; [|by apply Hk2].
      intros ->. by destruct (Hb x Hl2) as [[_ ?] _].
Qed.

(** X18: the genre list a movie is saved with holds every non-blank genre
    of the list it was given, once, in the order of first occurrence: it
    is a sublist of the given list in which a genre that stands after
    another does not occur in the given list before the other's first
    occurrence.  Cleaning it again changes nothing. *)
Theorem clean_genre_keeps_first_occurrences (genre : list string) :
  NoDup (clean_genre genre)
  ∧ (∀ g, g ∈ clean_genre genre ↔ g ∈ genre ∧ trim g ≠ "")
  ∧ clean_genre genre `sublist_of` genre
  ∧ (∀ (l1 : list string) (a : string) (l2 : list string),
       clean_genre genre = l1 ++ a :: l2 →
       ∃ k1 k2 : list string,
         genre = k1 ++ a :: k2 ∧ (a ∉ k1) ∧ (∀ b, b ∈ l2 → b ∉ k1))
  ∧ clean_genre (clean_genre genre) = clean_genre genre.
Proof.
  assert (Hel : ∀ g, g ∈ clean_genre genre ↔ g ∈ genre ∧ trim g ≠ "").
  { intros g. rewrite clean_genre_first_occurrences,
      elem_of_first_occurrences, list_elem_of_filter, non_blank_trim.
    rewrite elem_of_nil. tauto. }
  assert (Hnd : NoDup (clean_genre genre)).
  { rewrite clean_genre_first_occurrences. apply NoDup_first_occurrences. }
  split; [done|]. split; [done|]. split; [|split].
  - rewrite clean_genre_first_occurrences.
    etrans; [apply first_occurrences_sublist | apply sublist_filter].
  - intros l1 a l2. rewrite clean_genre_first_occurrences.
    apply first_occurrences_filter_order.
  - rewrite (clean_genre_first_occurrences (clean_genre genre)).
    rewrite filter_Forall_id.
    + apply first_occurrences_NoDup_id; [done|].
      intros x _. apply not_elem_of_nil.
    + apply Forall_forall. intros g Hg. apply non_blank_trim.
      by apply Hel in Hg as [_ Hg].
Qed.

Lemma validGenres_non_blank : Forall non_blank validGenres.
Proof. apply (bool_decide_unpack _). vm_compute. exact I. Qed.

Lemma genre_validator_true (genres : list string) :
  genre_validator genres = true ↔
  genres ≠ [] ∧ Forall (λ g, g ∈ validGenres) genres.
Proof.
  unfold genre_validator. case_bool_decide as Hlen.
  - split; [done|]. intros [Hne _]. by destruct genres.
  - rewrite forallb_forall, Forall_forall. split.
    + intros Hall. split; [by intros ->|].
      intros g Hg. apply list_elem_of_In in Hg.
      eapply bool_decide_eq_true_1, Hall, Hg.
    + intros [_ Hall] g Hg. apply list_elem_of_In in Hg.
      by apply bool_decide_eq_true_2, Hall.
Qed.

(** X19: a genre list that passes the schema's validator is only rid of
    its repetitions by the clean-up: the cleaned list has the same
    genres, still passes the validator, and is the list itself when no
    genre is repeated. *)
Theorem valid_genres_survive_clean_up (genre : list string) :
  genre_validator genre = true →
  genre_validator (clean_genre genre) = true
  ∧ (∀ g, g ∈ clean_genre genre ↔ g ∈ genre)
  ∧ (NoDup genre → clean_genre genre = genre).
Proof.
  intros Hv. apply genre_validator_true in Hv as [Hne Hall].
  assert (Hnb : Forall non_blank genre).
  { apply Forall_forall. intros g Hg.
    rewrite Forall_forall in Hall. specialize (Hall g Hg).
    pose proof validGenres_non_blank as Hvg. rewrite Forall_forall in Hvg.
    by apply Hvg. }
  assert (Hel : ∀ g, g ∈ clean_genre genre ↔ g ∈ genre).
  { intros g. rewrite clean_genre_first_occurrences,
      elem_of_first_occurrences, filter_Forall_id by done.
    rewrite elem_of_nil. tauto. }
  split; [|split; [done|]].
  - apply genre_validator_true. split.
    + destruct genre as [|g genre]; [done|]. intros Hnil.
      assert (Hg : g ∈ clean_genre (g :: genre)) by (apply Hel; left).
      rewrite Hnil in Hg. by apply elem_of_nil in Hg.
    + apply Forall_forall. intros g Hg. apply Hel in Hg.
      rewrite Forall_forall in Hall. by apply Hall.
  - intros Hnd. rewrite clean_genre_first_occurrences, filter_Forall_id by done.
    apply first_occurrences_NoDup_id; [done|].
    intros x _. apply not_elem_of_nil.
Qed.

(** X20: for a runtime within the schema's bounds, 1 to 600 minutes, the
    formatted runtime is "<h>h <m>m" with [60 * h + m] the runtime, [h]
    within 0..10 and [m] within 0..59; a runtime that is absent or 0 gives
    [null]. *)
Theorem formattedRuntime_splits_minutes (runtime : Z) :
  1 ≤ runtime ≤ 600 →
  (∃ h m : Z,
     formattedRuntime (Some runtime)
     = Some (String_of_Z h +:+ "h " +:+ String_of_Z m +:+ "m")
     ∧ 60 * h + m = runtime ∧ 0 ≤ h ≤ 10 ∧ 0 ≤ m < 60)
  ∧ formattedRuntime (Some 0) = None
  ∧ formattedRuntime None = None.
Proof.
  intros Hr. split; [|done].
  exists (runtime / 60), (Z.rem runtime 60). unfold formattedRuntime.
  destruct (Z.eqb_spec runtime 0) as [->|_]; [lia|].
  split; [done|].
  rewrite Z.rem_mod_nonneg by lia.
  pose proof (Z.div_mod runtime 60 ltac:(lia)).
  pose proof (Z.mod_pos_bound runtime 60 ltac:(lia)).
  assert (0 ≤ runtime / 60) by (apply Z.div_pos; lia). lia.
Qed.

(** ** Deleting a movie *)

(** X21: deleting a stored movie removes that movie and nothing else: its
    reviews stay stored.  From then on a request to review it, or to
    delete it again, is answered with 404 "Movie not found". *)
Theorem delete_movie_leaves_its_reviews `{SchemaCast} (id : jsval)
    (s : Store) (m : ObjectId) (req : Request) (v : jsval) :
  castObjectId id = Some m →
  is_Some (movies s !! m) →
  validation_errors req = [] →
  body req !! "movieId" = Some v →
  castObjectId v = Some m →
  let s' := mkStore (delete m (movies s)) (users s) (reviews s) in
  delete_movie id s
  = (mkResponse 200 (Message "Movie deleted successfully"), s')
  ∧ reviews_of_movie s' m = reviews_of_movie s m
  ∧ post_review req s' = (NotFound "Movie", s')
  ∧ delete_movie id s' = (NotFound "Movie", s').
Proof.
  intros Hid [movie Hm] Hval Hbody Hv s'.
  split; [|split; [done|split]].
  - unfold delete_movie, try_catch, query_id, Movie_findById.
    rewrite Hid. run. rewrite Hm. done.
  - unfold post_review, try_catch, query_id, Movie_findById.
    rewrite Hval, Hbody. run. rewrite Hv. run. by rewrite lookup_delete_eq.
  - unfold delete_movie, try_catch, query_id, Movie_findById.
    rewrite Hid. run. by rewrite lookup_delete_eq.
Qed.

(** ** The watchlist *)

Lemma Watchlist_findOne_Some (u m id : ObjectId) (w : Watchlist.t)
    (items : gmap nat Watchlist.t) :
  Watchlist_findOne u m items = Some (id, w) →
  items !! id = Some w ∧ Watchlist.user w = u ∧ Watchlist.movie w = m.
Proof.
  unfold Watchlist_findOne. intros Hh.
  apply head_Some_elem_of, list_elem_of_filter in Hh as [[Hu Hm] Hin].
  by apply elem_of_map_to_list in Hin.
Qed.

Lemma Watchlist_findOne_stored (u m id : ObjectId) (w : Watchlist.t)
    (items : gmap nat Watchlist.t) :
  items !! id = Some w → Watchlist.user w = u → Watchlist.movie w = m →
  is_Some (Watchlist_findOne u m items).
Proof.
  intros Hw Hu Hm. unfold Watchlist_findOne. apply head_is_Some.
  intros Hnil.
  assert (Hin : (id, w) ∈ filter
            (λ kv : nat * Watchlist.t,
               Watchlist.user kv.2 = u ∧ Watchlist.movie kv.2 = m)
            (map_to_list items)).
  { apply list_elem_of_filter. split; [done|]. by apply elem_of_map_to_list. }
  rewrite Hnil in Hin. by apply not_elem_of_nil in Hin.
Qed.

Lemma Watchlist_findOne_absent (u m : ObjectId)
    (items : gmap nat Watchlist.t) :
  (∀ id w, items !! id = Some w → Watchlist.user w = u →
           Watchlist.movie w ≠ m) →
  Watchlist_findOne u m items = None.
Proof.
  intros Hno. destruct (Watchlist_findOne u m items) as [[id w]|] eqn:E;
    [|done].
  apply Watchlist_findOne_Some in E as (Hw & Hu & Hm).
  by destruct (Hno id w Hw Hu).
Qed.

Lemma Watchlist_findOne_insert_new (id : ObjectId) (w : Watchlist.t)
    (items : gmap nat Watchlist.t) :
  items !! id = None →
  Watchlist_findOne (Watchlist.user w) (Watchlist.movie w) items = None →
  Watchlist_findOne (Watchlist.user w) (Watchlist.movie w) (<[id := w]> items)
  = Some (id, w).
Proof.
  unfold Watchlist_findOne. intros Hid Hnone. apply head_None in Hnone.
  pose proof (map_to_list_insert items id w Hid) as Hperm.
  apply (filter_Permutation
           (λ kv : nat * Watchlist.t,
              Watchlist.user kv.2 = Watchlist.user w
              ∧ Watchlist.movie kv.2 = Watchlist.movie w)) in Hperm.
  rewrite filter_cons in Hperm.
  destruct (decide _) as [_|Hn]; [|by destruct Hn].
  rewrite Hnone in Hperm. apply Permutation_singleton_r in Hperm.
  by rewrite Hperm.
Qed.

Lemma fresh_item_id (items : gmap nat Watchlist.t) :
  items !! fresh (dom items) = None.
Proof. apply not_elem_of_dom_1, is_fresh. Qed.

Lemma unique_items_insert_new (id : ObjectId) (w : Watchlist.t)
    (items : gmap nat Watchlist.t) :
  unique_items items → items !! id = None →
  Watchlist_findOne (Watchlist.user w) (Watchlist.movie w) items = None →
  unique_items (<[id := w]> items).
Proof.
  intros Hu Hid Hnone i j wi wj Hi Hj Hus Hmv.
  apply lookup_insert_Some in Hi as [[<- <-]|[Hni Hi]];
    apply lookup_insert_Some in Hj as [[<- <-]|[Hnj Hj]]; try done.
  - destruct (Watchlist_findOne_stored _ _ j wj items Hj
                (eq_sym Hus) (eq_sym Hmv)) as [x Hx]. congruence.
  - destruct (Watchlist_findOne_stored _ _ i wi items Hi Hus Hmv) as [x Hx].
    congruence.
  - by apply (Hu i j wi wj).
Qed.

Lemma unique_items_update (id : ObjectId) (old w : Watchlist.t)
    (items : gmap nat Watchlist.t) :
  unique_items items → items !! id = Some old →
  Watchlist.user w = Watchlist.user old →
  Watchlist.movie w = Watchlist.movie old →
  unique_items (<[id := w]> items).
Proof.
  intros Hu Hold Heu Hem i j wi wj Hi Hj Hus Hmv.
  apply lookup_insert_Some in Hi as [[<- <-]|[Hni Hi]];
    apply lookup_insert_Some in Hj as [[<- <-]|[Hnj Hj]]; try done.
  - apply (Hu id j old wj); congruence.
  - apply (Hu i id wi old); congruence.
  - by apply (Hu i j wi wj).
Qed.

Lemma unique_items_delete (id : ObjectId) (items : gmap nat Watchlist.t) :
  unique_items items → unique_items (delete id items).
Proof.
  intros Hu i j wi wj Hi Hj.
  apply lookup_delete_Some in Hi as [_ Hi].
  apply lookup_delete_Some in Hj as [_ Hj]. by apply (Hu i j wi wj).
Qed.

Section WatchlistProperties.
Context `{SchemaCast}.

(** What a call of the route that adds an entry does to the collection. *)
Lemma post_watchlist_effect (req : WRequest) (s : Store)
    (items : gmap nat Watchlist.t) :
  (post_watchlist req s items).2 = items
  ∨ ∃ m p n,
      (post_watchlist req s items).2
      = <[fresh (dom items) := Watchlist.mk (w_user req) m (w_now req) p n]>
          items
      ∧ Watchlist_findOne (w_user req) m items = None
      ∧ priority_validator p = true ∧ notes_validator n = true.
Proof.
  unfold post_watchlist.
  destruct (negb _); [by left|].
  destruct (w_body req !! "movieId") as [v|]; [|by left].
  destruct (castObjectId v) as [m|]; [|by left].
  destruct (movies s !! m); [|by left].
  destruct (bool_decide_reflect
              (is_Some (Watchlist_findOne (w_user req) m items)))
    as [|Hnone]; [by left|].
  destruct (castString _) as [p|]; [|by left].
  destruct (cast_notes _) as [n|]; [|by left].
  unfold Watchlist_insert, Watchlist_validate. simpl.
  destruct (priority_validator p) eqn:Hp; [|by left].
  destruct (notes_validator n) eqn:Hn; [|by left]. simpl.
  destruct (watchlist_violates_index _ _); [by left|].
  right. exists m, p, n. repeat split; try done.
  destruct (Watchlist_findOne (w_user req) m items) eqn:E; [|done].
  destruct Hnone; eauto.
Qed.

(** What a call of the route that edits an entry does to the collection. *)
Lemma put_watchlist_effect (req : WRequest) (s : Store)
    (items : gmap nat Watchlist.t) :
  (put_watchlist_item req s items).2 = items
  ∨ ∃ id old p n,
      castObjectId (params_itemId req) = Some id
      ∧ items !! id = Some old ∧ Watchlist.user old = w_user req
      ∧ (put_watchlist_item req s items).2
        = <[id := Watchlist.mk (Watchlist.user old) (Watchlist.movie old)
                    (Watchlist.dateAdded old) p n]> items
      ∧ priority_validator p = true ∧ notes_validator n = true.
Proof.
  unfold put_watchlist_item.
  destruct (negb (bool_decide (w_errors req = []))); [by left|].
  destruct (castObjectId (params_itemId req)) as [id|]; [|by left].
  destruct (items !! id) as [old|] eqn:Hold; [|by left].
  destruct (bool_decide_reflect (Watchlist.user old = w_user req))
    as [Hown|]; [|by left]. cbn [negb].
  set (po := match w_body req !! "priority" with
             | Some v => castString v
             | None => Some (Watchlist.priority old)
             end).
  set (no := match w_body req !! "notes" with
             | Some v => cast_notes (Some v)
             | None => Some (Watchlist.notes old)
             end).
  destruct po as [p|]; [|by left]. destruct no as [n|]; [|by left].
  unfold Watchlist_update, Watchlist_validate. simpl.
  destruct (priority_validator p) eqn:Hpv; [|by left].
  destruct (notes_validator n) eqn:Hnv; [|by left].
  right. exists id, old, p, n. eauto 10.
Qed.

(** What the two routes that remove an entry do to the collection. *)
Lemma delete_watchlist_item_effect (req : WRequest)
    (items : gmap nat Watchlist.t) :
  (delete_watchlist_item req items).2 = items
  ∨ ∃ id w, items !! id = Some w ∧ Watchlist.user w = w_user req
            ∧ (delete_watchlist_item req items).2 = delete id items.
Proof.
  unfold delete_watchlist_item.
  destruct (castObjectId (params_itemId req)) as [id|]; [|by left].
  destruct (items !! id) as [w|] eqn:Hw; [|by left].
  destruct (bool_decide_reflect (Watchlist.user w = w_user req));
    [|by left].
  right. by exists id, w.
Qed.

Lemma delete_watchlist_movie_effect (req : WRequest)
    (items : gmap nat Watchlist.t) :
  (delete_watchlist_movie req items).2 = items
  ∨ ∃ id w, items !! id = Some w ∧ Watchlist.user w = w_user req
            ∧ (delete_watchlist_movie req items).2 = delete id items.
Proof.
  unfold delete_watchlist_movie.
  destruct (castObjectId (params_movieId req)) as [m|]; [|by left].
  destruct (Watchlist_findOne (w_user req) m items) as [[id w]|] eqn:E;
    [|by left].
  apply Watchlist_findOne_Some in E as (Hw & Hu & _).
  right. by exists id, w.
Qed.

(** X22: adding a movie that exists and is not yet on the acting user's
    watchlist answers 201 and stores one new entry, dated now, whose
    priority defaults to medium; the check route then reports the movie as
    on the watchlist, with that entry. *)
Theorem post_watchlist_succeeds (req req' : WRequest) (s : Store)
    (items : gmap nat Watchlist.t) (v : jsval) (m : ObjectId)
    (p : string) (n : option string) :
  w_errors req = [] →
  w_body req !! "movieId" = Some v → castObjectId v = Some m →
  is_Some (movies s !! m) →
  (∀ id w, items !! id = Some w → Watchlist.user w = w_user req →
           Watchlist.movie w ≠ m) →
  castString (default (JStr "medium") (w_body req !! "priority")) = Some p →
  p ∈ ["low"; "medium"; "high"] →
  cast_notes (w_body req !! "notes") = Some n →
  (∀ text, n = Some text → (String.length text ≤ 500)%nat) →
  w_user req' = w_user req → castObjectId (params_movieId req') = Some m →
  let item := Watchlist.mk (w_user req) m (w_now req) p n in
  let items' := <[fresh (dom items) := item]> items in
  post_watchlist req s items
  = (mkWResponse 201
       (WMessageItem "Movie added to watchlist successfully" item
          (watchlist_populate s item)), items')
  ∧ items !! fresh (dom items) = None
  ∧ check_watchlist req' items' = mkWResponse 200 (WCheck true (Some item)).
Proof.
  intros Herr Hbody Hv [mv Hmv] Hno Hp Hpv Hn Hnv Hu' Hm' item items'.
  pose proof (Watchlist_findOne_absent _ _ _ Hno) as Hnone.
  split; [|split].
  - unfold post_watchlist. rewrite Herr, Hbody. simpl. rewrite Hv, Hmv.
    rewrite Hnone. simpl.
    destruct (bool_decide_reflect (is_Some (@None (ObjectId * Watchlist.t))))
      as [[x Hx]|_]; [done|].
    rewrite Hp, Hn.
    unfold Watchlist_insert, Watchlist_validate, watchlist_violates_index.
    cbn [Watchlist.priority Watchlist.notes Watchlist.user Watchlist.movie].
    unfold priority_validator. rewrite (bool_decide_eq_true_2 _ Hpv).
    assert (notes_validator n = true) as ->.
    { destruct n as [text|]; [|done]. simpl. apply Nat.leb_le. by apply Hnv. }
    simpl. rewrite Hnone.
    destruct (bool_decide_reflect (is_Some (@None (ObjectId * Watchlist.t))))
      as [[x Hx]|_]; [done|]. done.
  - apply fresh_item_id.
  - unfold check_watchlist. rewrite Hm', Hu'.
    subst items'.
    pose proof (Watchlist_findOne_insert_new (fresh (dom items)) item items
                  (fresh_item_id items) Hnone) as Hfound.
    cbn [item Watchlist.user Watchlist.movie] in Hfound.
    rewrite Hfound. cbn [fmap option_fmap option_map snd].
    by rewrite bool_decide_eq_true_2.
Qed.

(** X23: removing by movie what has just been added restores the
    watchlist: after a successful add, the same user's
    [DELETE /movie/:movieId] answers 200 and leaves the collection as it
    was before the add. *)
Theorem add_then_remove_restores_watchlist (req req' : WRequest) (s : Store)
    (items : gmap nat Watchlist.t) (item : Watchlist.t)
    (movie : option MovieSummary) (items' : gmap nat Watchlist.t) :
  post_watchlist req s items
  = (mkWResponse 201
       (WMessageItem "Movie added to watchlist successfully" item movie),
     items') →
  w_user req' = w_user req →
  castObjectId (params_movieId req') = Some (Watchlist.movie item) →
  delete_watchlist_movie req' items'
  = (mkWResponse 200 (WMessage "Movie removed from watchlist successfully"),
     items).
Proof.
  intros Hpost Hu' Hm'.
  assert (Hitems : items' = (post_watchlist req s items).2)
    by by rewrite Hpost.
  assert (Hpost' := Hpost). revert Hpost'.
  unfold post_watchlist.
  destruct (negb _); [done|].
  destruct (w_body req !! "movieId") as [v|]; [|done].
  destruct (castObjectId v) as [m|]; [|done].
  destruct (movies s !! m); [|done].
  destruct (bool_decide_reflect
              (is_Some (Watchlist_findOne (w_user req) m items)))
    as [|Hnone]; [done|].
  destruct (castString _) as [p|]; [|done].
  destruct (cast_notes _) as [n|]; [|done].
  unfold Watchlist_insert.
  destruct (negb _); [done|].
  destruct (watchlist_violates_index _ _); [done|].
  intros [= <- _ <-].
  unfold delete_watchlist_movie. rewrite Hm', Hu'.
  cbn [Watchlist.movie].
  assert (Hnone' : Watchlist_findOne (w_user req) m items = None).
  { destruct (Watchlist_findOne (w_user req) m items) eqn:E; [|done].
    destruct Hnone; eauto. }
  pose proof (Watchlist_findOne_insert_new (fresh (dom items))
                (Watchlist.mk (w_user req) m (w_now req) p n) items
                (fresh_item_id items) Hnone') as Hfound.
  cbn [Watchlist.user Watchlist.movie] in Hfound. rewrite Hfound.
  by rewrite delete_insert_id by apply fresh_item_id.
Qed.

(** X24: a movie that is already on the acting user's watchlist is not
    added twice: the route answers 400 and the collection is unchanged. *)
Theorem watchlist_duplicate_refused (req : WRequest) (s : Store)
    (items : gmap nat Watchlist.t) (v : jsval) (m id : ObjectId)
    (w : Watchlist.t) :
  w_errors req = [] →
  w_body req !! "movieId" = Some v → castObjectId v = Some m →
  is_Some (movies s !! m) →
  items !! id = Some w → Watchlist.user w = w_user req →
  Watchlist.movie w = m →
  post_watchlist req s items
  = (mkWResponse 400 (WMessage "Movie is already in your watchlist"), items).
Proof.
  intros Herr Hbody Hv [mv Hmv] Hw Hu Hm.
  unfold post_watchlist. rewrite Herr, Hbody. simpl. rewrite Hv, Hmv.
  by rewrite bool_decide_eq_true_2
    by by apply (Watchlist_findOne_stored _ _ id w).
Qed.

(** X25: no watchlist route ever stores two entries for the same user and
    movie: each of the four writing routes keeps the collection free of
    such pairs, whatever the request. *)
Theorem watchlist_routes_keep_entries_unique (req : WRequest) (s : Store)
    (items : gmap nat Watchlist.t) :
  unique_items items →
  unique_items (post_watchlist req s items).2
  ∧ unique_items (put_watchlist_item req s items).2
  ∧ unique_items (delete_watchlist_item req items).2
  ∧ unique_items (delete_watchlist_movie req items).2.
Proof.
  intros Hu. split; [|split; [|split]].
  - destruct (post_watchlist_effect req s items)
      as [->|(m & p & n & -> & Hnone & _)]; [done|].
    apply unique_items_insert_new; [done|apply fresh_item_id|done].
  - destruct (put_watchlist_effect req s items)
      as [->|(id & old & p & n & _ & Hold & _ & -> & _)]; [done|].
    by apply (unique_items_update id old).
  - destruct (delete_watchlist_item_effect req items)
      as [->|(id & w & _ & _ & ->)]; [done|].
    by apply unique_items_delete.
  - destruct (delete_watchlist_movie_effect req items)
      as [->|(id & w & _ & _ & ->)]; [done|].
    by apply unique_items_delete.
Qed.

(** X26: the watchlist routes act on the acting user's entries only: an
    entry that belongs to somebody else is still stored, unchanged, after
    any of the four writing routes. *)
Theorem watchlist_routes_leave_other_users_entries (req : WRequest)
    (s : Store) (items : gmap nat Watchlist.t) (id : ObjectId)
    (w : Watchlist.t) :
  items !! id = Some w → Watchlist.user w ≠ w_user req →
  (post_watchlist req s items).2 !! id = Some w
  ∧ (put_watchlist_item req s items).2 !! id = Some w
  ∧ (delete_watchlist_item req items).2 !! id = Some w
  ∧ (delete_watchlist_movie req items).2 !! id = Some w.
Proof.
  intros Hw Hother. split; [|split; [|split]].
  - destruct (post_watchlist_effect req s items)
      as [->|(m & p & n & -> & _)]; [done|].
    rewrite lookup_insert_ne; [done|].
    intros Heq. pose proof (fresh_item_id items) as Hf.
    rewrite Heq in Hf. congruence.
  - destruct (put_watchlist_effect req s items)
      as [->|(j & old & p & n & _ & Hold & Hown & -> & _)]; [done|].
    rewrite lookup_insert_ne; [done|]. intros ->. congruence.
  - destruct (delete_watchlist_item_effect req items)
      as [->|(j & wj & Hj & Hown & ->)]; [done|].
    apply lookup_delete_Some. split; [|done]. intros ->. congruence.
  - destruct (delete_watchlist_movie_effect req items)
      as [->|(j & wj & Hj & Hown & ->)]; [done|].
    apply lookup_delete_Some. split; [|done]. intros ->. congruence.
Qed.

(** X27: editing an entry neither creates nor removes one, and under
    every id the user, the movie and the date of addition stay what they
    were; an entry the route has changed passes the schema's validators:
    its priority is low, medium or high and its notes, if any, have at
    most 500 characters. *)
Theorem put_watchlist_item_keeps_identity (req : WRequest) (s : Store)
    (items : gmap nat Watchlist.t) :
  dom (put_watchlist_item req s items).2 = dom items
  ∧ ∀ (id : ObjectId) (w' : Watchlist.t),
      (put_watchlist_item req s items).2 !! id = Some w' →
      ∃ w, items !! id = Some w
           ∧ Watchlist.user w' = Watchlist.user w
           ∧ Watchlist.movie w' = Watchlist.movie w
           ∧ Watchlist.dateAdded w' = Watchlist.dateAdded w
           ∧ (w' = w
              ∨ (Watchlist.priority w' ∈ ["low"; "medium"; "high"]
                 ∧ ∀ text, Watchlist.notes w' = Some text →
                           (String.length text ≤ 500)%nat)).
Proof.
  destruct (put_watchlist_effect req s items)
    as [->|(j & old & p & n & _ & Hold & _ & -> & Hp & Hn)].
  - split; [done|]. intros id w' Hw. exists w'. eauto 10.
  - split.
    + rewrite dom_insert_L. apply subseteq_union_1_L.
      apply singleton_subseteq_l. by apply elem_of_dom_2 in Hold.
    + intros id w' Hw.
      apply lookup_insert_Some in Hw as [[<- <-]|[_ Hw]].
      * exists old. simpl. repeat split; try done. right. split.
        -- by apply bool_decide_eq_true_1 in Hp.
        -- intros text ->. simpl in Hn. by apply Nat.leb_le in Hn.
      * exists w'. eauto 10.
Qed.

End WatchlistProperties.

(** ** The further properties on sample data *)

Section OnSampleData.
Import Scenario Samples.
Local Existing Instance plain_cast.
Local Existing Instance found_order.

Lemma s0_reviews_lookup (id : ObjectId) (r : Review.t) :
  reviews s0 !! id = Some r →
  (id = 1%nat ∧ r = review alice 4) ∨ (id = 2%nat ∧ r = review bob 5).
Proof.
  unfold s0. cbn [reviews]. intros Hl.
  apply lookup_insert_Some in Hl as [[<- <-]|[_ Hl]]; [by left|].
  apply lookup_singleton_Some in Hl as [<- <-]. by right.
Qed.

Lemma s0_unique_reviews : unique_reviews s0.
Proof.
  intros i j ri rj Hi Hj Hu Hm.
  apply s0_reviews_lookup in Hi as [[-> ->]|[-> ->]];
    apply s0_reviews_lookup in Hj as [[-> ->]|[-> ->]]; done.
Qed.

Lemma s0_reactions_well_formed : store_reactions_well_formed s0.
Proof.
  intros id r Hr.
  apply s0_reviews_lookup in Hr as [[-> ->]|[-> ->]];
    (split; [apply NoDup_nil_2|split; [apply NoDup_nil_2|]]);
    intros x Hx; by apply not_elem_of_nil in Hx.
Qed.

Lemma w0_unique_items : unique_items w0.
Proof.
  unfold w0. intros i j wi wj Hi Hj _ _.
  apply lookup_singleton_Some in Hi as [<- _].
  by apply lookup_singleton_Some in Hj as [<- _].
Qed.

Lemma rounded_average_half_up_witness :
  ∃ k : Z,
    rounded_average [review alice 4; review bob 5]
    = JS.div (JS.of_Z k) (JS.of_Z 10)
    ∧ 10 ≤ k ≤ 50
    ∧ 2 * k * Z.of_nat (length [review alice 4; review bob 5])
      ≤ 20 * totalRating [review alice 4; review bob 5]
        + Z.of_nat (length [review alice 4; review bob 5])
    ∧ 20 * totalRating [review alice 4; review bob 5]
      + Z.of_nat (length [review alice 4; review bob 5])
      < 2 * (k + 1) * Z.of_nat (length [review alice 4; review bob 5]).
Proof.
  apply (rounded_average_half_up [review alice 4; review bob 5]).
  - discriminate.
  - repeat constructor; simpl; lia.
Defined.

Lemma post_review_first_review_refused_witness :
  post_review (create_req carol 3) e0 = (ServerError, e0).
Proof.
  apply (post_review_first_review_refused (create_req carol 3) e0 (jnum 1) M1);
    try reflexivity.
  vm_compute. eauto.
Defined.

Lemma created_review_is_stored_witness :
  ∃ (m : ObjectId) (movie : Movie.t) (review : Review.t),
    (body (create_req carol 3) !! "movieId") ≫= castObjectId = Some m
    ∧ movies s0 !! m = Some movie
    ∧ reviews_of_movie s0 m ≠ []
    ∧ mkResponse 201
        (MessageReview "Review submitted successfully" (Scenario.review carol 3))
      = mkResponse 201 (MessageReview "Review submitted successfully" review)
    ∧ Review.user review = req_user (create_req carol 3)
    ∧ Review.movie review = m
    ∧ Review.likes review = [] ∧ Review.dislikes review = []
    ∧ reviews s0 !! new_ObjectId s0 = None
    ∧ s1 = mkStore
             (<[m := movie_recomputed movie (reviews_of_movie s0 m)]>
                (movies s0))
             (match users s0 !! req_user (create_req carol 3) with
              | Some user =>
                  <[req_user (create_req carol 3) :=
                      user_recomputed user
                        (reviews_by_user s0 (req_user (create_req carol 3)))]>
                    (users s0)
              | None => users s0
              end)
             (<[new_ObjectId s0 := review]> (reviews s0)).
Proof.
  apply (created_review_is_stored (create_req carol 3) s0 s1
           (mkResponse 201
              (MessageReview "Review submitted successfully"
                 (Scenario.review carol 3))));
    vm_compute; reflexivity.
Defined.

Lemma review_routes_keep_reviews_unique_witness :
  unique_reviews (post_review (create_req carol 3) s0).2
  ∧ unique_reviews (put_review (create_req carol 3) s0).2
  ∧ unique_reviews (post_reaction (create_req carol 3) s0).2
  ∧ unique_reviews (delete_review (create_req carol 3) s0).2.
Proof.
  apply (review_routes_keep_reviews_unique (create_req carol 3) s0).
  apply s0_unique_reviews.
Defined.

Lemma review_routes_touch_only_their_documents_witness :
  agree_outside 2%nat M1 bob s0 (put_review (update_req bob 2 3) s0).2
  ∧ agree_outside 2%nat M1 bob s0 (post_reaction (update_req bob 2 3) s0).2
  ∧ agree_outside 2%nat M1 bob s0 (delete_review (update_req bob 2 3) s0).2.
Proof.
  apply (review_routes_touch_only_their_documents (update_req bob 2 3) s0
           2%nat (review bob 5)); reflexivity.
Defined.

Lemma only_the_author_may_change_a_review_witness :
  delete_review (update_req alice 2 1) s0 = (NotAuthorized "delete", s0)
  ∧ (validation_errors (update_req alice 2 1) = [] →
     put_review (update_req alice 2 1) s0 = (NotAuthorized "update", s0)).
Proof.
  apply (only_the_author_may_change_a_review (update_req alice 2 1) s0
           2%nat (review bob 5)); try reflexivity.
  discriminate.
Defined.

Lemma unknown_review_is_reported_witness :
  put_review (update_req alice 7 1) s0 = (NotFound "Review", s0)
  ∧ delete_review (update_req alice 7 1) s0 = (NotFound "Review", s0)
  ∧ post_reaction (update_req alice 7 1) s0 = (NotFound "Review", s0).
Proof.
  apply (proj2 (unknown_review_is_reported (update_req alice 7 1) s0 eq_refl)
           7%nat); reflexivity.
Defined.

Lemma deleted_review_is_still_counted_witness :
  ∃ (id : ObjectId) (r : Review.t),
    castObjectId (params_reviewId (delete_req bob 2)) = Some id
    ∧ reviews s0 !! id = Some r
    ∧ Review.user r = req_user (delete_req bob 2)
    ∧ mkResponse 200 (Message "Review deleted successfully")
      = mkResponse 200 (Message "Review deleted successfully")
    ∧ reviews (delete_review (delete_req bob 2) s0).2 = delete id (reviews s0)
    ∧ (∀ movie : Movie.t, movies s0 !! Review.movie r = Some movie →
       ∃ movie' : Movie.t,
         movies (delete_review (delete_req bob 2) s0).2 !! Review.movie r
         = Some movie'
         ∧ Movie.totalReviews movie'
           = 1 + Z.of_nat (length (reviews_of_movie
                                     (delete_review (delete_req bob 2) s0).2
                                     (Review.movie r)))
         ∧ Movie.totalRatings movie' = Movie.totalReviews movie').
Proof.
  apply (deleted_review_is_still_counted (delete_req bob 2) s0
           (delete_review (delete_req bob 2) s0).2
           (mkResponse 200 (Message "Review deleted successfully")));
    vm_compute; reflexivity.
Defined.

Lemma create_then_delete_restores_reviews_witness :
  reviews (delete_review (delete_req carol 3) s1).2 = reviews s0
  ∧ ∃ (m : ObjectId) (movie' : Movie.t),
      (body (create_req carol 3) !! "movieId") ≫= castObjectId = Some m
      ∧ movies (delete_review (delete_req carol 3) s1).2 !! m = Some movie'
      ∧ Movie.totalReviews movie'
        = 1 + Z.of_nat (length (reviews_of_movie
                                  (delete_review (delete_req carol 3) s1).2 m)).
Proof.
  apply (create_then_delete_restores_reviews (create_req carol 3)
           (delete_req carol 3) s0 s1
           (delete_review (delete_req carol 3) s1).2
           (post_review (create_req carol 3) s0).1
           (delete_review (delete_req carol 3) s1).1);
    vm_compute; reflexivity.
Defined.

Lemma toggle_twice_is_identity_witness :
  toggle (toggle reacted carol (JStr "like")) carol (JStr "like") = reacted
  ∧ toggle (toggle reacted carol (JStr "dislike")) carol (JStr "dislike")
    = reacted.
Proof.
  apply (toggle_twice_is_identity reacted carol); simpl;
    intros Hin; apply list_elem_of_singleton in Hin; discriminate.
Defined.

Lemma toggle_concerns_only_the_acting_user_witness :
  (alice ∈ Review.likes (toggle reacted bob (JStr "like"))
   ↔ alice ∈ Review.likes reacted)
  ∧ (alice ∈ Review.dislikes (toggle reacted bob (JStr "like"))
     ↔ alice ∈ Review.dislikes reacted)
  ∧ Review.user (toggle reacted bob (JStr "like")) = Review.user reacted
  ∧ Review.movie (toggle reacted bob (JStr "like")) = Review.movie reacted
  ∧ Review.rating (toggle reacted bob (JStr "like")) = Review.rating reacted
  ∧ Review.reviewText (toggle reacted bob (JStr "like"))
    = Review.reviewText reacted
  ∧ Review.helpful (toggle reacted bob (JStr "like")) = Review.helpful reacted
  ∧ Review.spoiler (toggle reacted bob (JStr "like")) = Review.spoiler reacted.
Proof.
  apply (toggle_concerns_only_the_acting_user reacted bob (JStr "like") alice).
  discriminate.
Defined.

Lemma review_routes_keep_reactions_well_formed_witness :
  store_reactions_well_formed (post_review (react_req carol 1 "like") s0).2
  ∧ store_reactions_well_formed (put_review (react_req carol 1 "like") s0).2
  ∧ store_reactions_well_formed (post_reaction (react_req carol 1 "like") s0).2
  ∧ store_reactions_well_formed (delete_review (react_req carol 1 "like") s0).2.
Proof.
  apply (review_routes_keep_reactions_well_formed (react_req carol 1 "like") s0).
  apply s0_reactions_well_formed.
Defined.

Lemma accepted_reaction_is_stored_witness :
  ∃ (id : ObjectId) (r : Review.t),
    castObjectId (params_reviewId (react_req carol 1 "like")) = Some id
    ∧ reviews s0 !! id = Some r
    ∧ Review.user r ≠ req_user (react_req carol 1 "like")
    ∧ let r' := toggle r (req_user (react_req carol 1 "like"))
                  (default JNull
                     (body (react_req carol 1 "like") !! "reactionType")) in
      mkResponse 200
        (MessageReview "Reaction updated successfully"
           (toggle (Scenario.review alice 4) carol (JStr "like")))
      = mkResponse 200 (MessageReview "Reaction updated successfully" r')
      ∧ reviews (post_reaction (react_req carol 1 "like") s0).2
        = <[id := r']> (reviews s0)
      ∧ (∀ movie : Movie.t, movies s0 !! Review.movie r = Some movie →
         movies (post_reaction (react_req carol 1 "like") s0).2
           !! Review.movie r
         = Some (movie_recomputed movie
                   (reviews_of_movie s0 (Review.movie r)))).
Proof.
  apply (accepted_reaction_is_stored (react_req carol 1 "like") s0
           (post_reaction (react_req carol 1 "like") s0).2
           (mkResponse 200
              (MessageReview "Reaction updated successfully"
                 (toggle (Scenario.review alice 4) carol (JStr "like")))));
    vm_compute; reflexivity.
Defined.

Lemma pagination_reports_remaining_pages_witness :
  totalPages (pagination 2 10 25) = JS.of_Z ((25 + 10 - 1) / 10)
  ∧ (hasNextPage (pagination 2 10 25) = true ↔ 2 * 10 < 25)
  ∧ (hasPrevPage (pagination 2 10 25) = true ↔ 1 < 2).
Proof. apply (pagination_reports_remaining_pages 2 10 25). lia. Defined.

Lemma pages_cover_the_result_witness :
  mjoin ((λ p : nat, skip_limit ((Z.of_nat p - 1) * 2) 2 genres)
           <$> seq 1 (Z.to_nat ((Z.of_nat (length genres) + 2 - 1) / 2)))
  = genres
  ∧ ∀ page : Z, 1 ≤ page →
      Z.of_nat (length (skip_limit ((page - 1) * 2) 2 genres))
      = Z.min 2 (Z.max 0 (Z.of_nat (length genres) - (page - 1) * 2)).
Proof. apply (pages_cover_the_result genres 2). lia. Defined.

Lemma get_movie_reviews_lists_stored_reviews_witness :
  ∃ items : list (ObjectId * Review.t * option UserSummary),
    get_movie_reviews (jnum 1) first_page s0
    = mkListResponse 200
        (LMovieReviews items
           (pagination (default 1 (q_page first_page))
              (default 10 (q_limit first_page))
              (Z.of_nat (length (reviews_of_movie s0 M1)))))
    ∧ Z.of_nat (length items) ≤ default 10 (q_limit first_page)
    ∧ NoDup (items.*1.*1)
    ∧ ∀ id r pu, (id, r, pu) ∈ items →
        reviews s0 !! id = Some r ∧ Review.movie r = M1
        ∧ pu = populate_user s0 r.
Proof.
  apply (get_movie_reviews_lists_stored_reviews (jnum 1) first_page s0 M1);
    try reflexivity.
  vm_compute. eauto.
Defined.

Lemma user_listings_differ_for_unknown_users_witness :
  ∃ items : list (ObjectId * Review.t * option MovieSummary),
    get_user_reviews (jnum 11) first_page s0
    = mkListResponse 200
        (LUserReviews items
           (pagination (default 1 (q_page first_page))
              (default 10 (q_limit first_page))
              (Z.of_nat (length (reviews_by_user s0 alice)))))
    ∧ Z.of_nat (length items) ≤ default 10 (q_limit first_page)
    ∧ (∀ id r pm, (id, r, pm) ∈ items →
         reviews s0 !! id = Some r ∧ Review.user r = alice
         ∧ pm = populate_movie s0 r)
    ∧ (is_Some (users s0 !! alice) →
       get_reviews_of_user (jnum 11) first_page s0
       = get_user_reviews (jnum 11) first_page s0)
    ∧ (users s0 !! alice = None →
       get_reviews_of_user (jnum 11) first_page s0
       = mkListResponse 404 (LMessage "User not found")).
Proof.
  apply (user_listings_differ_for_unknown_users (jnum 11) first_page s0 alice);
    reflexivity.
Defined.

Lemma valid_genres_survive_clean_up_witness :
  genre_validator (clean_genre genres) = true
  ∧ (∀ g, g ∈ clean_genre genres ↔ g ∈ genres)
  ∧ (NoDup genres → clean_genre genres = genres).
Proof. apply (valid_genres_survive_clean_up genres). reflexivity. Defined.

Lemma formattedRuntime_splits_minutes_witness :
  (∃ h m : Z,
     formattedRuntime (Some 142)
     = Some (String_of_Z h +:+ "h " +:+ String_of_Z m +:+ "m")
     ∧ 60 * h + m = 142 ∧ 0 ≤ h ≤ 10 ∧ 0 ≤ m < 60)
  ∧ formattedRuntime (Some 0) = None
  ∧ formattedRuntime None = None.
Proof. apply (formattedRuntime_splits_minutes 142). lia. Defined.

Lemma delete_movie_leaves_its_reviews_witness :
  let s' := mkStore (delete M1 (movies s0)) (users s0) (reviews s0) in
  delete_movie (jnum 1) s0
  = (mkResponse 200 (Message "Movie deleted successfully"), s')
  ∧ reviews_of_movie s' M1 = reviews_of_movie s0 M1
  ∧ post_review (create_req carol 3) s' = (NotFound "Movie", s')
  ∧ delete_movie (jnum 1) s' = (NotFound "Movie", s').
Proof.
  apply (delete_movie_leaves_its_reviews (jnum 1) s0 M1 (create_req carol 3)
           (jnum 1)); try reflexivity.
  vm_compute. eauto.
Defined.

Lemma post_watchlist_succeeds_witness :
  let item := Watchlist.mk bob M1 100 "medium" (Some "soon") in
  let items' := <[fresh (dom w0) := item]> w0 in
  post_watchlist (add_req bob) s0 w0
  = (mkWResponse 201
       (WMessageItem "Movie added to watchlist successfully" item
          (watchlist_populate s0 item)), items')
  ∧ w0 !! fresh (dom w0) = None
  ∧ check_watchlist (movie_req bob) items'
    = mkWResponse 200 (WCheck true (Some item)).
Proof.
  apply (post_watchlist_succeeds (add_req bob) (movie_req bob) s0 w0 (jnum 1)
           M1 "medium" (Some "soon")); try reflexivity.
  - vm_compute. eauto.
  - unfold w0. intros id w Hw Hu.
    apply lookup_singleton_Some in Hw as [_ <-]. discriminate.
  - apply (bool_decide_unpack _). vm_compute. exact I.
  - intros text [= <-]. simpl. lia.
Defined.

Lemma add_then_remove_restores_watchlist_witness :
  delete_watchlist_movie (movie_req bob)
    (<[fresh (dom w0) := Watchlist.mk bob M1 100 "medium" (Some "soon")]> w0)
  = (mkWResponse 200 (WMessage "Movie removed from watchlist successfully"),
     w0).
Proof.
  apply (add_then_remove_restores_watchlist (add_req bob) (movie_req bob) s0
           w0 (Watchlist.mk bob M1 100 "medium" (Some "soon"))
           (watchlist_populate s0
              (Watchlist.mk bob M1 100 "medium" (Some "soon"))));
    vm_compute; reflexivity.
Defined.

Lemma watchlist_duplicate_refused_witness :
  post_watchlist (add_req alice) s0 w0
  = (mkWResponse 400 (WMessage "Movie is already in your watchlist"), w0).
Proof.
  apply (watchlist_duplicate_refused (add_req alice) s0 w0 (jnum 1) M1 1%nat
           (watch alice M1)); try reflexivity.
  vm_compute. eauto.
Defined.

Lemma watchlist_routes_keep_entries_unique_witness :
  unique_items (post_watchlist (add_req bob) s0 w0).2
  ∧ unique_items (put_watchlist_item (add_req bob) s0 w0).2
  ∧ unique_items (delete_watchlist_item (add_req bob) w0).2
  ∧ unique_items (delete_watchlist_movie (add_req bob) w0).2.
Proof.
  apply (watchlist_routes_keep_entries_unique (add_req bob) s0 w0).
  apply w0_unique_items.
Defined.

Lemma watchlist_routes_leave_other_users_entries_witness :
  (post_watchlist (edit_req bob 1) s0 w0).2 !! 1%nat = Some (watch alice M1)
  ∧ (put_watchlist_item (edit_req bob 1) s0 w0).2 !! 1%nat
    = Some (watch alice M1)
  ∧ (delete_watchlist_item (edit_req bob 1) w0).2 !! 1%nat
    = Some (watch alice M1)
  ∧ (delete_watchlist_movie (edit_req bob 1) w0).2 !! 1%nat
    = Some (watch alice M1).
Proof.
  apply (watchlist_routes_leave_other_users_entries (edit_req bob 1) s0 w0
           1%nat (watch alice M1)); [reflexivity|discriminate].
Defined.

End OnSampleData.
